(** * RegNet backbones of KerasCV: graph construction, embedded and verified

    Source: [keras_cv/models/backbones/regnet/regnet_backbone.py].

    The module assembles a Keras functional graph: every function takes a
    symbolic tensor, applies freshly configured layers to it and returns
    the resulting symbolic tensor.  The embedding keeps exactly that shape:

    - a symbolic tensor is the term of layer applications that produced it;
    - a construction step runs in a small state-and-exception monad whose
      state holds the per-prefix counters of [backend.get_uid] and the
      layers applied so far, in application order;
    - Python exceptions raised by the module's own code ([ValueError],
      [NotImplementedError]) and by the Python operators it uses
      ([ZeroDivisionError], [OverflowError], [IndexError]) are results.

    Python floats are IEEE binary64 values, taken from the Standard
    Library's executable specification [SpecFloat].

    The tensor library is a collaborator.  A call of a layer records
    what the module asks for; what the library makes of it is kept apart:
    [fits] and [accepted] hold its argument checks (group counts, shapes of
    the operands of an addition), [unit_names] the names it generates for
    the layers that the module leaves unnamed. *)

From Stdlib Require Import ZArith SpecFloat Lia.
From stdpp Require Import gmap strings list pretty.

Local Open Scope Z_scope.

(** ** Python values used by the module *)

Inductive exn : Type :=
  | ValueError (msg : string)
  | NotImplementedError (msg : string)
  | ZeroDivisionError
  | OverflowError
  | IndexError.

Inductive result (A : Type) : Type :=
  | OK (a : A)
  | Raise (e : exn).
Arguments OK {A} a.
Arguments Raise {A} e.

Definition is_OK {A} (r : result A) : bool :=
  match r with OK _ => true | Raise _ => false end.

(** [str(n)] on an [int]. *)
Definition str (n : Z) : string := pretty n.

(** *** binary64 floats *)

Definition float_prec : Z := 53.
Definition float_emax : Z := 1024.

(** Conversion of a Python [int] operand to [float]; integers beyond the
    binary64 range raise [OverflowError]. *)
Definition float_of_int (n : Z) : result spec_float :=
  match binary_normalize float_prec float_emax n 0 false with
  | S754_infinity _ => Raise OverflowError
  | f => OK f
  end.

Definition float_is_zero (f : spec_float) : bool :=
  match f with S754_zero _ => true | _ => false end.

(** [a / b] on floats. *)
Definition float_truediv (a b : spec_float) : result spec_float :=
  if float_is_zero b then Raise ZeroDivisionError
  else OK (SFdiv float_prec float_emax a b).

(** [int(f)]: truncation towards zero. *)
Definition int_of_float (f : spec_float) : result Z :=
  match f with
  | S754_nan => Raise (ValueError "cannot convert float NaN to integer")
  | S754_infinity _ => Raise OverflowError
  | S754_zero _ => OK 0
  | S754_finite s m e => OK (cond_Zopp s (Z.shiftl (Z.pos m) e))
  end.

(** A decimal literal [n/d] denotes the binary64 value nearest to it. *)
Definition float_lit (n d : Z) : spec_float :=
  SFdiv float_prec float_emax
    (binary_normalize float_prec float_emax n 0 false)
    (binary_normalize float_prec float_emax d 0 false).

(** [0.25], [0.9], [1e-5], [1.0] and [255.0]. *)
Definition f_0_25 : spec_float := Eval vm_compute in float_lit 1 4.
Definition f_0_9 : spec_float := Eval vm_compute in float_lit 9 10.
Definition f_1e_5 : spec_float := Eval vm_compute in float_lit 1 100000.
Definition f_1_0 : spec_float := Eval vm_compute in float_lit 1 1.
Definition f_255_0 : spec_float := Eval vm_compute in float_lit 255 1.

(** [a // b] on ints: floor division, [ZeroDivisionError] on a zero divisor. *)
Definition floordiv (a b : Z) : result Z :=
  if b =? 0 then Raise ZeroDivisionError else OK (a / b).

(** ** Layers and symbolic tensors *)

(** Height and width of a feature map may be unknown ([None]); the batch
    axis is left out. *)
Record shape : Type := Shape {
  height : option Z;
  width : option Z;
  channels : Z
}.

Record conv2d : Type := Conv2DArgs {
  filters : Z;
  kernel_size : Z * Z;
  strides : Z;
  groups : Z;
  use_bias : bool;
  padding : string;
  kernel_initializer : string;
  conv_name : string
}.

Inductive layer : Type :=
  | InputLayer (sh : shape)
  | Rescaling (scale : spec_float)
  | Conv2D (c : conv2d)
  | BatchNormalization (momentum epsilon : spec_float) (name : string)
  | Activation (activation : string) (name : string)
  | SqueezeAndExcite2D (se_filters : Z) (ratio : spec_float) (name : string)
  | TFOpAdd.

(** A symbolic tensor is its history: the input it starts from, a layer
    applied to a tensor, or the sum [a + b] of two tensors. *)
Inductive tensor : Type :=
  | TInput (sh : shape)
  | TCall (l : layer) (x : tensor)
  | TAdd (a b : tensor).

(** Output length of a convolution along one axis (Keras
    [conv_output_length], dilation 1). *)
Definition conv_output_length (n k s : Z) (pad : string) : Z :=
  if String.eqb pad "same" then (n + s - 1) / s else (n - k + s) / s.

Definition layer_shape (l : layer) (i : shape) : shape :=
  match l with
  | InputLayer sh => sh
  | Conv2D c =>
      Shape
        ((fun n => conv_output_length n (fst (kernel_size c)) (strides c) (padding c))
           <$> height i)
        ((fun n => conv_output_length n (snd (kernel_size c)) (strides c) (padding c))
           <$> width i)
        (filters c)
  | Rescaling _ | BatchNormalization _ _ _ | Activation _ _
  | SqueezeAndExcite2D _ _ _ | TFOpAdd => i
  end.

(** [x.shape] without the batch axis.  The sum of two tensors has the
    shape of its (equally shaped) operands. *)
Fixpoint shape_of (x : tensor) : shape :=
  match x with
  | TInput sh => sh
  | TCall l x => layer_shape l (shape_of x)
  | TAdd a _ => shape_of a
  end.

(** ** Construction state and monad *)

(** [uid]: the counters behind [backend.get_uid]; [applied]: the layers
    applied so far, oldest first (one graph node per application). *)
Record state : Type := State {
  uid : gmap string Z;
  applied : list layer
}.

Definition M (A : Type) : Type := state -> result A * state.

Definition ret {A} (a : A) : M A := fun s => (OK a, s).

Definition bind {A B} (m : M A) (k : A -> M B) : M B :=
  fun s =>
    match m s with
    | (OK a, s') => k a s'
    | (Raise e, s') => (Raise e, s')
    end.

Definition raise {A} (e : exn) : M A := fun s => (Raise e, s).

Definition lift {A} (r : result A) : M A := fun s => (r, s).

Notation "'let*' x ':=' m 'in' k" := (bind m (fun x => k))
  (at level 10, x name, m at level 100, k at level 200, only parsing).

(** [backend.get_uid(prefix)]: bump the counter of [prefix] and return it. *)
Definition get_uid (prefix : string) : M Z :=
  fun s =>
    let n := default 0 (uid s !! prefix) + 1 in
    (OK n, State (<[prefix := n]> (uid s)) (applied s)).

(** The state after applying the layers [ls], in that order. *)
Definition extend (s : state) (ls : list layer) : state :=
  State (uid s) (applied s ++ ls).

Definition record_layer (l : layer) (s : state) : state := extend s [l].

(** [l(x)]: apply a layer to a tensor, adding one node to the graph.
    This is the module's side of the call; whether the library goes along
    with it is [fits], further down. *)
Definition call (l : layer) (x : tensor) : M tensor :=
  fun s => (OK (TCall l x), record_layer l s).

(** [a + b] on symbolic tensors (Keras wraps the operator in a layer).
    The library adds tensors of equal shapes, see [accepted]. *)
Definition add (a b : tensor) : M tensor :=
  fun s => (OK (TAdd a b), record_layer TFOpAdd s).

(** [for i in l: x = body(i, x)]. *)
Fixpoint for_each {A X} (l : list A) (body : A -> X -> M X) (x : X) : M X :=
  match l with
  | [] => ret x
  | i :: l' => let* x' := body i x in for_each l' body x'
  end.

(** [name] defaulting to a counter-derived one when [None]. *)
Definition name_or_uid (name : option string) (prefix : string)
    (mk : Z -> string) : M string :=
  match name with
  | Some n => ret n
  | None => let* u := get_uid prefix in ret (mk u)
  end.

(** ** The primitive unit: convolution, batch normalisation, activation *)

Definition apply_conv2d_bn (x : tensor) (filters : Z) (kernel_size : Z * Z)
    (strides : Z) (use_bias : bool) (groups : Z) (padding : string)
    (kernel_initializer : string) (batch_norm : bool)
    (activation : option string) (name : string) : M tensor :=
  let* x := call (Conv2D (Conv2DArgs filters kernel_size strides groups
                            use_bias padding kernel_initializer name)) x in
  let* x := (if batch_norm
             then call (BatchNormalization f_0_9 f_1e_5 (name +:+ "_bn")) x
             else ret x) in
  let* x := (match activation with
             | Some a => call (Activation a (name +:+ "_" +:+ a)) x
             | None => ret x
             end) in
  ret x.

(** The call [apply_conv2d_bn(x=.., filters=.., kernel_size=.., ..)] with the
    defaults [use_bias=False], [kernel_initializer="he_normal"] and
    [batch_norm=True], which every caller in the module leaves alone. *)
Definition conv_unit (x : tensor) (filters : Z) (kernel_size : Z * Z)
    (strides : Z) (groups : Z) (padding : string)
    (activation : option string) (name : string) : M tensor :=
  apply_conv2d_bn x filters kernel_size strides false groups padding
    "he_normal" true activation name.

(** ** Stem *)

Definition apply_stem (x : tensor) (name : option string) : M tensor :=
  let* name := name_or_uid name "stem" (fun u => "stem" +:+ str u) in
  let* x := conv_unit x 32 (3, 3) 2 1 "same" (Some "relu")
              (name +:+ "_stem_conv") in
  ret x.

(** ** X, Y and Z blocks *)

Definition filters_mismatch_msg (filters_in filters_out stride : Z) : string :=
  "Input filters(" +:+ str filters_in +:+ ") and output filters("
    +:+ str filters_out +:+ ") are not equal for stride " +:+ str stride
    +:+ ". Input and output filters must be equal for stride="
    +:+ str stride +:+ ".".

(** The Z block's message lacks the blank before "are". *)
Definition filters_mismatch_msg_z (filters_in filters_out stride : Z) : string :=
  "Input filters(" +:+ str filters_in +:+ ") and output filters("
    +:+ str filters_out +:+ ")are not equal for stride " +:+ str stride
    +:+ ". Input and output filters must be equal for stride="
    +:+ str stride +:+ ".".

(** [filters_in != filters_out and stride == 1]. *)
Definition filters_guard (filters_in filters_out stride : Z) : bool :=
  negb (filters_in =? filters_out) && (stride =? 1).

Definition apply_x_block (inputs : tensor) (filters_in filters_out
    group_width : Z) (stride : Z) (name : option string) : M tensor :=
  let* name := name_or_uid name "xblock" str in
  if filters_guard filters_in filters_out stride
  then raise (ValueError (filters_mismatch_msg filters_in filters_out stride))
  else
    let* groups := lift (floordiv filters_out group_width) in
    let* skip := (if negb (stride =? 1)
                  then conv_unit inputs filters_out (1, 1) stride 1 "valid"
                         None (name +:+ "_skip_1x1")
                  else ret inputs) in
    let* x := conv_unit inputs filters_out (1, 1) 1 1 "valid" (Some "relu")
                (name +:+ "_conv_1x1_1") in
    let* x := conv_unit x filters_out (3, 3) stride groups "same"
                (Some "relu") (name +:+ "_conv_3x3") in
    let* x := conv_unit x filters_out (1, 1) 1 1 "valid" None
                (name +:+ "_conv_1x1_2") in
    let* s := add x skip in
    let* x := call (Activation "relu" (name +:+ "_exit_relu")) s in
    ret x.

Definition apply_y_block (inputs : tensor) (filters_in filters_out
    group_width : Z) (stride : Z) (squeeze_excite_ratio : spec_float)
    (name : option string) : M tensor :=
  let* name := name_or_uid name "yblock" str in
  if filters_guard filters_in filters_out stride
  then raise (ValueError (filters_mismatch_msg filters_in filters_out stride))
  else
    let* groups := lift (floordiv filters_out group_width) in
    let* skip := (if negb (stride =? 1)
                  then conv_unit inputs filters_out (1, 1) stride 1 "valid"
                         None (name +:+ "_skip_1x1")
                  else ret inputs) in
    let* x := conv_unit inputs filters_out (1, 1) 1 1 "valid" (Some "relu")
                (name +:+ "_conv_1x1_1") in
    let* x := conv_unit x filters_out (3, 3) stride groups "same"
                (Some "relu") (name +:+ "_conv_3x3") in
    let* x := call (SqueezeAndExcite2D filters_out squeeze_excite_ratio name) x in
    let* x := conv_unit x filters_out (1, 1) 1 1 "valid" None
                (name +:+ "_conv_1x1_2") in
    let* s := add x skip in
    let* x := call (Activation "relu" (name +:+ "_exit_relu")) s in
    ret x.

(** [int(filters_out / bottleneck_ratio)]. *)
Definition inv_btlneck (filters_out : Z) (bottleneck_ratio : spec_float)
    : result Z :=
  match float_of_int filters_out with
  | Raise e => Raise e
  | OK f =>
      match float_truediv f bottleneck_ratio with
      | Raise e => Raise e
      | OK q => int_of_float q
      end
  end.

Definition apply_z_block (inputs : tensor) (filters_in filters_out
    group_width : Z) (stride : Z) (squeeze_excite_ratio bottleneck_ratio
    : spec_float) (name : option string) : M tensor :=
  let* name := name_or_uid name "zblock" str in
  if filters_guard filters_in filters_out stride
  then raise (ValueError (filters_mismatch_msg_z filters_in filters_out stride))
  else
    let* groups := lift (floordiv filters_out group_width) in
    let* inv_btlneck_filters := lift (inv_btlneck filters_out bottleneck_ratio) in
    let* x := conv_unit inputs inv_btlneck_filters (1, 1) 1 1 "valid"
                (Some "silu") (name +:+ "_conv_1x1_1") in
    let* x := conv_unit x inv_btlneck_filters (3, 3) stride groups "same"
                (Some "silu") (name +:+ "_conv_3x3") in
    let* x := call (SqueezeAndExcite2D inv_btlneck_filters
                      squeeze_excite_ratio name) x in
    let* x := conv_unit x filters_out (1, 1) 1 1 "valid" None
                (name +:+ "_conv_1x1_2") in
    if negb (stride =? 1) then ret x else add x inputs.

(** ** Stage builder *)

Definition unknown_block_msg (block_type : string) : string :=
  "Block type `" +:+ block_type +:+ "` not recognized."
    +:+ "block_type must be one of (`X`, `Y`, `Z`). ".

(** [range(1, depth)]. *)
Definition range_from_1 (depth : Z) : list Z := seqZ 1 (depth - 1).

Definition apply_stage (x : tensor) (block_type : string) (depth group_width
    filters_in filters_out : Z) (name : option string) : M tensor :=
  let* name := name_or_uid name "stage" str in
  if String.eqb block_type "X" then
    let* x := apply_x_block x filters_in filters_out group_width 2
                (Some (name +:+ "_XBlock_0")) in
    for_each (range_from_1 depth)
      (fun i x => apply_x_block x filters_out filters_out group_width 1
                    (Some (name +:+ "_XBlock_" +:+ str i))) x
  else if String.eqb block_type "Y" then
    let* x := apply_y_block x filters_in filters_out group_width 2 f_0_25
                (Some (name +:+ "_YBlock_0")) in
    for_each (range_from_1 depth)
      (fun i x => apply_y_block x filters_out filters_out group_width 1 f_0_25
                    (Some (name +:+ "_YBlock_" +:+ str i))) x
  else if String.eqb block_type "Z" then
    let* x := apply_z_block x filters_in filters_out group_width 2 f_0_25
                f_0_25 (Some (name +:+ "_ZBlock_0")) in
    for_each (range_from_1 depth)
      (fun i x => apply_z_block x filters_out filters_out group_width 1 f_0_25
                    f_0_25 (Some (name +:+ "_ZBlock_" +:+ str i))) x
  else raise (NotImplementedError (unknown_block_msg block_type)).

(** ** Backbone assembler *)

(** The attributes of a constructed [RegNetBackBone]: the graph handed to
    the functional-model constructor and the hyperparameters kept for
    serialisation. *)
Record RegNetBackBone : Type := Build_RegNetBackBone {
  inputs : tensor;
  outputs : tensor;
  name : string;
  depths : list Z;
  widths : list Z;
  group_width : Z;
  block_type : string;
  include_rescaling : bool;
  model_name : string;
  input_tensor : option tensor
}.

(** [l[i]] on a Python sequence, for a non-negative index. *)
Definition getitem (l : list Z) (i : nat) : result Z :=
  match l !! i with
  | Some v => OK v
  | None => Raise IndexError
  end.

(** Modelled from the spec: [utils.parse_model_inputs] is not among the
    sources.  The spec's construction parameters are "an optional externally
    supplied symbolic input tensor" and "an input shape": the supplied
    tensor is the graph's input when there is one, otherwise a fresh input
    of the given shape is. *)
Definition parse_model_inputs (input_shape : shape)
    (input_tensor : option tensor) : M tensor :=
  match input_tensor with
  | None =>
      fun s => (OK (TInput input_shape), record_layer (InputLayer input_shape) s)
  | Some t => ret t
  end.

(** [1.0 / 255.0]. *)
Definition rescaling_scale : spec_float :=
  Eval vm_compute in SFdiv float_prec float_emax f_1_0 f_255_0.

Definition NUM_STAGES : nat := 4.

(** One iteration of the stage loop; the loop carries [(x, in_channels)]. *)
Definition stage_step (depths widths : list Z) (group_width : Z)
    (block_type model_name : string) (stage_index : nat)
    (carry : tensor * Z) : M (tensor * Z) :=
  let x := fst carry in
  let in_channels := snd carry in
  let* depth := lift (getitem depths stage_index) in
  let* out_channels := lift (getitem widths stage_index) in
  let* x := apply_stage x block_type depth group_width in_channels
              out_channels
              (Some (model_name +:+ "_Stage_" +:+ str (Z.of_nat stage_index))) in
  ret (x, out_channels).

(** [RegNetBackBone.__init__]. *)
Definition RegNetBackBone_init (depths widths : list Z) (group_width : Z)
    (block_type : string) (include_rescaling : bool) (model_name : string)
    (input_tensor : option tensor) (input_shape : shape) : M RegNetBackBone :=
  let* img_input := parse_model_inputs input_shape input_tensor in
  let x := img_input in
  let* x := (if include_rescaling then call (Rescaling rescaling_scale) x
             else ret x) in
  let* x := apply_stem x (Some model_name) in
  let in_channels := channels (shape_of x) in
  let* carry := for_each (seq 0 NUM_STAGES)
                  (stage_step depths widths group_width block_type model_name)
                  (x, in_channels) in
  let x := fst carry in
  ret (Build_RegNetBackBone img_input x model_name depths widths group_width
         block_type include_rescaling model_name input_tensor).

(** The default arguments [model_name="regnet"], [input_tensor=None],
    [input_shape=(None, None, 3)]. *)
Definition default_model_name : string := "regnet".
Definition default_input_shape : shape := Shape None None 3.

(** Construction from a clean slate: no counter used, no layer applied. *)
Definition fresh : state := State ∅ [].

(** ** Serialised configuration *)

Inductive config_value : Type :=
  | CInt (n : Z)
  | CInts (l : list Z)
  | CStr (s : string)
  | CBool (b : bool)
  | CTensor (t : option tensor)
  | CShape (sh : shape).

(** [d.update(e)]: the entries of [e] win. *)
Definition dict_update (d e : gmap string config_value)
    : gmap string config_value := e ∪ d.

(** [self.input_shape[1:]]: the shape of the model's input without the
    batch axis. *)
Definition input_shape_tail (self : RegNetBackBone) : shape :=
  shape_of (inputs self).

Definition own_config (self : RegNetBackBone) : gmap string config_value :=
  list_to_map
    [ ("depths", CInts (depths self));
      ("widths", CInts (widths self));
      ("group_width", CInt (group_width self));
      ("block_type", CStr (block_type self));
      ("include_rescaling", CBool (include_rescaling self));
      ("model_name", CStr (model_name self));
      ("input_tensor", CTensor (input_tensor self));
      ("input_shape", CShape (input_shape_tail self)) ].

Section GetConfig.

(** [super().get_config()] belongs to the base class, which is not among
    the sources; whatever it returns, [get_config] treats it the same. *)
Variable super_get_config : RegNetBackBone -> gmap string config_value.

(** [RegNetBackBone.get_config]: the updated dictionary stays in the
    local [config]; the body has no [return] statement, so the call
    evaluates to Python's [None]. *)
Definition get_config (self : RegNetBackBone)
    : option (gmap string config_value) :=
  let config := super_get_config self in
  let config := dict_update config (own_config self) in
  None.

End GetConfig.

(** ** Preset accessors: Python objects and [copy.deepcopy] *)

(** The preset tables are nested dictionaries and lists, mutable objects
    with identity.  A value is immutable data or a reference to an object
    of the heap; an object holds its keys (for a dictionary) and its
    values, in order. *)
Inductive pyvalue : Type :=
  | PInt (n : Z)
  | PStr (s : string)
  | PBool (b : bool)
  | PNone
  | PRef (a : nat).

Record pyobject : Type := PyObject {
  okeys : option (list string);
  ovalues : list pyvalue
}.

Abbreviation heap := (list pyobject).

#[global] Instance pyvalue_eq_dec : EqDecision pyvalue.
Proof. solve_decision. Defined.

(** Copy the values of a container from left to right with [cp],
    threading the heap. *)
Fixpoint copy_values (cp : pyvalue -> heap -> option (pyvalue * heap))
    (vs : list pyvalue) (h : heap) : option (list pyvalue * heap) :=
  match vs with
  | [] => Some ([], h)
  | v :: vs' =>
      match cp v h with
      | None => None
      | Some (v', h1) =>
          match copy_values cp vs' h1 with
          | None => None
          | Some (vs'', h2) => Some (v' :: vs'', h2)
          end
      end
  end.

(** [copy.deepcopy(v)]: immutable data is returned as it is; a container
    is copied into a new object whose values are deep copies.  [fuel]
    bounds the nesting depth that is followed.  The memo of [deepcopy]
    matters for shared and cyclic structure only and is left out. *)
Fixpoint deepcopy (fuel : nat) (v : pyvalue) (h : heap)
    : option (pyvalue * heap) :=
  match v with
  | PRef a =>
      match fuel with
      | O => None
      | S fuel' =>
          match h !! a with
          | None => None
          | Some o =>
              match copy_values (deepcopy fuel') (ovalues o) h with
              | None => None
              | Some (vs, h') =>
                  Some (PRef (length h'), h' ++ [PyObject (okeys o) vs])
              end
          end
      end
  | _ => Some (v, h)
  end.

(** [RegNetBackBone.presetsx] and [RegNetBackBone.presetsy]; the argument
    is the module-level table the accessor reads.  The class property is
    evaluated anew at every access. *)
Definition presetsx (backbone_presets_x : nat) (h : heap)
    : option (pyvalue * heap) :=
  deepcopy (length h) (PRef backbone_presets_x) h.

Definition presetsy (backbone_presets_y : nat) (h : heap)
    : option (pyvalue * heap) :=
  deepcopy (length h) (PRef backbone_presets_y) h.

(** ** Observations used in the statements *)

Definition is_ValueError {A} (r : result A) : bool :=
  match r with Raise (ValueError _) => true | _ => false end.

(** What running a primitive unit amounts to. *)
Definition conv_unit_layers (filters : Z) (kernel_size : Z * Z) (strides groups : Z)
    (padding : string) (activation : option string) (name : string)
    : list layer :=
  [Conv2D (Conv2DArgs filters kernel_size strides groups false padding
             "he_normal" name);
   BatchNormalization f_0_9 f_1e_5 (name +:+ "_bn")]
  ++ match activation with
     | Some a => [Activation a (name +:+ "_" +:+ a)]
     | None => []
     end.

(** [chain x ls]: the layers [ls] applied to [x] one after the other. *)
Definition chain (x : tensor) (ls : list layer) : tensor :=
  foldl (fun t l => TCall l t) x ls.

Definition conv_unit_out (x : tensor) (filters : Z) (kernel_size : Z * Z)
    (strides groups : Z) (padding : string) (activation : option string)
    (name : string) : tensor :=
  chain x (conv_unit_layers filters kernel_size strides groups padding
             activation name).

(** The layers of the X block's two paths, in order of application. *)
Definition x_skip_layers (filters_out stride : Z) (name : string) : list layer :=
  if stride =? 1 then []
  else conv_unit_layers filters_out (1, 1) stride 1 "valid" None
         (name +:+ "_skip_1x1").

Definition x_main_layers (filters_out group_width stride : Z) (name : string)
    : list layer :=
  conv_unit_layers filters_out (1, 1) 1 1 "valid" (Some "relu")
    (name +:+ "_conv_1x1_1")
  ++ conv_unit_layers filters_out (3, 3) stride (filters_out / group_width)
       "same" (Some "relu") (name +:+ "_conv_3x3")
  ++ conv_unit_layers filters_out (1, 1) 1 1 "valid" None
       (name +:+ "_conv_1x1_2").

Definition y_main_layers (filters_out group_width stride : Z)
    (squeeze_excite_ratio : spec_float) (name : string) : list layer :=
  conv_unit_layers filters_out (1, 1) 1 1 "valid" (Some "relu")
    (name +:+ "_conv_1x1_1")
  ++ conv_unit_layers filters_out (3, 3) stride (filters_out / group_width)
       "same" (Some "relu") (name +:+ "_conv_3x3")
  ++ [SqueezeAndExcite2D filters_out squeeze_excite_ratio name]
  ++ conv_unit_layers filters_out (1, 1) 1 1 "valid" None
       (name +:+ "_conv_1x1_2").

(** A residual block: [relu(main(inputs) + skip(inputs))]. *)
Definition residual_out (inputs : tensor) (main skip : list layer)
    (name : string) : tensor :=
  TCall (Activation "relu" (name +:+ "_exit_relu"))
    (TAdd (chain inputs main) (chain inputs skip)).

Definition residual_layers (main skip : list layer) (name : string)
    : list layer :=
  skip ++ main ++ [TFOpAdd; Activation "relu" (name +:+ "_exit_relu")].

(** The Z block as the spec words it: a 1x1 convolution to the bottleneck
    width with "silu", a 3x3 grouped convolution at the block's stride with
    [filters_out // group_width] groups and "silu", a squeeze-and-excite
    gate of the bottleneck width, and a 1x1 convolution down to
    [filters_out] without activation. *)
Definition z_main_layers (width filters_out group_width stride : Z)
    (squeeze_excite_ratio : spec_float) (name : string) : list layer :=
  [ Conv2D (Conv2DArgs width (1, 1) 1 1 false "valid" "he_normal"
              (name +:+ "_conv_1x1_1"));
    BatchNormalization f_0_9 f_1e_5 ((name +:+ "_conv_1x1_1") +:+ "_bn");
    Activation "silu" ((name +:+ "_conv_1x1_1") +:+ "_silu");
    Conv2D (Conv2DArgs width (3, 3) stride (filters_out / group_width) false
              "same" "he_normal" (name +:+ "_conv_3x3"));
    BatchNormalization f_0_9 f_1e_5 ((name +:+ "_conv_3x3") +:+ "_bn");
    Activation "silu" ((name +:+ "_conv_3x3") +:+ "_silu");
    SqueezeAndExcite2D width squeeze_excite_ratio name;
    Conv2D (Conv2DArgs filters_out (1, 1) 1 1 false "valid" "he_normal"
              (name +:+ "_conv_1x1_2"));
    BatchNormalization f_0_9 f_1e_5 ((name +:+ "_conv_1x1_2") +:+ "_bn") ].

(** The spec's output rule for the Z block: the projected tensor alone at
    a stride other than 1, the projected tensor plus the raw block input
    at stride 1. *)
Definition z_block_out (inputs : tensor) (main : list layer) (stride : Z)
    : tensor :=
  if stride =? 1 then TAdd (chain inputs main) inputs else chain inputs main.

Definition z_block_layers (main : list layer) (stride : Z) : list layer :=
  main ++ (if stride =? 1 then [TFOpAdd] else []).

Definition is_NotImplementedError {A} (r : result A) : bool :=
  match r with Raise (NotImplementedError _) => true | _ => false end.

(** A computation that never ends in [NotImplementedError]. *)
Definition never_NIE {A} (m : M A) : Prop :=
  ∀ s, is_NotImplementedError (fst (m s)) = false.

(** A graph with one open input: the topology of a construction,
    independent of what is fed into it. *)
Inductive ctx : Type :=
  | Hole
  | CCall (l : layer) (c : ctx)
  | CAdd (a b : ctx).

Fixpoint plug (c : ctx) (x : tensor) : tensor :=
  match c with
  | Hole => x
  | CCall l c => TCall l (plug c x)
  | CAdd a b => TAdd (plug a x) (plug b x)
  end.

Definition cchain (c : ctx) (ls : list layer) : ctx :=
  foldl (fun t l => CCall l t) c ls.

Definition map_result {A B} (f : A -> B) (r : result A) : result B :=
  match r with OK a => OK (f a) | Raise e => Raise e end.

(** [uniform fill m]: the computation [m x] does the same thing for every
    input tensor [x] and every state: it applies the same layers and ends
    in the same exception or in the same shape of result, filled with [x]. *)
Definition uniform {C A} (fill : C -> tensor -> A) (m : tensor -> M A) : Prop :=
  ∃ (r : result C) (new : list layer),
    ∀ x s, m x s = (map_result (fun c => fill c x) r, extend s new).

(** The loop carry [(x, in_channels)] of the assembler over a context. *)
Definition fill_carry (cz : ctx * Z) (x : tensor) : tensor * Z :=
  (plug (fst cz) x, snd cz).

(** The tensor the graph starts from, and the layers applied to obtain it. *)
Definition graph_input (input_shape : shape) (input_tensor : option tensor)
    : tensor :=
  match input_tensor with Some t => t | None => TInput input_shape end.

Definition input_layers (input_shape : shape) (input_tensor : option tensor)
    : list layer :=
  match input_tensor with Some _ => [] | None => [InputLayer input_shape] end.

Definition stem_layers (name : string) : list layer :=
  conv_unit_layers 32 (3, 3) 2 1 "same" (Some "relu") (name +:+ "_stem_conv").

(** Length of an axis after a "same"-padded convolution of stride [st]. *)
Definition downsample (st n : Z) : Z := (n + st - 1) / st.

(** Shape after a block of stride [st] with [filters_out] output filters. *)
Definition block_shape (st filters_out : Z) (sh : shape) : shape :=
  Shape (downsample st <$> height sh) (downsample st <$> width sh) filters_out.

(** The stride of a 3x3 convolution; every block has exactly one, and it
    carries the block's stride. *)
Definition conv3x3_stride (l : layer) : option Z :=
  match l with
  | Conv2D c =>
      if decide (kernel_size c = (3, 3)) then Some (strides c) else None
  | _ => None
  end.

Definition conv3x3_strides (ls : list layer) : list Z := omap conv3x3_stride ls.

(** The strides of a stage of [depth] blocks: 2 once, then 1. *)
Definition stage_strides (depth : Z) : list Z :=
  2 :: replicate (Z.to_nat (depth - 1)) 1.

(** One entry of a preset table: the hyperparameter tuple of a published
    configuration. *)
Record preset : Type := Preset {
  p_depths : list Z;
  p_widths : list Z;
  p_group_width : Z;
  p_block_type : string
}.

(** The format of an entry of the table of block type [bt]: four depths,
    four widths, a positive group width and the table's tag. *)
Definition wf_preset (bt : string) (p : preset) : Prop :=
  length (p_depths p) = 4%nat
  ∧ length (p_widths p) = 4%nat
  ∧ 0 < p_group_width p
  ∧ p_block_type p = bt.

(** *** Observing and mutating the heap *)

Fixpoint forallb2 {A B} (f : A -> B -> bool) (l : list A) (k : list B) : bool :=
  match l, k with
  | [], [] => true
  | a :: l', b :: k' => f a b && forallb2 f l' k'
  | _, _ => false
  end.

(** [same n h1 v1 h2 v2]: the value [v1] in heap [h1] and the value [v2]
    in heap [h2] cannot be told apart by looking [n] containers deep. *)
Fixpoint same (n : nat) (h1 : heap) (v1 : pyvalue) (h2 : heap) (v2 : pyvalue)
    : bool :=
  match v1, v2 with
  | PRef a1, PRef a2 =>
      match n with
      | O => true
      | S n' =>
          match h1 !! a1, h2 !! a2 with
          | Some o1, Some o2 =>
              bool_decide (okeys o1 = okeys o2)
              && forallb2 (fun x1 x2 => same n' h1 x1 h2 x2)
                   (ovalues o1) (ovalues o2)
          | _, _ => false
          end
      end
  | PRef _, _ | _, PRef _ => false
  | _, _ => bool_decide (v1 = v2)
  end.

(** The objects one can get at from a value. *)
Inductive reachable (h : heap) : pyvalue -> nat -> Prop :=
  | reach_self a : reachable h (PRef a) a
  | reach_child a o x b :
      h !! a = Some o -> x ∈ ovalues o -> reachable h x b ->
      reachable h (PRef a) b.

(** A caller of the accessors: the heap and the values the caller has
    got hold of. *)
Record world : Type := World {
  heap_of : heap;
  held : list pyvalue
}.

Definition holds (w : world) (a : nat) : Prop :=
  ∃ r, r ∈ held w ∧ reachable (heap_of w) r a.

Definition holds_value (w : world) (v : pyvalue) : Prop :=
  ∀ b, v = PRef b -> holds w b.

(** What the caller can do: read either table through its accessor,
    overwrite the contents of an object it can reach, or make a new
    object; contents are built from what the caller holds. *)
Inductive action : Type :=
  | GetPresetsX
  | GetPresetsY
  | Store (a : nat) (o : pyobject)
  | New (o : pyobject).

Inductive step (tx ty : nat) : world -> action -> world -> Prop :=
  | step_get_x w v h' :
      presetsx tx (heap_of w) = Some (v, h') ->
      step tx ty w GetPresetsX (World h' (v :: held w))
  | step_get_y w v h' :
      presetsy ty (heap_of w) = Some (v, h') ->
      step tx ty w GetPresetsY (World h' (v :: held w))
  | step_store w a o :
      holds w a -> Forall (holds_value w) (ovalues o) ->
      step tx ty w (Store a o) (World (<[a := o]> (heap_of w)) (held w))
  | step_new w o :
      Forall (holds_value w) (ovalues o) ->
      step tx ty w (New o)
        (World (heap_of w ++ [o]) (PRef (length (heap_of w)) :: held w)).

Inductive steps (tx ty : nat) : world -> list action -> world -> Prop :=
  | steps_nil w : steps tx ty w [] w
  | steps_cons w1 a w2 acts w3 :
      step tx ty w1 a w2 -> steps tx ty w2 acts w3 ->
      steps tx ty w1 (a :: acts) w3.

(** A heap of literals: every container was built after its members. *)
Definition val_below (n : nat) (v : pyvalue) : Prop :=
  match v with PRef a => (a < n)%nat | _ => True end.

Definition val_from (n : nat) (v : pyvalue) : Prop :=
  match v with PRef a => (n <= a)%nat | _ => True end.

Definition ordered (h : heap) : Prop :=
  ∀ a o, h !! a = Some o -> Forall (val_below a) (ovalues o).

(** The stored tables occupy the heap [h0]; [stored h0 h] says they are
    still as they were, [closed h0 h] that no object outside them refers
    into them. *)
Definition stored (h0 h : heap) : Prop :=
  ∀ a, (a < length h0)%nat -> h !! a = h0 !! a.

Definition closed (h0 h : heap) : Prop :=
  ∀ a o, (length h0 <= a)%nat -> h !! a = Some o ->
         Forall (val_from (length h0)) (ovalues o).

Definition isolated (h0 : heap) (w : world) : Prop :=
  stored h0 (heap_of w) ∧ closed h0 (heap_of w)
  ∧ Forall (val_from (length h0)) (held w).

(** What a deep copy of a stored value amounts to: it succeeds, only
    appends objects, these refer to one another only, and the copy looks
    like the original at every depth. *)
Definition copied (h0 h : heap) (v : pyvalue) (r : option (pyvalue * heap))
    : Prop :=
  ∃ v' ext,
    r = Some (v', h ++ ext)
    ∧ val_from (length h) v'
    ∧ Forall (fun o => Forall (val_from (length h)) (ovalues o)) ext
    ∧ ∀ n, same n (h ++ ext) v' h0 v = true.

(** The two operands of the last [+] a tensor was built with. *)
Definition last_add (t : tensor) : option (tensor * tensor) :=
  match t with
  | TAdd a b => Some (a, b)
  | TCall _ (TAdd a b) => Some (a, b)
  | _ => None
  end.

(** The exception a stage ends in, if any: an unrecognised block type
    first, then a zero group width, then, for Z blocks, a bottleneck
    width [int(filters_out / 0.25)] that cannot be computed. *)
Definition stage_error (block_type : string) (gw fo : Z) : option exn :=
  if negb (String.eqb block_type "X" || String.eqb block_type "Y"
           || String.eqb block_type "Z")
  then Some (NotImplementedError (unknown_block_msg block_type))
  else if gw =? 0 then Some ZeroDivisionError
  else if String.eqb block_type "Z"
       then match inv_btlneck fo f_0_25 with
            | Raise e => Some e
            | OK _ => None
            end
       else None.

(** The exception the stage loop of the assembler ends in, if any: at
    each stage a missing depth or width, else the stage's own error. *)
Definition stage_step_error (depths widths : list Z) (gw : Z)
    (block_type : string) (i : nat) : option exn :=
  match depths !! i, widths !! i with
  | Some _, Some w => stage_error block_type gw w
  | _, _ => Some IndexError
  end.

Fixpoint first_error (errs : list (option exn)) : option exn :=
  match errs with
  | [] => None
  | Some e :: _ => Some e
  | None :: errs' => first_error errs'
  end.

Definition backbone_error (depths widths : list Z) (gw : Z)
    (block_type : string) : option exn :=
  first_error (stage_step_error depths widths gw block_type <$> seq 0 NUM_STAGES).

(** *** The layers of a stage and of a backbone, listed *)

(** The name the module gave a layer; the input, the rescaling and the
    addition are given none and are named by the library, see
    [unit_names]. *)
Definition layer_name (l : layer) : option string :=
  match l with
  | Conv2D c => Some (conv_name c)
  | BatchNormalization _ _ n | Activation _ n | SqueezeAndExcite2D _ _ n =>
      Some n
  | InputLayer _ | Rescaling _ | TFOpAdd => None
  end.

Definition layer_names (ls : list layer) : list string := omap layer_name ls.

Definition block_prefix (block_type : string) : string :=
  if String.eqb block_type "X" then "_XBlock_"
  else if String.eqb block_type "Y" then "_YBlock_"
  else "_ZBlock_".

(** The bottleneck width of the stage builder's Z blocks. *)
Definition default_bottleneck (filters_out : Z) : Z :=
  match inv_btlneck filters_out f_0_25 with OK w => w | Raise _ => 0 end.

(** The layers of one block of a stage, by block type. *)
Definition block_layers (block_type : string) (filters_out group_width
    stride : Z) (name : string) : list layer :=
  if String.eqb block_type "X" then
    residual_layers (x_main_layers filters_out group_width stride name)
      (x_skip_layers filters_out stride name) name
  else if String.eqb block_type "Y" then
    residual_layers (y_main_layers filters_out group_width stride f_0_25 name)
      (x_skip_layers filters_out stride name) name
  else
    z_block_layers
      (z_main_layers (default_bottleneck filters_out) filters_out group_width
         stride f_0_25 name) stride.

(** The layers of a stage: the first block at stride 2, then one block
    at stride 1 for each index of [range(1, depth)]. *)
Definition stage_layers (block_type : string) (depth group_width
    filters_out : Z) (name : string) : list layer :=
  block_layers block_type filters_out group_width 2
    (name +:+ block_prefix block_type +:+ "0")
  ++ concat ((fun i => block_layers block_type filters_out group_width 1
                         (name +:+ block_prefix block_type +:+ str i))
               <$> range_from_1 depth).

Definition stage_name (model_name : string) (i : nat) : string :=
  model_name +:+ "_Stage_" +:+ str (Z.of_nat i).

(** The layers of the four stages of a backbone. *)
Definition stages_layers (depths widths : list Z) (group_width : Z)
    (block_type model_name : string) (idx : list nat) : list layer :=
  concat ((fun i => stage_layers block_type (default 0 (depths !! i))
                      group_width (default 0 (widths !! i))
                      (stage_name model_name i)) <$> idx).

(** The layers of a backbone, in order of application. *)
Definition backbone_layers (depths widths : list Z) (group_width : Z)
    (block_type : string) (include_rescaling : bool) (model_name : string)
    (input_tensor : option tensor) (input_shape : shape) : list layer :=
  input_layers input_shape input_tensor
  ++ (if include_rescaling then [Rescaling rescaling_scale] else [])
  ++ stem_layers model_name
  ++ stages_layers depths widths group_width block_type model_name
       (seq 0 NUM_STAGES).

(** The number of layers of a stage: its first block (with the
    projected shortcut of the X and Y blocks, without the addition of the
    Z block), then each further block. *)
Definition stage_layer_count (block_type : string) (depth : Z) : nat :=
  ((if String.eqb block_type "X" then 12
    else if String.eqb block_type "Y" then 13 else 9)
   + Z.to_nat (depth - 1)
     * (if String.eqb block_type "X" then 10
        else if String.eqb block_type "Y" then 11 else 10))%nat.

(** *** Decimal numerals inside names *)

Definition is_digit (a : Ascii.ascii) : bool :=
  ((48 <=? Ascii.nat_of_ascii a) && (Ascii.nat_of_ascii a <=? 57))%nat.

Fixpoint all_digits (s : string) : Prop :=
  match s with
  | EmptyString => True
  | String a s' => is_digit a = true ∧ all_digits s'
  end.

(** A string that does not continue a numeral: empty, or starting with
    something else than a digit. *)
Definition no_digit_head (s : string) : Prop :=
  match s with
  | EmptyString => True
  | String a _ => is_digit a = false
  end.

(** The names of the layers of a block, without the block's own name. *)
Definition block_suffixes (block_type : string) (stride : Z) : list string :=
  layer_names (block_layers block_type 0 1 stride "").

(** ** The tensor library's side of a call

    The module decides which layers it asks for; whether a call goes
    through is the library's decision.  [call] and [add] record what is
    asked for, in order; [fits] and [accepted] say when the library goes
    along with it.  The requirements are the argument checks of Keras'
    [Conv2D] and [Activation] and of the addition of two tensors, read on
    the safe side: a graph that is [accepted] is built, and the library
    may let more through. *)

(** A known axis length is positive. *)
Definition dim_ok (d : option Z) : bool :=
  match d with None => true | Some n => 1 <=? n end.

Definition shape_ok (sh : shape) : bool :=
  dim_ok (height sh) && dim_ok (width sh) && (1 <=? channels sh).

Definition known_padding (p : string) : bool :=
  String.eqb p "valid" || String.eqb p "same".

(** Activation and initialiser names that the library resolves, among
    them all that the X and Y blocks use. *)
Definition known_activation (a : string) : bool :=
  bool_decide (a ∈ ["relu"; "sigmoid"; "softmax"; "softplus"; "softsign";
                    "tanh"; "selu"; "elu"; "exponential"; "linear"]).

Definition known_initializer (k : string) : bool :=
  bool_decide (k ∈ ["he_normal"; "he_uniform"; "glorot_normal";
                    "glorot_uniform"; "zeros"; "ones"]).

(** Without padding the window has to fit into a known axis. *)
Definition window_fits (p : string) (k : Z) (d : option Z) : bool :=
  String.eqb p "same" || match d with None => true | Some n => k <=? n end.

(** [Conv2D]: positive filters, kernel, strides and groups; the groups
    divide the filters and the input channels. *)
Definition conv_fits (c : conv2d) (sh : shape) : bool :=
  shape_ok sh
  && (1 <=? filters c)
  && (1 <=? fst (kernel_size c)) && (1 <=? snd (kernel_size c))
  && (1 <=? strides c)
  && (1 <=? groups c)
  && (filters c mod groups c =? 0)
  && (channels sh mod groups c =? 0)
  && known_padding (padding c)
  && known_initializer (kernel_initializer c)
  && window_fits (padding c) (fst (kernel_size c)) (height sh)
  && window_fits (padding c) (snd (kernel_size c)) (width sh).

(** A ratio [m * 2^e] strictly between 0 and 1 whose product with the
    channel count is at least 1, so that the reduced channel count
    [int(filters * ratio)] inside the gate is positive. *)
Definition gate_ok (filters : Z) (ratio : spec_float) : bool :=
  match ratio with
  | S754_finite false m e =>
      (e <? 0) && (Z.pos m <? 2 ^ (- e)) && (2 ^ (- e) <=? filters * Z.pos m)
  | _ => false
  end.

(** Modelled from the spec: [keras_cv.layers.SqueezeAndExcite2D] is not
    among the sources.  The spec has it rescale the channels of its input
    by a gate computed from them, given a channel count and a reduction
    ratio: it is taken to go through when the channel count is that of
    the input and the ratio suits it. *)
Definition gate_fits (filters : Z) (ratio : spec_float) (sh : shape) : bool :=
  shape_ok sh && (channels sh =? filters) && gate_ok filters ratio.

(** [fits l sh]: the library applies the layer [l] to a tensor of shape
    [sh].  The input layer and the addition are never applied this way. *)
Definition fits (l : layer) (sh : shape) : bool :=
  match l with
  | Conv2D c => conv_fits c sh
  | BatchNormalization _ _ _ => true
  | Activation a _ => known_activation a
  | SqueezeAndExcite2D f r _ => gate_fits f r sh
  | Rescaling _ => true
  | InputLayer _ | TFOpAdd => false
  end.

#[global] Instance shape_eq_dec : EqDecision shape.
Proof. solve_decision. Defined.

(** [accepted t]: the library goes along with every step in the history
    of [t]; two tensors are added when their shapes are equal. *)
Fixpoint accepted (t : tensor) : bool :=
  match t with
  | TInput sh => shape_ok sh
  | TCall l x => accepted x && fits l (shape_of x)
  | TAdd a b =>
      accepted a && accepted b && bool_decide (shape_of a = shape_of b)
  end.

(** The layers [ls] fit one after the other, starting from shape [sh]. *)
Fixpoint fit_all (sh : shape) (ls : list layer) : bool :=
  match ls with
  | [] => true
  | l :: ls' => fits l sh && fit_all (layer_shape l sh) ls'
  end.

(** The group count of a block's 3x3 convolution is one the library takes:
    positive, and dividing the block's filters. *)
Definition groups_ok (filters_out group_width : Z) : Prop :=
  1 <= filters_out / group_width
  ∧ filters_out mod (filters_out / group_width) = 0.

(** The shape after the layers [ls], starting from [sh]. *)
Definition shape_after (sh : shape) (ls : list layer) : shape :=
  foldl (fun sh l => layer_shape l sh) sh ls.

(** The spec's data model for an entry of the table of block type [bt],
    in full: beyond the format [wf_preset], positive depths and widths
    and a group width that divides every width.  A width of a Y entry is
    at least 4, the least channel count the gate takes at its default
    ratio. *)
Definition valid_preset (bt : string) (p : preset) : Prop :=
  wf_preset bt p
  ∧ Forall (fun d => 1 <= d) (p_depths p)
  ∧ Forall (fun w => 1 <= w ∧ w mod p_group_width p = 0) (p_widths p)
  ∧ (bt = "Y" -> Forall (fun w => 4 <= w) (p_widths p)).

(** What the library asks of a stage of block type [bt] whose blocks have
    [filters_out] filters: positive filters, a group count that is
    positive and divides them and, for the gate of the Y blocks at its
    default ratio 0.25, at least 4 of them. *)
Definition stage_ok (bt : string) (filters_out group_width : Z) : Prop :=
  1 <= filters_out
  ∧ groups_ok filters_out group_width
  ∧ (bt = "Y" -> 4 <= filters_out).

(** A block or a stage is built: the module's code runs through, and the
    library goes along with all of the graph. *)
Definition built (r : result tensor * state) : bool :=
  match fst r with OK t => accepted t | Raise _ => false end.

(** The same for a model. *)
Definition model_built (r : result RegNetBackBone * state) : bool :=
  match fst r with OK m => accepted (outputs m) | Raise _ => false end.

(** ** Names given by the library

    A layer created without a name is named by the library, after its
    class and a counter that the session keeps for the class ([input_1],
    [input_2], ...; [rescaling], [rescaling_1], ...).  The module creates
    every layer where it applies it, so the log of applied layers tells
    how many layers of a class the library has named before. *)
Definition layer_class (l : layer) : string :=
  match l with
  | InputLayer _ => "input"
  | Rescaling _ => "rescaling"
  | Conv2D _ => "conv2d"
  | BatchNormalization _ _ _ => "batch_normalization"
  | Activation _ _ => "activation"
  | SqueezeAndExcite2D _ _ _ => "squeeze_and_excite2d"
  | TFOpAdd => "tf.__operators__.add"
  end.

(** The name of a unit of the graph: the one the module gave, or the
    library's, made of the class and of the number of layers of that
    class it has named before. *)
Inductive unit_name : Type :=
  | Given (name : string)
  | Generated (class : string) (ordinal : nat).

Definition generated (class : string) (log : list layer) : nat :=
  length (filter (fun l => layer_name l = None ∧ layer_class l = class) log).

Definition unit_name_in (log : list layer) (l : layer) : unit_name :=
  match layer_name l with
  | Some n => Given n
  | None => Generated (layer_class l) (generated (layer_class l) log)
  end.

(** The names of the layers [new], applied in a session whose log is
    [log]. *)
Fixpoint unit_names (log new : list layer) : list unit_name :=
  match new with
  | [] => []
  | l :: new' => unit_name_in log l :: unit_names (log ++ [l]) new'
  end.

(** * Verification *)

(** ** Running the monad *)

Lemma extend_nil s : extend s [] = s.
Proof. destruct s; unfold extend; cbn. by rewrite app_nil_r. Qed.

Lemma extend_extend s l1 l2 : extend (extend s l1) l2 = extend s (l1 ++ l2).
Proof. unfold extend; cbn. by rewrite app_assoc. Qed.

Lemma applied_extend s ls : applied (extend s ls) = applied s ++ ls.
Proof. reflexivity. Qed.

Lemma uid_extend s ls : uid (extend s ls) = uid s.
Proof. reflexivity. Qed.

Lemma bind_OK {A B} (m : M A) (k : A -> M B) s a s' :
  m s = (OK a, s') -> bind m k s = k a s'.
Proof. unfold bind. by intros ->. Qed.

Lemma bind_Raise {A B} (m : M A) (k : A -> M B) s e s' :
  m s = (Raise e, s') -> bind m k s = (Raise e, s').
Proof. unfold bind. by intros ->. Qed.

Lemma call_run l x s : call l x s = (OK (TCall l x), extend s [l]).
Proof. reflexivity. Qed.

Lemma add_run a b s : add a b s = (OK (TAdd a b), extend s [TFOpAdd]).
Proof. reflexivity. Qed.

(** Resolving a name never applies a layer, and leaves the state alone
    when the caller supplied the name. *)
Lemma name_or_uid_run name prefix mk s :
  ∃ n s', name_or_uid name prefix mk s = (OK n, s')
          ∧ applied s' = applied s
          ∧ (∀ n0, name = Some n0 -> n = n0 ∧ s' = s).
Proof.
  destruct name as [n0|]; cbn.
  - exists n0, s. split_and!; [done..|]. by intros ? [= <-].
  - eexists _, _. split_and!; [done..|]. by intros ? [=].
Qed.

Arguments extend : simpl never.
Arguments str : simpl never.

(** ** The precondition of the blocks *)

Lemma filters_guard_true fi fo st :
  filters_guard fi fo st = true <-> fi ≠ fo ∧ st = 1.
Proof. unfold filters_guard. rewrite andb_true_iff, negb_true_iff. lia. Qed.

Lemma filters_guard_false fi fo st :
  filters_guard fi fo st = false <-> fi = fo ∨ st ≠ 1.
Proof.
  unfold filters_guard. rewrite andb_false_iff, negb_false_iff. lia.
Qed.

Lemma floordiv_ok a b : b ≠ 0 -> floordiv a b = OK (a / b).
Proof. unfold floordiv. intros H. by apply Z.eqb_neq in H as ->. Qed.

Lemma floordiv_zero a : floordiv a 0 = Raise ZeroDivisionError.
Proof. reflexivity. Qed.

Lemma conv_unit_run x f k st g p act n s :
  conv_unit x f k st g p act n s
  = (OK (conv_unit_out x f k st g p act n),
     extend s (conv_unit_layers f k st g p act n)).
Proof.
  unfold conv_unit, apply_conv2d_bn, conv_unit_out, conv_unit_layers.
  destruct act; cbn; unfold record_layer; by rewrite !extend_extend.
Qed.

Lemma conv_unit_shape x f k st g p act n :
  shape_of (conv_unit_out x f k st g p act n)
  = layer_shape (Conv2D (Conv2DArgs f k st g false p "he_normal" n)) (shape_of x).
Proof. by destruct act. Qed.

Lemma chain_app x l1 l2 : chain x (l1 ++ l2) = chain (chain x l1) l2.
Proof. apply foldl_app. Qed.

Lemma chain_nil x : chain x [] = x.
Proof. reflexivity. Qed.

Lemma bind_ret {A B} (a : A) (k : A -> M B) s : bind (ret a) k s = k a s.
Proof. reflexivity. Qed.

Lemma bind_lift_OK {A B} (a : A) (k : A -> M B) s :
  bind (lift (OK a)) k s = k a s.
Proof. reflexivity. Qed.

Lemma bind_lift_Raise {A B} e (k : A -> M B) s :
  bind (lift (Raise e)) k s = (Raise e, s).
Proof. reflexivity. Qed.

Lemma bind_raise {A B} e (k : A -> M B) s :
  bind (raise e) k s = (Raise e, s).
Proof. reflexivity. Qed.

Lemma bind_call {B} l x (k : tensor -> M B) s :
  bind (call l x) k s = k (TCall l x) (extend s [l]).
Proof. reflexivity. Qed.

Lemma bind_add {B} a b (k : tensor -> M B) s :
  bind (add a b) k s = k (TAdd a b) (extend s [TFOpAdd]).
Proof. reflexivity. Qed.

Lemma bind_conv_unit {B} x f ks st g p act n (k : tensor -> M B) s :
  bind (conv_unit x f ks st g p act n) k s
  = k (conv_unit_out x f ks st g p act n)
      (extend s (conv_unit_layers f ks st g p act n)).
Proof. unfold bind. by rewrite conv_unit_run. Qed.

Lemma bind_assoc {A B C} (m : M A) (k : A -> M B) (k' : B -> M C) s :
  bind (bind m k) k' s = bind m (fun a => bind (k a) k') s.
Proof. unfold bind. by destruct (m s) as [[a|e] s']. Qed.

Lemma ret_run {A} (a : A) s : ret a s = (OK a, s).
Proof. reflexivity. Qed.

(** One step of symbolic execution of a block body. *)
Ltac mstep :=
  first
    [ rewrite bind_conv_unit | rewrite bind_call | rewrite bind_add
    | rewrite bind_ret | rewrite bind_lift_OK | rewrite bind_lift_Raise
    | rewrite bind_raise | rewrite call_run | rewrite add_run
    | rewrite ret_run | rewrite conv_unit_run ].

Ltac mrun := repeat mstep; rewrite ?extend_extend.

(** ** Running the blocks *)

Section BlockRuns.

Context (inputs : tensor) (filters_in filters_out group_width stride : Z).
Context (name : option string) (s : state).

Lemma apply_x_block_rejects :
  filters_guard filters_in filters_out stride = true ->
  ∃ s', apply_x_block inputs filters_in filters_out group_width stride name s
        = (Raise (ValueError
                    (filters_mismatch_msg filters_in filters_out stride)), s')
        ∧ applied s' = applied s.
Proof.
  intros Hg. unfold apply_x_block.
  destruct (name_or_uid_run name "xblock" str s) as (n & s' & Hn & Ha & _).
  rewrite (bind_OK _ _ _ _ _ Hn), Hg. by exists s'.
Qed.

Lemma apply_x_block_accepts :
  filters_guard filters_in filters_out stride = false ->
  group_width ≠ 0 ->
  ∃ n s0, name_or_uid name "xblock" str s = (OK n, s0)
    ∧ apply_x_block inputs filters_in filters_out group_width stride name s
      = (OK (residual_out inputs
               (x_main_layers filters_out group_width stride n)
               (x_skip_layers filters_out stride n) n),
         extend s0 (residual_layers
                      (x_main_layers filters_out group_width stride n)
                      (x_skip_layers filters_out stride n) n)).
Proof.
  intros Hg Hw. unfold apply_x_block.
  destruct (name_or_uid_run name "xblock" str s) as (n & s0 & Hn & _ & _).
  exists n, s0. split; [done|].
  rewrite (bind_OK _ _ _ _ _ Hn), Hg, (floordiv_ok _ _ Hw).
  unfold residual_out, residual_layers, x_main_layers, x_skip_layers,
    conv_unit_out.
  destruct (stride =? 1); cbn [negb]; mrun;
    by rewrite ?chain_app, <- ?app_assoc.
Qed.

Lemma apply_x_block_zero_width :
  filters_guard filters_in filters_out stride = false ->
  group_width = 0 ->
  ∃ s', apply_x_block inputs filters_in filters_out group_width stride name s
        = (Raise ZeroDivisionError, s') ∧ applied s' = applied s.
Proof.
  intros Hg ->. unfold apply_x_block.
  destruct (name_or_uid_run name "xblock" str s) as (n & s' & Hn & Ha & _).
  rewrite (bind_OK _ _ _ _ _ Hn), Hg. by exists s'.
Qed.

Lemma apply_y_block_rejects ser :
  filters_guard filters_in filters_out stride = true ->
  ∃ s', apply_y_block inputs filters_in filters_out group_width stride ser
          name s
        = (Raise (ValueError
                    (filters_mismatch_msg filters_in filters_out stride)), s')
        ∧ applied s' = applied s.
Proof.
  intros Hg. unfold apply_y_block.
  destruct (name_or_uid_run name "yblock" str s) as (n & s' & Hn & Ha & _).
  rewrite (bind_OK _ _ _ _ _ Hn), Hg. by exists s'.
Qed.

Lemma apply_y_block_accepts ser :
  filters_guard filters_in filters_out stride = false ->
  group_width ≠ 0 ->
  ∃ n s0, name_or_uid name "yblock" str s = (OK n, s0)
    ∧ apply_y_block inputs filters_in filters_out group_width stride ser
        name s
      = (OK (residual_out inputs
               (y_main_layers filters_out group_width stride ser n)
               (x_skip_layers filters_out stride n) n),
         extend s0 (residual_layers
                      (y_main_layers filters_out group_width stride ser n)
                      (x_skip_layers filters_out stride n) n)).
Proof.
  intros Hg Hw. unfold apply_y_block.
  destruct (name_or_uid_run name "yblock" str s) as (n & s0 & Hn & _ & _).
  exists n, s0. split; [done|].
  rewrite (bind_OK _ _ _ _ _ Hn), Hg, (floordiv_ok _ _ Hw).
  unfold residual_out, residual_layers, y_main_layers, x_skip_layers,
    conv_unit_out.
  destruct (stride =? 1); cbn [negb]; mrun;
    by rewrite ?chain_app, <- ?app_assoc.
Qed.

Lemma apply_y_block_zero_width ser :
  filters_guard filters_in filters_out stride = false ->
  group_width = 0 ->
  ∃ s', apply_y_block inputs filters_in filters_out group_width stride ser
          name s
        = (Raise ZeroDivisionError, s') ∧ applied s' = applied s.
Proof.
  intros Hg ->. unfold apply_y_block.
  destruct (name_or_uid_run name "yblock" str s) as (n & s' & Hn & Ha & _).
  rewrite (bind_OK _ _ _ _ _ Hn), Hg. by exists s'.
Qed.

Lemma apply_z_block_rejects ser br :
  filters_guard filters_in filters_out stride = true ->
  ∃ s', apply_z_block inputs filters_in filters_out group_width stride ser br
          name s
        = (Raise (ValueError
                    (filters_mismatch_msg_z filters_in filters_out stride)), s')
        ∧ applied s' = applied s.
Proof.
  intros Hg. unfold apply_z_block.
  destruct (name_or_uid_run name "zblock" str s) as (n & s' & Hn & Ha & _).
  rewrite (bind_OK _ _ _ _ _ Hn), Hg. by exists s'.
Qed.

Lemma apply_z_block_accepts ser br bw :
  filters_guard filters_in filters_out stride = false ->
  group_width ≠ 0 ->
  inv_btlneck filters_out br = OK bw ->
  ∃ n s0, name_or_uid name "zblock" str s = (OK n, s0)
    ∧ apply_z_block inputs filters_in filters_out group_width stride ser br
        name s
      = (OK (z_block_out inputs
               (z_main_layers bw filters_out group_width stride ser n) stride),
         extend s0 (z_block_layers
                      (z_main_layers bw filters_out group_width stride ser n)
                      stride)).
Proof.
  intros Hg Hw Hb. unfold apply_z_block.
  destruct (name_or_uid_run name "zblock" str s) as (n & s0 & Hn & _ & _).
  exists n, s0. split; [done|].
  rewrite (bind_OK _ _ _ _ _ Hn), Hg, (floordiv_ok _ _ Hw), Hb.
  unfold z_block_out, z_block_layers, z_main_layers.
  destruct (stride =? 1); cbn [negb]; mrun; reflexivity.
Qed.

(** Without the guard firing, the Z block fails only in the arithmetic
    that precedes its first layer. *)
Lemma apply_z_block_arith_error ser br e :
  filters_guard filters_in filters_out stride = false ->
  (match floordiv filters_out group_width with
   | Raise e' => Raise e'
   | OK _ => inv_btlneck filters_out br
   end) = Raise e ->
  ∃ s', apply_z_block inputs filters_in filters_out group_width stride ser br
          name s
        = (Raise e, s') ∧ applied s' = applied s.
Proof.
  intros Hg He. unfold apply_z_block.
  destruct (name_or_uid_run name "zblock" str s) as (n & s' & Hn & Ha & _).
  rewrite (bind_OK _ _ _ _ _ Hn), Hg. exists s'. split; [|done].
  destruct (floordiv filters_out group_width) as [g|e'].
  - rewrite bind_lift_OK, He. by rewrite bind_lift_Raise.
  - rewrite bind_lift_Raise. congruence.
Qed.

End BlockRuns.

(** ** The filter check of the Z block *)

(** C1, the claim refuted at a concrete input: a Z block asked to go from
    32 to 64 filters at stride 1 is rejected with a [ValueError], and no
    layer has been applied. *)
Lemma z_block_32_64_stride_1_rejected :
  let r := apply_z_block (TInput (Shape None None 32)) 32 64 8 1 f_0_25 f_0_25
             (Some "z") fresh in
  is_OK (fst r) = false
  ∧ fst r = Raise (ValueError
       "Input filters(32) and output filters(64)are not equal for stride 1. Input and output filters must be equal for stride=1.")
  ∧ applied (snd r) = [].
Proof. vm_compute. done. Qed.

(** C1, as the code has it: the Z block carries the same check as the X
    and Y blocks, ahead of the bottleneck arithmetic.  For every
    [filters_in != filters_out] at stride 1, [apply_z_block] raises its
    [ValueError] without applying a layer, whatever the group width and
    the bottleneck ratio are, and the X and Y blocks reject the same
    arguments. *)
Theorem z_block_filter_check inputs filters_in filters_out group_width ser br
    name s :
  filters_in ≠ filters_out ->
  let r := apply_z_block inputs filters_in filters_out group_width 1 ser br
             name s in
  fst r = Raise (ValueError (filters_mismatch_msg_z filters_in filters_out 1))
  ∧ applied (snd r) = applied s
  ∧ is_ValueError
      (fst (apply_x_block inputs filters_in filters_out group_width 1 name s))
    = true
  ∧ is_ValueError
      (fst (apply_y_block inputs filters_in filters_out group_width 1 ser
              name s))
    = true.
Proof.
  intros Hne. cbn zeta.
  assert (Hg : filters_guard filters_in filters_out 1 = true)
    by by apply filters_guard_true.
  destruct (apply_z_block_rejects inputs filters_in filters_out group_width 1
              name s ser br Hg) as (sz & -> & Hz).
  destruct (apply_x_block_rejects inputs filters_in filters_out group_width 1
              name s Hg) as (sx & -> & _).
  destruct (apply_y_block_rejects inputs filters_in filters_out group_width 1
              name s ser Hg) as (sy & -> & _).
  done.
Qed.

Lemma z_block_filter_check_witness :
  fst (apply_z_block (TInput (Shape None None 32)) 32 64 0 1 f_0_25
         (S754_zero false) None fresh)
  = Raise (ValueError (filters_mismatch_msg_z 32 64 1)).
Proof.
  apply (z_block_filter_check (TInput (Shape None None 32)) 32 64 0 f_0_25
           (S754_zero false) None fresh).
  lia.
Defined.

(** ** The Z block's main path *)

Lemma forallb_seqZ (f : Z -> bool) m n k :
  forallb f (seqZ m n) = true -> m <= k < m + n -> f k = true.
Proof.
  intros H Hk. rewrite forallb_forall in H. apply H.
  apply list_elem_of_In, elem_of_seqZ. lia.
Qed.

(** For a ratio [1 / 2^k] the division is exact: the bottleneck is
    [2^k] times as wide as the block's output (four times at the default
    ratio 0.25). *)
Lemma inv_btlneck_exact k filters_out :
  0 <= k <= 8 -> 1 <= filters_out <= 4096 ->
  inv_btlneck filters_out (float_lit 1 (2 ^ k)) = OK (filters_out * 2 ^ k).
Proof.
  intros Hk Hfo.
  set (chk := fun k fo =>
         match inv_btlneck fo (float_lit 1 (2 ^ k)) with
         | OK w => w =? fo * 2 ^ k
         | Raise _ => false
         end).
  assert (H : forallb (fun k => forallb (chk k) (seqZ 1 4096)) (seqZ 0 9)
              = true) by (vm_compute; reflexivity).
  pose proof (forallb_seqZ _ _ _ k H ltac:(lia)) as H1. cbv beta in H1.
  pose proof (forallb_seqZ _ _ _ filters_out H1 ltac:(lia)) as H2.
  subst chk. cbv beta in H2.
  destruct (inv_btlneck filters_out (float_lit 1 (2 ^ k))) as [w|e];
    [|discriminate H2].
  apply Z.eqb_eq in H2. by rewrite H2.
Qed.

(** C7. Whenever the Z block is built (the filter check passes, the group
    width is non-zero and [int(filters_out / bottleneck_ratio)] is
    defined, with value [width]), its main path is the spec's chain: the
    first two convolutions and the squeeze-and-excite gate have [width]
    filters, the 3x3 convolution has [filters_out // group_width] groups,
    the last convolution projects to [filters_out] and is followed by its
    batch normalisation only.  The block returns the projected tensor
    alone at a stride other than 1, and the projected tensor plus the raw
    input at stride 1.  The width is the quotient of [filters_out] by the
    ratio: for the ratios [1 / 2^k] up to [k = 8], among them the default
    0.25, and output widths up to 4096 it is [filters_out * 2^k]
    exactly. *)
Theorem z_block_main_path inputs filters_in filters_out group_width stride ser
    br name s width :
  filters_in = filters_out ∨ stride ≠ 1 ->
  group_width ≠ 0 ->
  inv_btlneck filters_out br = OK width ->
  (∃ n s0,
     name_or_uid name "zblock" str s = (OK n, s0)
     ∧ let main := z_main_layers width filters_out group_width stride ser n in
       let projected := chain inputs main in
       apply_z_block inputs filters_in filters_out group_width stride ser br
         name s
       = (OK (if stride =? 1 then TAdd projected inputs else projected),
          extend s0 (main ++ if stride =? 1 then [TFOpAdd] else [])))
  ∧ (∀ k, 0 <= k <= 8 -> br = float_lit 1 (2 ^ k) ->
          1 <= filters_out <= 4096 ->
          width = filters_out * 2 ^ k).
Proof.
  intros Hg Hw Hb. split.
  - apply filters_guard_false in Hg.
    destruct (apply_z_block_accepts inputs filters_in filters_out group_width
                stride name s ser br width Hg Hw Hb) as (n & s0 & Hn & Hrun).
    by exists n, s0.
  - intros k Hk -> Hfo. rewrite (inv_btlneck_exact k filters_out Hk Hfo) in Hb.
    by injection Hb.
Qed.

Lemma z_block_main_path_witness :
  (∃ n s0,
     name_or_uid (Some "z") "zblock" str fresh = (OK n, s0)
     ∧ apply_z_block (TInput (Shape None None 64)) 64 64 8 1 f_0_25 f_0_25
         (Some "z") fresh
       = (OK (TAdd (chain (TInput (Shape None None 64))
                      (z_main_layers 256 64 8 1 f_0_25 n))
                (TInput (Shape None None 64))),
          extend s0 (z_main_layers 256 64 8 1 f_0_25 n ++ [TFOpAdd])))
  ∧ (∀ k, 0 <= k <= 8 -> f_0_25 = float_lit 1 (2 ^ k) ->
          1 <= 64 <= 4096 ->
          256 = 64 * 2 ^ k).
Proof.
  apply (z_block_main_path (TInput (Shape None None 64)) 64 64 8 1 f_0_25
           f_0_25 (Some "z") fresh 256).
  - left. reflexivity.
  - lia.
  - vm_compute. reflexivity.
Defined.

(** ** Block-type dispatch of the stage builder *)

Lemma never_NIE_bind {A B} (m : M A) (k : A -> M B) :
  never_NIE m -> (∀ a, never_NIE (k a)) -> never_NIE (bind m k).
Proof.
  intros Hm Hk s. unfold bind. specialize (Hm s).
  destruct (m s) as [[a|e] s']; [apply Hk | exact Hm].
Qed.

Lemma never_NIE_for_each {A X} (l : list A) (body : A -> X -> M X) x :
  (∀ i y, never_NIE (body i y)) -> never_NIE (for_each l body x).
Proof.
  intros Hb. revert x.
  induction l as [|i l IH]; intros x; [done|].
  cbn [for_each]. apply never_NIE_bind; auto.
Qed.

Lemma never_NIE_x_block inputs fi fo gw st name :
  never_NIE (apply_x_block inputs fi fo gw st name).
Proof.
  intros s. destruct (filters_guard fi fo st) eqn:Hg.
  - by destruct (apply_x_block_rejects inputs fi fo gw st name s Hg)
      as (? & -> & _).
  - destruct (decide (gw = 0)) as [H0|H0].
    + by destruct (apply_x_block_zero_width inputs fi fo gw st name s Hg H0)
        as (? & -> & _).
    + by destruct (apply_x_block_accepts inputs fi fo gw st name s Hg H0)
        as (? & ? & _ & ->).
Qed.

Lemma never_NIE_y_block inputs fi fo gw st ser name :
  never_NIE (apply_y_block inputs fi fo gw st ser name).
Proof.
  intros s. destruct (filters_guard fi fo st) eqn:Hg.
  - by destruct (apply_y_block_rejects inputs fi fo gw st name s ser Hg)
      as (? & -> & _).
  - destruct (decide (gw = 0)) as [H0|H0].
    + by destruct (apply_y_block_zero_width inputs fi fo gw st name s ser
                     Hg H0) as (? & -> & _).
    + by destruct (apply_y_block_accepts inputs fi fo gw st name s ser Hg H0)
        as (? & ? & _ & ->).
Qed.

Lemma inv_btlneck_not_NIE fo br : is_NotImplementedError (inv_btlneck fo br) = false.
Proof.
  unfold inv_btlneck, float_of_int, float_truediv, int_of_float.
  destruct (binary_normalize _ _ _ _ _); try done;
    destruct (float_is_zero br); try done;
    by destruct (SFdiv _ _ _ _).
Qed.

Lemma never_NIE_z_block inputs fi fo gw st ser br name :
  never_NIE (apply_z_block inputs fi fo gw st ser br name).
Proof.
  intros s. destruct (filters_guard fi fo st) eqn:Hg.
  - by destruct (apply_z_block_rejects inputs fi fo gw st name s ser br Hg)
      as (? & -> & _).
  - destruct (decide (gw = 0)) as [->|H0].
    + by destruct (apply_z_block_arith_error inputs fi fo 0 st name s ser br
                     ZeroDivisionError Hg eq_refl) as (? & -> & _).
    + destruct (inv_btlneck fo br) as [bw|e] eqn:Hb.
      * by destruct (apply_z_block_accepts inputs fi fo gw st name s ser br
                       bw Hg H0 Hb) as (? & ? & _ & ->).
      * destruct (apply_z_block_arith_error inputs fi fo gw st name s ser br
                    e Hg) as (? & -> & _).
        { by rewrite (floordiv_ok _ _ H0). }
        pose proof (inv_btlneck_not_NIE fo br) as H. by rewrite Hb in H.
Qed.

(** C4. A block-type tag other than "X", "Y" and "Z" makes the stage
    builder raise [NotImplementedError] at once: no layer has been applied
    when it does.  With one of the three tags the stage builder never ends
    in that error, whatever else happens while its blocks are built. *)
Theorem stage_block_type_dispatch x block_type depth group_width filters_in
    filters_out name s :
  let r := apply_stage x block_type depth group_width filters_in filters_out
             name s in
  (block_type ≠ "X" ∧ block_type ≠ "Y" ∧ block_type ≠ "Z" ->
     fst r = Raise (NotImplementedError (unknown_block_msg block_type))
     ∧ applied (snd r) = applied s)
  ∧ (block_type = "X" ∨ block_type = "Y" ∨ block_type = "Z" ->
     is_NotImplementedError (fst r) = false).
Proof.
  cbn zeta. unfold apply_stage.
  destruct (name_or_uid_run name "stage" str s) as (n & s0 & Hn & Ha & _).
  rewrite (bind_OK _ _ _ _ _ Hn).
  destruct (String.eqb_spec block_type "X") as [HX|HX];
    [|destruct (String.eqb_spec block_type "Y") as [HY|HY];
      [|destruct (String.eqb_spec block_type "Z") as [HZ|HZ]]].
  - split; [intros (? & _); done|]. intros _.
    apply never_NIE_bind.
    + apply never_NIE_x_block.
    + intros a. apply never_NIE_for_each. intros. apply never_NIE_x_block.
  - split; [intros (_ & ? & _); done|]. intros _.
    apply never_NIE_bind.
    + apply never_NIE_y_block.
    + intros a. apply never_NIE_for_each. intros. apply never_NIE_y_block.
  - split; [intros (_ & _ & ?); done|]. intros _.
    apply never_NIE_bind.
    + apply never_NIE_z_block.
    + intros a. apply never_NIE_for_each. intros. apply never_NIE_z_block.
  - split; [done|]. intros [?|[?|?]]; done.
Qed.

Lemma stage_block_type_dispatch_witness :
  fst (apply_stage (TInput (Shape None None 32)) "W" 3 8 32 64 None fresh)
  = Raise (NotImplementedError (unknown_block_msg "W"))
  ∧ is_NotImplementedError
      (fst (apply_stage (TInput (Shape None None 32)) "Z" 3 8 32 64 None
              fresh)) = false.
Proof.
  split.
  - apply (stage_block_type_dispatch (TInput (Shape None None 32)) "W" 3 8 32
             64 None fresh).
    by split_and!.
  - apply (stage_block_type_dispatch (TInput (Shape None None 32)) "Z" 3 8 32
             64 None fresh).
    by right; right.
Defined.

(** ** Constructions are uniform in their input and in the state *)

Lemma chain_plug c x ls : chain (plug c x) ls = plug (cchain c ls) x.
Proof.
  revert c. induction ls as [|l ls IH]; intros c; [done|].
  cbn. apply (IH (CCall l c)).
Qed.

Lemma plug_call l c x : TCall l (plug c x) = plug (CCall l c) x.
Proof. reflexivity. Qed.

Lemma plug_add a b x : TAdd (plug a x) (plug b x) = plug (CAdd a b) x.
Proof. reflexivity. Qed.

Ltac fold_plug :=
  repeat first [ rewrite chain_plug | rewrite plug_add | rewrite plug_call ].

Lemma uniform_ret {C A} (fill : C -> tensor -> A) c :
  uniform fill (fun x => ret (fill c x)).
Proof. exists (OK c), []. intros x s. by rewrite extend_nil. Qed.

Lemma uniform_raise {C A} (fill : C -> tensor -> A) e :
  uniform fill (fun _ => raise e).
Proof. exists (Raise e), []. intros x s. by rewrite extend_nil. Qed.

Lemma uniform_bind {C A D B} (fillA : C -> tensor -> A)
    (fillB : D -> tensor -> B) (m : tensor -> M A) (k : tensor -> A -> M B) :
  uniform fillA m ->
  (∀ c, uniform fillB (fun x => k x (fillA c x))) ->
  uniform fillB (fun x => bind (m x) (k x)).
Proof.
  intros (r & new & Hm) Hk. destruct r as [c|e].
  - destruct (Hk c) as (r' & new' & Hk'). exists r', (new ++ new').
    intros x s. unfold bind. rewrite Hm. cbn. by rewrite Hk', extend_extend.
  - exists (Raise e), new. intros x s. unfold bind. by rewrite Hm.
Qed.

Lemma uniform_for_each {C X I} (fill : C -> tensor -> X) (l : list I)
    (body : I -> X -> M X) :
  (∀ i c, uniform fill (fun x => body i (fill c x))) ->
  ∀ c, uniform fill (fun x => for_each l body (fill c x)).
Proof.
  intros Hb. induction l as [|i l IH]; intros c; cbn [for_each].
  - apply uniform_ret.
  - apply (uniform_bind fill fill (fun x => body i (fill c x))
             (fun _ y => for_each l body y)); auto.
Qed.

Lemma uniform_x_block c fi fo gw st n :
  uniform plug (fun x => apply_x_block (plug c x) fi fo gw st (Some n)).
Proof.
  destruct (filters_guard fi fo st) eqn:Hg; [|destruct (decide (gw = 0)) as [H0|H0]].
  - exists (Raise (ValueError (filters_mismatch_msg fi fo st))), [].
    intros x s. unfold apply_x_block. cbn [name_or_uid].
    by rewrite bind_ret, Hg, extend_nil.
  - exists (Raise ZeroDivisionError), [].
    intros x s. unfold apply_x_block. cbn [name_or_uid].
    by rewrite bind_ret, Hg, H0, extend_nil.
  - eexists (OK _), _. intros x s.
    destruct (apply_x_block_accepts (plug c x) fi fo gw st (Some n) s Hg H0)
      as (n' & s0 & [= <- <-] & ->).
    unfold residual_out. fold_plug. reflexivity.
Qed.

Lemma uniform_y_block c fi fo gw st ser n :
  uniform plug (fun x => apply_y_block (plug c x) fi fo gw st ser (Some n)).
Proof.
  destruct (filters_guard fi fo st) eqn:Hg; [|destruct (decide (gw = 0)) as [H0|H0]].
  - exists (Raise (ValueError (filters_mismatch_msg fi fo st))), [].
    intros x s. unfold apply_y_block. cbn [name_or_uid].
    by rewrite bind_ret, Hg, extend_nil.
  - exists (Raise ZeroDivisionError), [].
    intros x s. unfold apply_y_block. cbn [name_or_uid].
    by rewrite bind_ret, Hg, H0, extend_nil.
  - eexists (OK _), _. intros x s.
    destruct (apply_y_block_accepts (plug c x) fi fo gw st (Some n) s ser Hg H0)
      as (n' & s0 & [= <- <-] & ->).
    unfold residual_out. fold_plug. reflexivity.
Qed.

Lemma uniform_z_block c fi fo gw st ser br n :
  uniform plug (fun x => apply_z_block (plug c x) fi fo gw st ser br (Some n)).
Proof.
  destruct (filters_guard fi fo st) eqn:Hg;
    [|destruct (decide (gw = 0)) as [H0|H0];
      [|destruct (inv_btlneck fo br) as [bw|e] eqn:Hb]].
  - exists (Raise (ValueError (filters_mismatch_msg_z fi fo st))), [].
    intros x s. unfold apply_z_block. cbn [name_or_uid].
    by rewrite bind_ret, Hg, extend_nil.
  - exists (Raise ZeroDivisionError), [].
    intros x s. unfold apply_z_block. cbn [name_or_uid].
    by rewrite bind_ret, Hg, H0, extend_nil.
  - destruct (st =? 1) eqn:Hst; eexists (OK _), _; intros x s;
      destruct (apply_z_block_accepts (plug c x) fi fo gw st (Some n) s ser br
                  bw Hg H0 Hb) as (n' & s0 & [= <- <-] & ->);
      unfold z_block_out; rewrite Hst; fold_plug; reflexivity.
  - exists (Raise e), [].
    intros x s. unfold apply_z_block. cbn [name_or_uid].
    by rewrite bind_ret, Hg, (floordiv_ok _ _ H0), bind_lift_OK, Hb,
      bind_lift_Raise, extend_nil.
Qed.

Lemma uniform_ext {C A} (fill : C -> tensor -> A) (m m' : tensor -> M A) :
  (∀ x s, m x s = m' x s) -> uniform fill m' -> uniform fill m.
Proof.
  intros Heq (r & new & H). exists r, new. intros x s. by rewrite Heq.
Qed.

Lemma uniform_stage c block_type depth gw fi fo n :
  uniform plug
    (fun x => apply_stage (plug c x) block_type depth gw fi fo (Some n)).
Proof.
  unfold apply_stage.
  destruct (String.eqb block_type "X") eqn:HX;
    [|destruct (String.eqb block_type "Y") eqn:HY;
      [|destruct (String.eqb block_type "Z") eqn:HZ]].
  - eapply uniform_ext.
    { intros x s. cbn [name_or_uid]. rewrite bind_ret. reflexivity. }
    apply (uniform_bind plug plug
             (fun x => apply_x_block (plug c x) fi fo gw 2
                         (Some (n +:+ "_XBlock_0")))
             (fun _ y => for_each (range_from_1 depth) _ y)).
    + apply uniform_x_block.
    + apply uniform_for_each. intros i c'. apply uniform_x_block.
  - eapply uniform_ext.
    { intros x s. cbn [name_or_uid]. rewrite bind_ret. reflexivity. }
    apply (uniform_bind plug plug
             (fun x => apply_y_block (plug c x) fi fo gw 2 f_0_25
                         (Some (n +:+ "_YBlock_0")))
             (fun _ y => for_each (range_from_1 depth) _ y)).
    + apply uniform_y_block.
    + apply uniform_for_each. intros i c'. apply uniform_y_block.
  - eapply uniform_ext.
    { intros x s. cbn [name_or_uid]. rewrite bind_ret. reflexivity. }
    apply (uniform_bind plug plug
             (fun x => apply_z_block (plug c x) fi fo gw 2 f_0_25 f_0_25
                         (Some (n +:+ "_ZBlock_0")))
             (fun _ y => for_each (range_from_1 depth) _ y)).
    + apply uniform_z_block.
    + apply uniform_for_each. intros i c'. apply uniform_z_block.
  - eapply uniform_ext.
    { intros x s. cbn [name_or_uid]. rewrite bind_ret. reflexivity. }
    apply (uniform_raise plug).
Qed.

Lemma uniform_stage_step depths widths gw block_type mn i cz :
  uniform fill_carry
    (fun x => stage_step depths widths gw block_type mn i (fill_carry cz x)).
Proof.
  unfold stage_step. destruct cz as [c z]. cbn [fill_carry fst snd].
  destruct (getitem depths i) as [depth|e].
  2:{ eapply uniform_ext; [intros x s; by rewrite bind_lift_Raise|].
      apply (uniform_raise fill_carry). }
  destruct (getitem widths i) as [out_channels|e].
  2:{ eapply uniform_ext;
        [intros x s; by rewrite bind_lift_OK, bind_lift_Raise|].
      apply (uniform_raise fill_carry). }
  eapply uniform_ext.
  { intros x s. rewrite !bind_lift_OK. reflexivity. }
  apply (uniform_bind plug fill_carry
           (fun x => apply_stage (plug c x) block_type depth gw z out_channels
                       (Some (mn +:+ "_Stage_" +:+ str (Z.of_nat i))))
           (fun _ y => ret (y, out_channels))).
  - apply uniform_stage.
  - intros c'. apply (uniform_ret fill_carry (c', out_channels)).
Qed.

Lemma uniform_stages depths widths gw block_type mn cz :
  uniform fill_carry
    (fun x => for_each (seq 0 NUM_STAGES)
                (stage_step depths widths gw block_type mn) (fill_carry cz x)).
Proof. apply uniform_for_each. intros. apply uniform_stage_step. Qed.

(** ** The assembler, run *)

Lemma parse_model_inputs_run input_shape input_tensor s :
  parse_model_inputs input_shape input_tensor s
  = (OK (graph_input input_shape input_tensor),
     extend s (input_layers input_shape input_tensor)).
Proof. destruct input_tensor; cbn; [by rewrite extend_nil | done]. Qed.

Lemma apply_stem_run x n s :
  apply_stem x (Some n) s
  = (OK (chain x (stem_layers n)), extend s (stem_layers n)).
Proof. unfold apply_stem. cbn [name_or_uid]. by mrun. Qed.

Lemma stem_channels x n : channels (shape_of (chain x (stem_layers n))) = 32.
Proof. reflexivity. Qed.

(** The whole construction, for both settings of the rescaling flag and
    every state: one topology [r] around the (possibly rescaled) input and
    one sequence [new] of layers from the stem onwards. *)
Lemma init_run depths widths gw block_type mn input_tensor input_shape :
  ∃ (r : result ctx) (new : list layer),
    ∀ include_rescaling s,
      let img := graph_input input_shape input_tensor in
      RegNetBackBone_init depths widths gw block_type include_rescaling mn
        input_tensor input_shape s
      = (map_result
           (fun c =>
              Build_RegNetBackBone img
                (plug c (if include_rescaling
                         then TCall (Rescaling rescaling_scale) img else img))
                mn depths widths gw block_type include_rescaling mn
                input_tensor) r,
         extend s (input_layers input_shape input_tensor
                   ++ (if include_rescaling
                       then [Rescaling rescaling_scale] else [])
                   ++ new)).
Proof.
  destruct (uniform_stages depths widths gw block_type mn
              (cchain Hole (stem_layers mn), 32)) as (r & new & Hloop).
  exists (map_result fst r), (stem_layers mn ++ new).
  intros ir s img. unfold RegNetBackBone_init.
  rewrite (bind_OK _ _ _ _ _ (parse_model_inputs_run _ _ _)). fold img.
  set (x0 := if ir then TCall (Rescaling rescaling_scale) img else img).
  assert (Hresc : ∀ B (k : tensor -> M B) s1,
             bind (if ir then call (Rescaling rescaling_scale) img else ret img)
               k s1
             = k x0 (extend s1 (if ir then [Rescaling rescaling_scale] else []))).
  { intros B k s1. subst x0. destruct ir; [done|].
    by rewrite bind_ret, extend_nil. }
  rewrite Hresc, (bind_OK _ _ _ _ _ (apply_stem_run _ _ _)).
  cbn zeta. rewrite stem_channels.
  specialize (Hloop x0). unfold fill_carry at 1 in Hloop.
  cbn [fst snd] in Hloop. rewrite <- chain_plug in Hloop. cbn [plug] in Hloop.
  unfold bind at 1. rewrite Hloop, !extend_extend.
  destruct r as [[c z]|e]; reflexivity.
Qed.

(** ** Shapes and strides of successful constructions *)

Lemma downsample_1 n : downsample 1 n = n.
Proof. unfold downsample. rewrite Z.div_1_r. lia. Qed.

Lemma block_shape_1 fo sh : channels sh = fo -> block_shape 1 fo sh = sh.
Proof.
  destruct sh as [[h|] [w|] c]; cbn; intros ->; unfold block_shape; cbn;
    by rewrite ?downsample_1.
Qed.

Lemma conv_output_length_1x1 n : conv_output_length n 1 1 "valid" = n.
Proof. unfold conv_output_length. cbn. rewrite Z.div_1_r. lia. Qed.

Lemma conv_output_length_same n k st :
  conv_output_length n k st "same" = downsample st n.
Proof. reflexivity. Qed.

Lemma shape_of_chain x ls :
  shape_of (chain x ls) = foldl (fun sh l => layer_shape l sh) (shape_of x) ls.
Proof.
  unfold chain. revert x. induction ls as [|l ls IH]; intros x; [done|].
  cbn [foldl]. by rewrite IH.
Qed.

Lemma x_main_shape x fo gw st n :
  shape_of (chain x (x_main_layers fo gw st n)) = block_shape st fo (shape_of x).
Proof.
  rewrite shape_of_chain. destruct (shape_of x) as [[h|] [w|] c];
    cbn -[conv_output_length]; unfold block_shape;
    cbn -[conv_output_length downsample];
    by rewrite ?conv_output_length_1x1, ?conv_output_length_same,
      ?conv_output_length_1x1.
Qed.

Lemma y_main_shape x fo gw st ser n :
  shape_of (chain x (y_main_layers fo gw st ser n))
  = block_shape st fo (shape_of x).
Proof.
  rewrite shape_of_chain. destruct (shape_of x) as [[h|] [w|] c];
    cbn -[conv_output_length]; unfold block_shape;
    cbn -[conv_output_length downsample];
    by rewrite ?conv_output_length_1x1, ?conv_output_length_same,
      ?conv_output_length_1x1.
Qed.

Lemma conv3x3_strides_app l1 l2 :
  conv3x3_strides (l1 ++ l2) = conv3x3_strides l1 ++ conv3x3_strides l2.
Proof. apply omap_app. Qed.

Lemma x_skip_strides fo st n : conv3x3_strides (x_skip_layers fo st n) = [].
Proof. unfold x_skip_layers. by destruct (st =? 1). Qed.

Lemma x_block_strides fo gw st n :
  conv3x3_strides
    (residual_layers (x_main_layers fo gw st n) (x_skip_layers fo st n) n)
  = [st].
Proof.
  unfold residual_layers. by rewrite conv3x3_strides_app, x_skip_strides.
Qed.

Lemma y_block_strides fo gw st ser n :
  conv3x3_strides
    (residual_layers (y_main_layers fo gw st ser n) (x_skip_layers fo st n) n)
  = [st].
Proof.
  unfold residual_layers. by rewrite conv3x3_strides_app, x_skip_strides.
Qed.

(** A loop whose every iteration succeeds, keeps an invariant and applies
    one block of stride [st]. *)
Lemma for_each_blocks {I} (l : list I) (body : I -> tensor -> M tensor)
    (Inv : tensor -> Prop) (st : Z) :
  (∀ i y s, Inv y ->
     ∃ y' new, body i y s = (OK y', extend s new) ∧ Inv y'
               ∧ conv3x3_strides new = [st]) ->
  ∀ x s, Inv x ->
    ∃ x' new, for_each l body x s = (OK x', extend s new) ∧ Inv x'
              ∧ conv3x3_strides new = replicate (length l) st.
Proof.
  intros Hb. induction l as [|i l IH]; intros x s Hx.
  - exists x, []. by rewrite extend_nil.
  - destruct (Hb i x s Hx) as (y & new1 & Hrun & Hy & Hs1).
    destruct (IH y (extend s new1) Hy) as (x' & new2 & Hrun2 & Hx' & Hs2).
    exists x', (new1 ++ new2). cbn [for_each].
    rewrite (bind_OK _ _ _ _ _ Hrun), Hrun2, extend_extend.
    split_and!; [done..|]. by rewrite conv3x3_strides_app, Hs1, Hs2.
Qed.

Lemma length_range_from_1 depth :
  length (range_from_1 depth) = Z.to_nat (depth - 1).
Proof. apply length_seqZ. Qed.

(** A stage of X or Y blocks, named by the caller, with a non-zero group
    width: it is built, halves the feature map once and sets the channel
    count to [filters_out]. *)
Lemma apply_stage_xy_run x block_type depth gw fi fo n s :
  block_type = "X" ∨ block_type = "Y" ->
  gw ≠ 0 ->
  ∃ t new,
    apply_stage x block_type depth gw fi fo (Some n) s = (OK t, extend s new)
    ∧ shape_of t = block_shape 2 fo (shape_of x)
    ∧ conv3x3_strides new = stage_strides depth.
Proof.
  intros Hbt Hgw. unfold apply_stage. cbn [name_or_uid]. rewrite bind_ret.
  assert (Hg2 : filters_guard fi fo 2 = false) by (apply filters_guard_false; lia).
  assert (Hg1 : filters_guard fo fo 1 = false) by (apply filters_guard_false; lia).
  set (Inv := fun y => shape_of y = block_shape 2 fo (shape_of x)).
  destruct Hbt as [-> | ->]; cbn [String.eqb Ascii.eqb Bool.eqb].
  - destruct (apply_x_block_accepts x fi fo gw 2 (Some (n +:+ "_XBlock_0")) s
                Hg2 Hgw) as (n0 & s0 & [= <- <-] & Hrun).
    rewrite (bind_OK _ _ _ _ _ Hrun).
    match goal with |- context [for_each _ ?body ?x0 ?s0] =>
      destruct (for_each_blocks (range_from_1 depth) body Inv 1) with
        (x := x0) (s := s0) as (t & new & Hloop & Ht & Hs)
    end.
    + intros i y s1 Hy.
      destruct (apply_x_block_accepts y fo fo gw 1
                  (Some (n +:+ "_XBlock_" +:+ str i)) s1 Hg1 Hgw)
        as (n1 & s2 & [= <- <-] & Hrun1).
      eexists _, _. split; [exact Hrun1|]. split; [|apply x_block_strides].
      unfold Inv. cbn [residual_out shape_of layer_shape].
      rewrite x_main_shape, Hy. by apply block_shape_1.
    + unfold Inv. cbn [residual_out shape_of layer_shape]. apply x_main_shape.
    + rewrite Hloop, extend_extend. eexists _, _. split; [done|].
      split; [done|].
      by rewrite conv3x3_strides_app, x_block_strides, Hs, length_range_from_1.
  - destruct (apply_y_block_accepts x fi fo gw 2 (Some (n +:+ "_YBlock_0")) s
                f_0_25 Hg2 Hgw) as (n0 & s0 & [= <- <-] & Hrun).
    rewrite (bind_OK _ _ _ _ _ Hrun).
    match goal with |- context [for_each _ ?body ?x0 ?s0] =>
      destruct (for_each_blocks (range_from_1 depth) body Inv 1) with
        (x := x0) (s := s0) as (t & new & Hloop & Ht & Hs)
    end.
    + intros i y s1 Hy.
      destruct (apply_y_block_accepts y fo fo gw 1
                  (Some (n +:+ "_YBlock_" +:+ str i)) s1 f_0_25 Hg1 Hgw)
        as (n1 & s2 & [= <- <-] & Hrun1).
      eexists _, _. split; [exact Hrun1|]. split; [|apply y_block_strides].
      unfold Inv. cbn [residual_out shape_of layer_shape].
      rewrite y_main_shape, Hy. by apply block_shape_1.
    + unfold Inv. cbn [residual_out shape_of layer_shape]. apply y_main_shape.
    + rewrite Hloop, extend_extend. eexists _, _. split; [done|].
      split; [done|].
      by rewrite conv3x3_strides_app, y_block_strides, Hs, length_range_from_1.
Qed.

Lemma stage_step_xy_run depths widths gw block_type mn i x cin d w s :
  getitem depths i = OK d ->
  getitem widths i = OK w ->
  block_type = "X" ∨ block_type = "Y" ->
  gw ≠ 0 ->
  ∃ t new,
    stage_step depths widths gw block_type mn i (x, cin) s
    = (OK (t, w), extend s new)
    ∧ shape_of t = block_shape 2 w (shape_of x)
    ∧ conv3x3_strides new = stage_strides d.
Proof.
  intros Hd Hw Hbt Hgw. unfold stage_step. cbn [fst snd].
  rewrite Hd, bind_lift_OK, Hw, bind_lift_OK.
  destruct (apply_stage_xy_run x block_type d gw cin w
              (mn +:+ "_Stage_" +:+ str (Z.of_nat i)) s Hbt Hgw)
    as (t & new & Hrun & Hsh & Hst).
  exists t, new. by rewrite (bind_OK _ _ _ _ _ Hrun).
Qed.

(** The shape at the end of the stem and four stages. *)
Lemma init_xy_run d0 d1 d2 d3 w0 w1 w2 w3 gw block_type ir mn input_tensor
    input_shape s :
  block_type = "X" ∨ block_type = "Y" ->
  gw ≠ 0 ->
  ∃ m new,
    RegNetBackBone_init [d0; d1; d2; d3] [w0; w1; w2; w3] gw block_type ir mn
      input_tensor input_shape s
    = (OK m, extend s new)
    ∧ shape_of (outputs m)
      = block_shape 2 w3
          (block_shape 2 w2
             (block_shape 2 w1
                (block_shape 2 w0
                   (block_shape 2 32
                      (shape_of (graph_input input_shape input_tensor))))))
    ∧ conv3x3_strides new
      = 2 :: stage_strides d0 ++ stage_strides d1 ++ stage_strides d2
          ++ stage_strides d3.
Proof.
  intros Hbt Hgw. unfold RegNetBackBone_init.
  rewrite (bind_OK _ _ _ _ _ (parse_model_inputs_run _ _ _)).
  set (img := graph_input input_shape input_tensor).
  set (x0 := if ir then TCall (Rescaling rescaling_scale) img else img).
  set (resc := if ir then [Rescaling rescaling_scale] else []).
  assert (Hx0 : shape_of x0 = shape_of img) by (subst x0; by destruct ir).
  assert (Hresc : ∀ B (k : tensor -> M B) s1,
             bind (if ir then call (Rescaling rescaling_scale) img else ret img)
               k s1 = k x0 (extend s1 resc)).
  { intros B k s1. subst x0 resc. destruct ir; [done|].
    by rewrite bind_ret, extend_nil. }
  rewrite Hresc, (bind_OK _ _ _ _ _ (apply_stem_run _ _ _)).
  cbn zeta. rewrite stem_channels.
  cbn [for_each seq NUM_STAGES].
  set (y0 := chain x0 (stem_layers mn)).
  assert (Hy0 : shape_of y0 = block_shape 2 32 (shape_of img)).
  { subst y0. rewrite <- Hx0, shape_of_chain.
    by destruct (shape_of x0) as [[?|] [?|] ?]. }
  rewrite !bind_assoc.
  match goal with |- context [bind (stage_step ?d ?w _ _ _ ?i (?x, ?c)) _ ?s1] =>
    destruct (stage_step_xy_run d w gw block_type mn i x c _ _ s1
                eq_refl eq_refl Hbt Hgw) as (t1 & n1 & Hr1 & Hs1 & Hc1)
  end.
  rewrite (bind_OK _ _ _ _ _ Hr1). cbn beta. rewrite ?bind_assoc.
  match goal with |- context [bind (stage_step ?d ?w _ _ _ ?i (?x, ?c)) _ ?s1] =>
    destruct (stage_step_xy_run d w gw block_type mn i x c _ _ s1
                eq_refl eq_refl Hbt Hgw) as (t2 & n2 & Hr2 & Hs2 & Hc2)
  end.
  rewrite (bind_OK _ _ _ _ _ Hr2). cbn beta. rewrite ?bind_assoc.
  match goal with |- context [bind (stage_step ?d ?w _ _ _ ?i (?x, ?c)) _ ?s1] =>
    destruct (stage_step_xy_run d w gw block_type mn i x c _ _ s1
                eq_refl eq_refl Hbt Hgw) as (t3 & n3 & Hr3 & Hs3 & Hc3)
  end.
  rewrite (bind_OK _ _ _ _ _ Hr3). cbn beta. rewrite ?bind_assoc.
  match goal with |- context [bind (stage_step ?d ?w _ _ _ ?i (?x, ?c)) _ ?s1] =>
    destruct (stage_step_xy_run d w gw block_type mn i x c _ _ s1
                eq_refl eq_refl Hbt Hgw) as (t4 & n4 & Hr4 & Hs4 & Hc4)
  end.
  rewrite (bind_OK _ _ _ _ _ Hr4). cbn beta.
  rewrite !bind_ret, ret_run, !extend_extend.
  eexists _, _. split; [reflexivity|]. cbn [outputs fst]. split.
  - by rewrite Hs4, Hs3, Hs2, Hs1, Hy0.
  - rewrite !conv3x3_strides_app, Hc1, Hc2, Hc3, Hc4.
    subst resc. unfold input_layers. by destruct input_tensor, ir.
Qed.

(** ** The rescaling flag *)

(** C6. With every other construction parameter fixed, the graphs built
    with the rescaling flag off and on have one and the same topology [c]
    around the graph input: with the flag on, the input reaches it through
    one [Rescaling] layer of scale [1.0 / 255.0], with the flag off
    directly.  The sequences of applied layers differ by that one layer,
    placed right after the input.  Should the construction fail, it fails
    with the same exception under both settings.  The scale of the added
    layer is the binary64 number nearest to 1/255: a positive [m * 2^e]
    with a 53-bit [m] that is within half a unit of [2^(-e) / 255]. *)
Theorem rescaling_flag_adds_one_unit depths widths gw block_type mn
    input_tensor input_shape s :
  let img := graph_input input_shape input_tensor in
  let base := input_layers input_shape input_tensor in
  let model := fun flag x c =>
    Build_RegNetBackBone img (plug c x) mn depths widths gw block_type flag mn
      input_tensor in
  ∃ (r : result ctx) (new : list layer) (scale : spec_float),
    RegNetBackBone_init depths widths gw block_type false mn input_tensor
      input_shape s
    = (map_result (model false img) r, extend s (base ++ new))
    ∧ RegNetBackBone_init depths widths gw block_type true mn input_tensor
        input_shape s
      = (map_result (model true (TCall (Rescaling scale) img)) r,
         extend s (base ++ Rescaling scale :: new))
    ∧ ∃ m e,
        scale = S754_finite false m e
        ∧ 2 ^ 52 <= Z.pos m < 2 ^ 53
        ∧ 2 * Z.abs (255 * Z.pos m - 2 ^ (- e)) <= 255.
Proof.
  cbn zeta.
  destruct (init_run depths widths gw block_type mn input_tensor input_shape)
    as (r & new & Hrun).
  exists r, new, rescaling_scale. split_and!.
  - by rewrite (Hrun false s).
  - by rewrite (Hrun true s).
  - eexists _, _. split; [reflexivity|]. by vm_compute.
Qed.

(** On a sample configuration the construction succeeds; it applies 142
    layers without rescaling and 143 with it. *)
Example rescaling_flag_sample :
  let run := fun flag =>
    RegNetBackBone_init [1; 1; 4; 7] [24; 56; 152; 368] 8 "X" flag "regnet"
      None (Shape (Some 224) (Some 224) 3) fresh in
  is_OK (fst (run false)) = true
  ∧ is_OK (fst (run true)) = true
  ∧ length (applied (snd (run false))) = 142%nat
  ∧ length (applied (snd (run true))) = 143%nat.
Proof. vm_compute. done. Qed.

(** ** Serialised configuration *)

(** C2, the code at work: whatever the base class contributes and
    whatever backbone it is called on, [get_config] evaluates to [None];
    the dictionary holding the eight entries is built and dropped. *)
Theorem get_config_returns_None super_get_config self :
  get_config super_get_config self = None
  ∧ (dict_update (super_get_config self) (own_config self)) !! "depths"
    = Some (CInts (depths self)).
Proof.
  split; [reflexivity|].
  unfold dict_update. apply lookup_union_Some_l.
  unfold own_config. cbn [list_to_map foldr]. by simplify_map_eq.
Qed.

(** ** Backbones built from the preset tables *)

Lemma four_entries (l : list Z) :
  length l = 4%nat -> ∃ a b c d, l = [a; b; c; d].
Proof.
  destruct l as [|a [|b [|c [|d [|e l]]]]]; try done. intros _. by eexists _, _, _, _.
Qed.

Section Presets.

(** The preset table of the X models ([regnetx_backbone_presets.py]) is
    not among the sources.  It is taken as given; its entries have the
    format of the data model. *)
Variable backbone_presets_x : gmap string preset.

Hypothesis presets_x_wf :
  ∀ n p, backbone_presets_x !! n = Some p -> wf_preset "X" p.

(** C9. The backbone of the "regnetx002" entry, built on an input of
    shape (224, 224, 3), has an output of height and width 224 / 32.  The
    strides of its blocks, read off the 3x3 convolutions in order of
    application, are 2 for the stem, then for each of the four stages 2
    for the first block and 1 for every further block. *)
Theorem regnetx002_downsamples_by_32 p include_rescaling mn s :
  backbone_presets_x !! "regnetx002" = Some p ->
  ∃ m new,
    RegNetBackBone_init (p_depths p) (p_widths p) (p_group_width p)
      (p_block_type p) include_rescaling mn None
      (Shape (Some 224) (Some 224) 3) s
    = (OK m, extend s new)
    ∧ height (shape_of (outputs m)) = Some (224 / 32)
    ∧ width (shape_of (outputs m)) = Some (224 / 32)
    ∧ length (p_depths p) = 4%nat
    ∧ conv3x3_strides new = 2 :: concat (stage_strides <$> p_depths p).
Proof.
  intros Hin.
  destruct (presets_x_wf _ _ Hin) as (Hd & Hw & Hgw & Hty).
  destruct (four_entries _ Hd) as (d0 & d1 & d2 & d3 & Ed).
  destruct (four_entries _ Hw) as (w0 & w1 & w2 & w3 & Ew).
  rewrite Hty, Ed, Ew.
  destruct (init_xy_run d0 d1 d2 d3 w0 w1 w2 w3 (p_group_width p) "X"
              include_rescaling mn None (Shape (Some 224) (Some 224) 3) s)
    as (m & new & Hrun & Hsh & Hst); [by left | lia |].
  exists m, new. split; [done|]. rewrite Hsh, Hst.
  split_and!; try done.
  cbn [fmap list_fmap concat]. by rewrite app_nil_r.
Qed.

End Presets.

(** A one-entry table with hyperparameters of the kind the preset table
    holds, to exercise the theorem above. *)
Lemma sample_presets_x_wf n p :
  ({["regnetx002" := Preset [1; 1; 4; 7] [24; 56; 152; 368] 8 "X"]}
     : gmap string preset) !! n = Some p ->
  wf_preset "X" p.
Proof.
  intros [_ <-]%lookup_singleton_Some. unfold wf_preset. cbn.
  split_and!; (reflexivity || lia).
Defined.

Lemma regnetx002_downsamples_by_32_witness :
  ∃ m new,
    RegNetBackBone_init [1; 1; 4; 7] [24; 56; 152; 368] 8 "X" true "regnet"
      None (Shape (Some 224) (Some 224) 3) fresh
    = (OK m, extend fresh new)
    ∧ height (shape_of (outputs m)) = Some (224 / 32)
    ∧ width (shape_of (outputs m)) = Some (224 / 32)
    ∧ length [1; 1; 4; 7] = 4%nat
    ∧ conv3x3_strides new
      = 2 :: concat (stage_strides <$> [1; 1; 4; 7]).
Proof.
  apply (regnetx002_downsamples_by_32 _ sample_presets_x_wf
           (Preset [1; 1; 4; 7] [24; 56; 152; 368] 8 "X") true "regnet" fresh).
  reflexivity.
Defined.

(** ** The preset accessors *)

Lemma forallb2_impl {A B} (f g : A -> B -> bool) l k :
  (∀ a b, f a b = true -> g a b = true) ->
  forallb2 f l k = true -> forallb2 g l k = true.
Proof.
  intros Hfg. revert k. induction l as [|a l IH]; intros [|b k]; cbn; try done.
  rewrite !andb_true_iff. intros [? ?]. auto.
Qed.

Lemma same_app_l n h1 e v1 h2 v2 :
  same n h1 v1 h2 v2 = true -> same n (h1 ++ e) v1 h2 v2 = true.
Proof.
  revert v1 v2. induction n as [|n IH]; intros [] []; cbn [same]; try done.
  destruct (h1 !! a) as [o1|] eqn:H1; [|done].
  rewrite (lookup_app_l_Some _ _ _ _ H1).
  destruct (h2 !! a0) as [o2|]; [|done].
  rewrite !andb_true_iff. intros [? ?]. split; [done|].
  eapply forallb2_impl; [|done]. auto.
Qed.

Lemma same_atom n h1 h2 v :
  (∀ a, v ≠ PRef a) -> same n h1 v h2 v = true.
Proof.
  intros Hv. destruct n, v; cbn; try by apply bool_decide_eq_true.
  all: by destruct (Hv a).
Qed.

Lemma val_from_le n m v : (n <= m)%nat -> val_from m v -> val_from n v.
Proof. destruct v; cbn; try done. lia. Qed.

Section DeepCopy.

Context (h0 : heap) (Hord : ordered h0).

Lemma stored_length h : stored h0 h -> (length h0 <= length h)%nat.
Proof.
  intros Hst. destruct (length h0) as [|n] eqn:Hn; [lia|].
  assert (is_Some (h !! n)) as Hs.
  { rewrite (Hst n) by lia. apply lookup_lt_is_Some. lia. }
  apply lookup_lt_is_Some in Hs. lia.
Qed.

Lemma stored_app h e : stored h0 h -> stored h0 (h ++ e).
Proof.
  intros Hst a Ha. rewrite lookup_app_l; [by apply Hst|].
  pose proof (stored_length h Hst). lia.
Qed.

Lemma copy_values_ok cp vs :
  (∀ v h, v ∈ vs -> stored h0 h -> copied h0 h v (cp v h)) ->
  ∀ h, stored h0 h ->
    ∃ vs' ext,
      copy_values cp vs h = Some (vs', h ++ ext)
      ∧ Forall (val_from (length h)) vs'
      ∧ Forall (fun o => Forall (val_from (length h)) (ovalues o)) ext
      ∧ ∀ n, forallb2 (fun x1 x2 => same n (h ++ ext) x1 h0 x2) vs' vs = true.
Proof.
  induction vs as [|v vs IH]; intros Hcp h Hst.
  - exists [], []. rewrite app_nil_r. by split_and!.
  - destruct (Hcp v h) as (v1 & e1 & Hv1 & Hf1 & He1 & Hs1);
      [by left | done |].
    destruct (IH (fun x k Hx => Hcp x k (list_elem_of_further _ _ _ Hx))
                (h ++ e1) (stored_app _ _ Hst))
      as (vs2 & e2 & Hvs2 & Hf2 & He2 & Hs2).
    assert (Hlen : (length h <= length (h ++ e1))%nat)
      by (rewrite length_app; lia).
    exists (v1 :: vs2), (e1 ++ e2). cbn [copy_values].
    rewrite Hv1, Hvs2, app_assoc. split_and!; [done|..].
    + constructor; [done|].
      eapply Forall_impl; [done|]. intros x. by apply val_from_le.
    + apply Forall_app. split; [done|].
      eapply Forall_impl; [done|]. intros o Ho.
      eapply Forall_impl; [exact Ho|]. intros x. by apply val_from_le.
    + intros n. cbn [forallb2].
      rewrite (Hs2 n), andb_true_r. by apply same_app_l.
Qed.

Lemma deepcopy_ok fuel :
  ∀ v h, stored h0 h -> val_below fuel v -> val_below (length h0) v ->
         copied h0 h v (deepcopy fuel v h).
Proof.
  induction fuel as [|fuel IH]; intros v h Hst Hfuel Hn0.
  - destruct v; cbn in Hfuel; try lia.
    all: eexists _, []; rewrite app_nil_r; split_and!; try done.
    all: intros ?; by apply same_atom.
  - destruct v as [| | | |a].
    1-4: eexists _, []; rewrite app_nil_r; split_and!; try done;
      intros ?; by apply same_atom.
    cbn in Hfuel, Hn0. cbn [deepcopy].
    destruct (lookup_lt_is_Some_2 h0 a Hn0) as [o Ho].
    rewrite (Hst a Hn0), Ho.
    pose proof (Hord a o Ho) as Hvals.
    destruct (copy_values_ok (deepcopy fuel) (ovalues o)) with (h := h)
      as (vs & ext & Hcp & Hf & He & Hs); [|done|].
    { intros x k Hx Hk. apply IH; [done|..].
      - rewrite Forall_forall in Hvals. specialize (Hvals x Hx).
        destruct x; cbn in *; try done. lia.
      - rewrite Forall_forall in Hvals. specialize (Hvals x Hx).
        destruct x; cbn in *; try done. lia. }
    rewrite Hcp. exists (PRef (length (h ++ ext))), (ext ++ [PyObject (okeys o) vs]).
    rewrite app_assoc. split_and!; [done|..].
    + cbn. rewrite length_app. lia.
    + apply Forall_app. split; [done|]. by constructor.
    + intros [|n]; [done|]. cbn [same].
      rewrite list_lookup_middle by done. rewrite Ho. cbn [okeys ovalues].
      rewrite bool_decide_eq_true_2 by done. cbn [andb].
      eapply forallb2_impl; [|apply (Hs n)].
      intros x1 x2. apply same_app_l.
Qed.

Lemma accessor_ok t h :
  (t < length h0)%nat -> stored h0 h ->
  copied h0 h (PRef t) (deepcopy (length h) (PRef t) h).
Proof.
  intros Ht Hst. pose proof (stored_length h Hst).
  apply deepcopy_ok; cbn; [done|lia|done].
Qed.

Lemma reachable_from h v a :
  closed h0 h -> val_from (length h0) v -> reachable h v a ->
  (length h0 <= a)%nat.
Proof.
  intros Hcl Hv Hr. induction Hr as [a|a o x b Ho Hx Hr IH]; [done|].
  apply IH. cbn in Hv. pose proof (Hcl a o Hv Ho) as Hvals.
  rewrite Forall_forall in Hvals. by apply Hvals.
Qed.

Lemma holds_from w a : isolated h0 w -> holds w a -> (length h0 <= a)%nat.
Proof.
  intros (Hst & Hcl & Hheld) (r & Hr & Hreach).
  rewrite Forall_forall in Hheld. eapply reachable_from; eauto.
Qed.

Lemma holds_value_from w v :
  isolated h0 w -> holds_value w v -> val_from (length h0) v.
Proof.
  intros Hiso Hv. destruct v; cbn; try done. eapply holds_from; eauto.
Qed.

Lemma copied_isolated w t v h' :
  (t < length h0)%nat -> isolated h0 w ->
  deepcopy (length (heap_of w)) (PRef t) (heap_of w) = Some (v, h') ->
  isolated h0 (World h' (v :: held w)).
Proof.
  intros Ht (Hst & Hcl & Hheld) Hcp.
  destruct (accessor_ok t (heap_of w) Ht Hst) as (v' & ext & Heq & Hv & He & _).
  rewrite Hcp in Heq. injection Heq as -> ->.
  pose proof (stored_length _ Hst) as Hlen.
  split_and!; cbn [heap_of held].
  - by apply stored_app.
  - intros a o Ha Ho. apply lookup_app_Some in Ho as [Ho|[Hge Ho]].
    + by eapply Hcl.
    + apply list_elem_of_lookup_2 in Ho. rewrite Forall_forall in He.
      eapply Forall_impl; [by apply He|]. intros x. by apply val_from_le.
  - constructor; [|done]. by eapply val_from_le.
Qed.

Lemma step_isolated tx ty w act w' :
  (tx < length h0)%nat -> (ty < length h0)%nat ->
  isolated h0 w -> step tx ty w act w' -> isolated h0 w'.
Proof.
  intros Hx Hy Hiso Hstep.
  destruct Hstep as [w v h' Hcp|w v h' Hcp|w a o Ha Ho|w o Ho].
  - by apply (copied_isolated w tx v h' Hx Hiso Hcp).
  - by apply (copied_isolated w ty v h' Hy Hiso Hcp).
  - pose proof (holds_from w a Hiso Ha) as Hge.
    assert (Hvals : Forall (val_from (length h0)) (ovalues o)).
    { eapply Forall_impl; [done|]. intros x. by apply holds_value_from. }
    destruct Hiso as (Hst & Hcl & Hheld). split_and!; cbn [heap_of held].
    + intros b Hb. rewrite list_lookup_insert_ne by lia. by apply Hst.
    + intros b o' Hb Ho'. apply list_lookup_insert_Some in Ho' as [(-> & <- & _)|[_ Ho']].
      * done.
      * by eapply Hcl.
    + done.
  - assert (Hvals : Forall (val_from (length h0)) (ovalues o)).
    { eapply Forall_impl; [done|]. intros x. by apply holds_value_from. }
    destruct Hiso as (Hst & Hcl & Hheld).
    pose proof (stored_length _ Hst) as Hlen.
    split_and!; cbn [heap_of held].
    + by apply stored_app.
    + intros b o' Hb Ho'. apply lookup_app_Some in Ho' as [Ho'|[_ Ho']].
      * by eapply Hcl.
      * apply list_elem_of_lookup_2, list_elem_of_singleton in Ho'. by subst.
    + by constructor.
Qed.

Lemma steps_isolated tx ty w acts w' :
  (tx < length h0)%nat -> (ty < length h0)%nat ->
  isolated h0 w -> steps tx ty w acts w' -> isolated h0 w'.
Proof.
  intros Hx Hy Hiso Hsteps. induction Hsteps as [|w1 a w2 acts w3 Hs _ IH]; [done|].
  apply IH. by apply (step_isolated tx ty w1 a w2).
Qed.

Lemma isolated_initial : isolated h0 (World h0 []).
Proof.
  split_and!; cbn; [done| |done].
  intros a o Ha Ho. apply lookup_lt_Some in Ho. lia.
Qed.

End DeepCopy.

(** C10. The module-level tables sit in a heap [h0] of literals, at [tx]
    and [ty].  Let a caller do anything it can: read the accessors, keep
    what they return, overwrite any object reachable from what it holds,
    make new objects.  After every such history, both accessors still
    succeed and return mappings that look like the original tables at
    every depth, and nothing reachable from a returned mapping is an
    object of the stored tables. *)
Theorem preset_accessors_return_deep_copies h0 tx ty acts w :
  ordered h0 -> (tx < length h0)%nat -> (ty < length h0)%nat ->
  steps tx ty (World h0 []) acts w ->
  ∃ vx hx vy hy,
    presetsx tx (heap_of w) = Some (vx, hx)
    ∧ presetsy ty (heap_of w) = Some (vy, hy)
    ∧ (∀ n, same n hx vx h0 (PRef tx) = true)
    ∧ (∀ n, same n hy vy h0 (PRef ty) = true)
    ∧ (∀ a, reachable hx vx a -> (length h0 <= a)%nat)
    ∧ (∀ a, reachable hy vy a -> (length h0 <= a)%nat).
Proof.
  intros Hord Hx Hy Hsteps.
  pose proof (steps_isolated h0 Hord tx ty _ _ _ Hx Hy (isolated_initial h0)
                Hsteps) as Hiso.
  pose proof Hiso as (Hst & _ & _).
  destruct (accessor_ok h0 Hord tx (heap_of w) Hx Hst)
    as (vx & ex & Hcx & _ & _ & Hsx).
  destruct (accessor_ok h0 Hord ty (heap_of w) Hy Hst)
    as (vy & ey & Hcy & _ & _ & Hsy).
  exists vx, (heap_of w ++ ex), vy, (heap_of w ++ ey).
  split_and!; try done.
  - intros a Ha.
    destruct (copied_isolated h0 Hord w tx vx _ Hx Hiso Hcx) as (_ & Hcl & Hh).
    apply Forall_cons in Hh as [Hv _]. by eapply reachable_from.
  - intros a Ha.
    destruct (copied_isolated h0 Hord w ty vy _ Hy Hiso Hcy) as (_ & Hcl & Hh).
    apply Forall_cons in Hh as [Hv _]. by eapply reachable_from.
Qed.

(** A small table heap: a list of depths, a configuration holding it, and
    the table mapping a preset name to the configuration. *)
Lemma sample_heap_ordered :
  ordered [PyObject None [PInt 1; PInt 1; PInt 4; PInt 7];
           PyObject (Some ["depths"; "block_type"]) [PRef 0; PStr "X"];
           PyObject (Some ["regnetx002"]) [PRef 1]].
Proof.
  intros [|[|[|a]]] o; cbn; intros [= <-]; cbn;
    repeat constructor; cbn; lia.
Defined.

Lemma sample_history :
  let h0 := [PyObject None [PInt 1; PInt 1; PInt 4; PInt 7];
             PyObject (Some ["depths"; "block_type"]) [PRef 0; PStr "X"];
             PyObject (Some ["regnetx002"]) [PRef 1]] in
  steps 2 2 (World h0 [])
    [GetPresetsX; Store 3 (PyObject None [PInt 9]);
     Store 5 (PyObject (Some []) [])]
    (World (<[5%nat := PyObject (Some []) []]>
              (<[3%nat := PyObject None [PInt 9]]>
                 (h0 ++ [PyObject None [PInt 1; PInt 1; PInt 4; PInt 7];
                         PyObject (Some ["depths"; "block_type"])
                           [PRef 3; PStr "X"];
                         PyObject (Some ["regnetx002"]) [PRef 4]])))
       [PRef 5]).
Proof.
  cbn zeta.
  eapply steps_cons.
  { apply (step_get_x 2 2 (World _ [])). reflexivity. }
  eapply steps_cons.
  { apply (step_store 2 2 (World _ [PRef 5]) 3 (PyObject None [PInt 9])).
    - exists (PRef 5). split; [by left|].
      eapply reach_child; [reflexivity | by left |].
      eapply reach_child; [reflexivity | by left |].
      apply reach_self.
    - repeat constructor. intros b [=]. }
  eapply steps_cons.
  { apply (step_store 2 2 (World _ [PRef 5]) 5 (PyObject (Some []) [])).
    - exists (PRef 5). split; [by left | apply reach_self].
    - constructor. }
  apply steps_nil.
Defined.

Lemma preset_accessors_return_deep_copies_witness :
  let h0 := [PyObject None [PInt 1; PInt 1; PInt 4; PInt 7];
             PyObject (Some ["depths"; "block_type"]) [PRef 0; PStr "X"];
             PyObject (Some ["regnetx002"]) [PRef 1]] in
  let h := <[5%nat := PyObject (Some []) []]>
             (<[3%nat := PyObject None [PInt 9]]>
                (h0 ++ [PyObject None [PInt 1; PInt 1; PInt 4; PInt 7];
                        PyObject (Some ["depths"; "block_type"])
                          [PRef 3; PStr "X"];
                        PyObject (Some ["regnetx002"]) [PRef 4]])) in
  ∃ vx hx vy hy,
    presetsx 2 h = Some (vx, hx)
    ∧ presetsy 2 h = Some (vy, hy)
    ∧ (∀ n, same n hx vx h0 (PRef 2) = true)
    ∧ (∀ n, same n hy vy h0 (PRef 2) = true)
    ∧ (∀ a, reachable hx vx a -> (length h0 <= a)%nat)
    ∧ (∀ a, reachable hy vy a -> (length h0 <= a)%nat).
Proof.
  cbn zeta.
  apply (preset_accessors_return_deep_copies _ 2 2
           [GetPresetsX; Store 3 (PyObject None [PInt 9]);
            Store 5 (PyObject (Some []) [])]
           (World _ [PRef 5]) sample_heap_ordered).
  - cbn. lia.
  - cbn. lia.
  - exact sample_history.
Defined.

(** * Further properties of the module *)

(** ** Blocks *)

Lemma z_main_shape x bw fo gw st ser n :
  shape_of (chain x (z_main_layers bw fo gw st ser n))
  = block_shape st fo (shape_of x).
Proof.
  rewrite shape_of_chain. destruct (shape_of x) as [[h|] [w|] c];
    cbn -[conv_output_length]; unfold block_shape;
    cbn -[conv_output_length downsample];
    by rewrite ?conv_output_length_1x1, ?conv_output_length_same,
      ?conv_output_length_1x1.
Qed.

Lemma skip_shape x fo st n :
  st ≠ 1 ->
  shape_of (chain x (x_skip_layers fo st n)) = block_shape st fo (shape_of x).
Proof.
  intros Hst. unfold x_skip_layers. apply Z.eqb_neq in Hst as ->.
  rewrite shape_of_chain. unfold block_shape, downsample.
  destruct (shape_of x) as [[h|] [w|] c]; cbn;
    unfold conv_output_length; cbn; repeat f_equal; lia.
Qed.

(** X3. The filter check does its job: when a block is built on an input
    that really has [filters_in] channels, the two tensors its residual
    addition adds have the same shape.  At stride 1 that is the input
    itself against the main path, at any other stride the projected
    shortcut against the main path (X and Y); the Z block adds at stride 1
    only. *)
Theorem residual_add_operands_agree inputs filters_in filters_out group_width
    stride ser br name s width :
  filters_in = filters_out ∨ stride ≠ 1 ->
  group_width ≠ 0 ->
  inv_btlneck filters_out br = OK width ->
  channels (shape_of inputs) = filters_in ->
  ∃ tx ty tz ax bx ay by_,
    fst (apply_x_block inputs filters_in filters_out group_width stride name s)
    = OK tx
    ∧ fst (apply_y_block inputs filters_in filters_out group_width stride ser
             name s) = OK ty
    ∧ fst (apply_z_block inputs filters_in filters_out group_width stride ser
             br name s) = OK tz
    ∧ last_add tx = Some (ax, bx) ∧ shape_of ax = shape_of bx
    ∧ last_add ty = Some (ay, by_) ∧ shape_of ay = shape_of by_
    ∧ (if stride =? 1
       then ∃ az, last_add tz = Some (az, inputs)
                  ∧ shape_of az = shape_of inputs
       else last_add tz = None).
Proof.
  intros Hg Hw Hb Hc.
  assert (Hskip : ∀ main n,
             shape_of (chain inputs main)
             = block_shape stride filters_out (shape_of inputs) ->
             shape_of (chain inputs main)
             = shape_of (chain inputs (x_skip_layers filters_out stride n))).
  { intros main n Hm. rewrite Hm.
    destruct (decide (stride = 1)) as [->|Hst].
    - unfold x_skip_layers. cbn [Z.eqb Pos.eqb chain foldl].
      apply block_shape_1. destruct Hg; [congruence|done].
    - by rewrite skip_shape. }
  apply filters_guard_false in Hg.
  destruct (apply_x_block_accepts inputs filters_in filters_out group_width
              stride name s Hg Hw) as (nx & sx & _ & ->).
  destruct (apply_y_block_accepts inputs filters_in filters_out group_width
              stride name s ser Hg Hw) as (ny & sy & _ & ->).
  destruct (apply_z_block_accepts inputs filters_in filters_out group_width
              stride name s ser br width Hg Hw Hb) as (nz & sz & _ & ->).
  eexists _, _, _, _, _, _, _. split_and!; try reflexivity.
  - apply Hskip, x_main_shape.
  - apply Hskip, y_main_shape.
  - unfold z_block_out. destruct (stride =? 1) eqn:Hst.
    + eexists. split; [reflexivity|]. rewrite z_main_shape.
      apply Z.eqb_eq in Hst as ->. apply block_shape_1.
      apply filters_guard_false in Hg. destruct Hg; [congruence|done].
    + unfold z_main_layers. reflexivity.
Qed.

Lemma residual_add_operands_agree_witness :
  ∃ tx ty tz ax bx ay by_,
    fst (apply_x_block (TInput (Shape (Some 57) None 64)) 64 64 8 1 None fresh)
    = OK tx
    ∧ fst (apply_y_block (TInput (Shape (Some 57) None 64)) 64 64 8 1 f_0_25
             None fresh) = OK ty
    ∧ fst (apply_z_block (TInput (Shape (Some 57) None 64)) 64 64 8 1 f_0_25
             f_0_25 None fresh) = OK tz
    ∧ last_add tx = Some (ax, bx) ∧ shape_of ax = shape_of bx
    ∧ last_add ty = Some (ay, by_) ∧ shape_of ay = shape_of by_
    ∧ (if 1 =? 1
       then ∃ az, last_add tz = Some (az, TInput (Shape (Some 57) None 64))
                  ∧ shape_of az = shape_of (TInput (Shape (Some 57) None 64))
       else last_add tz = None).
Proof.
  apply (residual_add_operands_agree (TInput (Shape (Some 57) None 64)) 64 64
           8 1 f_0_25 f_0_25 None fresh 256).
  - left. reflexivity.
  - lia.
  - vm_compute. reflexivity.
  - reflexivity.
Defined.

Lemma z_block_strides bw fo gw st ser n :
  conv3x3_strides (z_block_layers (z_main_layers bw fo gw st ser n) st) = [st].
Proof. unfold z_block_layers. by destruct (st =? 1). Qed.

(** ** Stages *)

Lemma apply_stage_named x block_type depth gw fi fo name s :
  ∃ n s0,
    name_or_uid name "stage" str s = (OK n, s0)
    ∧ applied s0 = applied s
    ∧ apply_stage x block_type depth gw fi fo name s
      = apply_stage x block_type depth gw fi fo (Some n) s0.
Proof.
  destruct (name_or_uid_run name "stage" str s) as (n & s0 & Hn & Ha & _).
  exists n, s0. split_and!; [done..|].
  unfold apply_stage. rewrite (bind_OK _ _ _ _ _ Hn).
  cbn [name_or_uid]. by rewrite bind_ret.
Qed.

Lemma apply_stage_z_run x depth gw fi fo bw n s :
  gw ≠ 0 ->
  inv_btlneck fo f_0_25 = OK bw ->
  ∃ t new,
    apply_stage x "Z" depth gw fi fo (Some n) s = (OK t, extend s new)
    ∧ shape_of t = block_shape 2 fo (shape_of x)
    ∧ conv3x3_strides new = stage_strides depth.
Proof.
  intros Hgw Hb. unfold apply_stage. cbn [name_or_uid]. rewrite bind_ret.
  assert (Hg2 : filters_guard fi fo 2 = false) by (apply filters_guard_false; lia).
  assert (Hg1 : filters_guard fo fo 1 = false) by (apply filters_guard_false; lia).
  set (Inv := fun y => shape_of y = block_shape 2 fo (shape_of x)).
  cbn [String.eqb Ascii.eqb Bool.eqb].
  destruct (apply_z_block_accepts x fi fo gw 2 (Some (n +:+ "_ZBlock_0")) s
              f_0_25 f_0_25 bw Hg2 Hgw Hb) as (n0 & s0 & [= <- <-] & Hrun).
  rewrite (bind_OK _ _ _ _ _ Hrun).
  match goal with |- context [for_each _ ?body ?x0 ?s0] =>
    destruct (for_each_blocks (range_from_1 depth) body Inv 1) with
      (x := x0) (s := s0) as (t & new & Hloop & Ht & Hs)
  end.
  - intros i y s1 Hy.
    destruct (apply_z_block_accepts y fo fo gw 1
                (Some (n +:+ "_ZBlock_" +:+ str i)) s1 f_0_25 f_0_25 bw
                Hg1 Hgw Hb) as (n1 & s2 & [= <- <-] & Hrun1).
    eexists _, _. split; [exact Hrun1|]. split; [|apply z_block_strides].
    unfold Inv, z_block_out. cbn [Z.eqb Pos.eqb shape_of].
    rewrite z_main_shape, Hy. by apply block_shape_1.
  - unfold Inv, z_block_out. cbn [Z.eqb Pos.eqb]. apply z_main_shape.
  - rewrite Hloop, extend_extend. eexists _, _. split; [done|].
    split; [done|].
    by rewrite conv3x3_strides_app, z_block_strides, Hs, length_range_from_1.
Qed.

Lemma apply_stage_cases x block_type depth gw fi fo name s :
  match stage_error block_type gw fo with
  | None =>
      ∃ t s' new,
        apply_stage x block_type depth gw fi fo name s = (OK t, s')
        ∧ applied s' = applied s ++ new
        ∧ shape_of t = block_shape 2 fo (shape_of x)
        ∧ conv3x3_strides new = stage_strides depth
  | Some e =>
      ∃ s', apply_stage x block_type depth gw fi fo name s = (Raise e, s')
            ∧ applied s' = applied s
  end.
Proof.
  destruct (apply_stage_named x block_type depth gw fi fo name s)
    as (n & s0 & _ & Ha & ->).
  assert (Hg2 : filters_guard fi fo 2 = false) by (apply filters_guard_false; lia).
  unfold stage_error, apply_stage. cbn [name_or_uid]. rewrite bind_ret.
  destruct (String.eqb_spec block_type "X") as [->|HX].
  { cbn [orb negb String.eqb Ascii.eqb Bool.eqb].
    destruct (Z.eqb_spec gw 0) as [->|Hgw].
    - destruct (apply_x_block_zero_width x fi fo 0 2
                  (Some (n +:+ "_XBlock_0")) s0 Hg2 eq_refl) as (s' & Hr & Hs).
      rewrite (bind_Raise _ _ _ _ _ Hr). eexists. split; [done|]. congruence.
    - destruct (apply_stage_xy_run x "X" depth gw fi fo n s0)
        as (t & new & Hr & Hsh & Hst); [by left | done |].
      unfold apply_stage in Hr. cbn [name_or_uid] in Hr.
      rewrite bind_ret in Hr. cbn [String.eqb Ascii.eqb Bool.eqb] in Hr.
      rewrite Hr. eexists _, _, new. rewrite applied_extend, Ha.
      by split_and!. }
  destruct (String.eqb_spec block_type "Y") as [->|HY].
  { cbn [orb negb String.eqb Ascii.eqb Bool.eqb].
    destruct (Z.eqb_spec gw 0) as [->|Hgw].
    - destruct (apply_y_block_zero_width x fi fo 0 2
                  (Some (n +:+ "_YBlock_0")) s0 f_0_25 Hg2 eq_refl)
        as (s' & Hr & Hs).
      rewrite (bind_Raise _ _ _ _ _ Hr). eexists. split; [done|]. congruence.
    - destruct (apply_stage_xy_run x "Y" depth gw fi fo n s0)
        as (t & new & Hr & Hsh & Hst); [by right | done |].
      unfold apply_stage in Hr. cbn [name_or_uid] in Hr.
      rewrite bind_ret in Hr. cbn [String.eqb Ascii.eqb Bool.eqb] in Hr.
      rewrite Hr. eexists _, _, new. rewrite applied_extend, Ha.
      by split_and!. }
  destruct (String.eqb_spec block_type "Z") as [->|HZ].
  { cbn [orb negb String.eqb Ascii.eqb Bool.eqb].
    destruct (Z.eqb_spec gw 0) as [->|Hgw].
    - destruct (apply_z_block_arith_error x fi fo 0 2
                  (Some (n +:+ "_ZBlock_0")) s0 f_0_25 f_0_25
                  ZeroDivisionError Hg2 eq_refl) as (s' & Hr & Hs).
      rewrite (bind_Raise _ _ _ _ _ Hr). eexists. split; [done|]. congruence.
    - destruct (inv_btlneck fo f_0_25) as [bw|e] eqn:Hb.
      + destruct (apply_stage_z_run x depth gw fi fo bw n s0 Hgw Hb)
          as (t & new & Hr & Hsh & Hst).
        unfold apply_stage in Hr. cbn [name_or_uid] in Hr.
        rewrite bind_ret in Hr. cbn [String.eqb Ascii.eqb Bool.eqb] in Hr.
        rewrite Hr. eexists _, _, new. rewrite applied_extend, Ha.
        by split_and!.
      + destruct (apply_z_block_arith_error x fi fo gw 2
                    (Some (n +:+ "_ZBlock_0")) s0 f_0_25 f_0_25 e Hg2)
          as (s' & Hr & Hs); [by rewrite (floordiv_ok _ _ Hgw), Hb|].
        rewrite (bind_Raise _ _ _ _ _ Hr). eexists. split; [done|].
        congruence. }
  cbn [orb negb]. eexists. split; [reflexivity|done].
Qed.

Lemma filters_guard_stride_2 fi fo : filters_guard fi fo 2 = false.
Proof. apply filters_guard_false. lia. Qed.

(** X6. The [filters_in] argument of a stage has no effect at all: the
    first block runs at stride 2, where the filter check cannot fire, and
    the later blocks are given [filters_out] twice.  Two calls that differ
    in [filters_in] only return the same tensor and leave the same state. *)
Theorem stage_ignores_filters_in x block_type depth group_width filters_in
    filters_in' filters_out name s :
  apply_stage x block_type depth group_width filters_in filters_out name s
  = apply_stage x block_type depth group_width filters_in' filters_out name s.
Proof.
  unfold apply_stage, apply_x_block, apply_y_block, apply_z_block.
  by rewrite !filters_guard_stride_2.
Qed.

(** X7. A stage always has its first, downsampling block: a depth of 1,
    of 0 or below 0 all give the same one-block stage. *)
Theorem stage_depth_at_most_1 x block_type depth group_width filters_in
    filters_out name s :
  depth <= 1 ->
  apply_stage x block_type depth group_width filters_in filters_out name s
  = apply_stage x block_type 1 group_width filters_in filters_out name s.
Proof.
  intros Hd. unfold apply_stage.
  assert (range_from_1 depth = range_from_1 1) as ->; [|done].
  unfold range_from_1, seqZ. by rewrite !Z2Nat.nonpos by lia.
Qed.

Lemma stage_depth_at_most_1_witness :
  apply_stage (TInput (Shape None None 32)) "X" (-3) 8 32 64 None fresh
  = apply_stage (TInput (Shape None None 32)) "X" 1 8 32 64 None fresh.
Proof.
  apply (stage_depth_at_most_1 (TInput (Shape None None 32)) "X" (-3) 8 32 64
           None fresh).
  lia.
Defined.

(** ** The assembler *)

Lemma stage_step_cases depths widths gw block_type mn i x cin s :
  match stage_step_error depths widths gw block_type i with
  | None =>
      ∃ d w t s' new,
        depths !! i = Some d ∧ widths !! i = Some w
        ∧ stage_step depths widths gw block_type mn i (x, cin) s
          = (OK (t, w), s')
        ∧ applied s' = applied s ++ new
        ∧ shape_of t = block_shape 2 w (shape_of x)
        ∧ conv3x3_strides new = stage_strides d
  | Some e =>
      ∃ s', stage_step depths widths gw block_type mn i (x, cin) s
            = (Raise e, s')
            ∧ applied s' = applied s
  end.
Proof.
  unfold stage_step_error, stage_step, getitem. cbn [fst snd].
  destruct (depths !! i) as [d|]; [|by eexists].
  destruct (widths !! i) as [w|]; [|by eexists].
  rewrite !bind_lift_OK.
  pose proof (apply_stage_cases x block_type d gw cin w
                (Some (mn +:+ "_Stage_" +:+ str (Z.of_nat i))) s) as H.
  destruct (stage_error block_type gw w) as [e|].
  - destruct H as (s' & Hr & Hs). exists s'.
    by rewrite (bind_Raise _ _ _ _ _ Hr).
  - destruct H as (t & s' & new & Hr & Hs & Hsh & Hst).
    exists d, w, t, s', new. by rewrite (bind_OK _ _ _ _ _ Hr).
Qed.

Lemma stages_loop_cases depths widths gw block_type mn idx x cin s :
  match first_error (stage_step_error depths widths gw block_type <$> idx) with
  | None =>
      ∃ t c s' new,
        for_each idx (stage_step depths widths gw block_type mn) (x, cin) s
        = (OK (t, c), s')
        ∧ applied s' = applied s ++ new
        ∧ shape_of t
          = foldl (fun sh i => block_shape 2 (default 0 (widths !! i)) sh)
              (shape_of x) idx
        ∧ conv3x3_strides new
          = concat ((fun i => stage_strides (default 0 (depths !! i))) <$> idx)
  | Some e =>
      ∃ s' new,
        for_each idx (stage_step depths widths gw block_type mn) (x, cin) s
        = (Raise e, s')
        ∧ applied s' = applied s ++ new
  end.
Proof.
  revert x cin s. induction idx as [|i idx IH]; intros x cin s.
  - cbn. exists x, cin, s, []. by rewrite app_nil_r.
  - cbn [fmap list_fmap first_error for_each].
    pose proof (stage_step_cases depths widths gw block_type mn i x cin s) as H.
    destruct (stage_step_error depths widths gw block_type i) as [e|].
    + destruct H as (s' & Hr & Hs). exists s', [].
      rewrite (bind_Raise _ _ _ _ _ Hr), app_nil_r. done.
    + destruct H as (d & w & t & s1 & new1 & Hd & Hw & Hr & Hs & Hsh & Hst).
      rewrite (bind_OK _ _ _ _ _ Hr).
      specialize (IH t w s1). fold (@fmap list _ nat) in *.
      destruct (first_error _) as [e|].
      * destruct IH as (s' & new2 & -> & Hs2). exists s', (new1 ++ new2).
        by rewrite Hs2, Hs, app_assoc.
      * destruct IH as (t' & c & s' & new2 & -> & Hs2 & Hsh2 & Hst2).
        exists t', c, s', (new1 ++ new2). split_and!; [done|..].
        -- by rewrite Hs2, Hs, app_assoc.
        -- cbn [foldl]. by rewrite Hsh2, Hsh, Hw.
        -- cbn [concat]. by rewrite conv3x3_strides_app, Hst, Hst2, Hd.
Qed.

Lemma init_cases depths widths gw block_type (ir : bool) mn input_tensor
    input_shape s :
  let img := graph_input input_shape input_tensor in
  let before := input_layers input_shape input_tensor
                ++ (if ir then [Rescaling rescaling_scale] else [])
                ++ stem_layers mn in
  let r := RegNetBackBone_init depths widths gw block_type ir mn input_tensor
             input_shape s in
  match backbone_error depths widths gw block_type with
  | None =>
      ∃ m rest,
        fst r = OK m
        ∧ applied (snd r) = applied s ++ before ++ rest
        ∧ shape_of (outputs m)
          = foldl (fun sh i => block_shape 2 (default 0 (widths !! i)) sh)
              (block_shape 2 32 (shape_of img)) (seq 0 NUM_STAGES)
        ∧ conv3x3_strides rest
          = concat ((fun i => stage_strides (default 0 (depths !! i)))
                      <$> seq 0 NUM_STAGES)
  | Some e =>
      ∃ rest, fst r = Raise e ∧ applied (snd r) = applied s ++ before ++ rest
  end.
Proof.
  cbn zeta. unfold RegNetBackBone_init, backbone_error.
  rewrite (bind_OK _ _ _ _ _ (parse_model_inputs_run _ _ _)).
  set (img := graph_input input_shape input_tensor).
  set (x0 := if ir then TCall (Rescaling rescaling_scale) img else img).
  set (resc := if ir then [Rescaling rescaling_scale] else []).
  assert (Hx0 : shape_of x0 = shape_of img) by (subst x0; by destruct ir).
  assert (Hresc : ∀ B (k : tensor -> M B) s1,
             bind (if ir then call (Rescaling rescaling_scale) img else ret img)
               k s1 = k x0 (extend s1 resc)).
  { intros B k s1. subst x0 resc. destruct ir; [done|].
    by rewrite bind_ret, extend_nil. }
  rewrite Hresc, (bind_OK _ _ _ _ _ (apply_stem_run _ _ _)).
  cbn zeta. rewrite stem_channels, !extend_extend.
  set (y0 := chain x0 (stem_layers mn)).
  assert (Hy0 : shape_of y0 = block_shape 2 32 (shape_of img)).
  { subst y0. rewrite <- Hx0, shape_of_chain.
    by destruct (shape_of x0) as [[?|] [?|] ?]. }
  match goal with |- context [bind (for_each ?idx _ (?x, ?c)) _ ?s1] =>
    pose proof (stages_loop_cases depths widths gw block_type mn idx x c s1)
      as H
  end.
  destruct (first_error _) as [e|].
  - destruct H as (s' & new & Hr & Hs). exists new.
    rewrite (bind_Raise _ _ _ _ _ Hr). cbn [fst snd].
    rewrite Hs, applied_extend. by rewrite <- !app_assoc.
  - destruct H as (t & c & s' & new & Hr & Hs & Hsh & Hst).
    rewrite (bind_OK _ _ _ _ _ Hr). cbn [fst snd ret outputs].
    eexists _, new. split; [reflexivity|]. cbn [outputs].
    rewrite Hs, applied_extend, Hsh, Hy0. by rewrite <- !app_assoc.
Qed.

(** Instances: too few depths, an unknown block type, a zero group width. *)
Example backbone_error_samples :
  backbone_error [1; 1; 4] [24; 56; 152; 368] 8 "X" = Some IndexError
  ∧ backbone_error [1; 1; 4; 7] [24; 56; 152; 368] 8 "W"
    = Some (NotImplementedError (unknown_block_msg "W"))
  ∧ backbone_error [] [24; 56; 152; 368] 8 "W" = Some IndexError
  ∧ backbone_error [1; 1; 4; 7] [24; 56; 152; 368] 0 "Y"
    = Some ZeroDivisionError
  ∧ backbone_error [1; 1; 4; 7] [24; 56; 152; 368] 8 "Z" = None.
Proof. vm_compute. done. Qed.

Lemma downsample_2_five_times n :
  downsample 2 (downsample 2 (downsample 2 (downsample 2 (downsample 2 n))))
  = (n + 31) / 32.
Proof. unfold downsample. Z.div_mod_to_equations. lia. Qed.

Lemma backbone_error_None_widths depths widths gw block_type :
  backbone_error depths widths gw block_type = None ->
  ∃ c, widths !! 3%nat = Some c.
Proof.
  unfold backbone_error. cbn [NUM_STAGES seq fmap list_fmap first_error].
  destruct (stage_step_error depths widths gw block_type 0); [done|].
  destruct (stage_step_error depths widths gw block_type 1); [done|].
  destruct (stage_step_error depths widths gw block_type 2); [done|].
  unfold stage_step_error.
  destruct (depths !! 3%nat); [|done]. destruct (widths !! 3%nat); [|done].
  eauto.
Qed.

(** X9. Whenever the assembler returns a model, of any block type and on
    any input, the output has height and width [ceil(n / 32)] for an
    input of height and width [n], sizes that are unknown stay unknown,
    and the channel count is [widths[3]]. *)
Theorem backbone_output_shape depths widths group_width block_type
    include_rescaling mn input_tensor input_shape s m :
  fst (RegNetBackBone_init depths widths group_width block_type
         include_rescaling mn input_tensor input_shape s) = OK m ->
  let sh := shape_of (graph_input input_shape input_tensor) in
  ∃ c,
    widths !! 3%nat = Some c
    ∧ shape_of (outputs m)
      = Shape ((fun n => (n + 31) / 32) <$> height sh)
          ((fun n => (n + 31) / 32) <$> width sh) c.
Proof.
  intros Hm. cbn zeta.
  pose proof (init_cases depths widths group_width block_type
                include_rescaling mn input_tensor input_shape s) as H.
  cbn zeta in H.
  destruct (backbone_error depths widths group_width block_type) as [e|] eqn:He.
  - destruct H as (rest & Hr & _). congruence.
  - destruct H as (m' & rest & Hr & _ & Hsh & _).
    assert (m' = m) as -> by congruence.
    destruct (backbone_error_None_widths _ _ _ _ He) as (c & Hc).
    exists c. split; [done|]. rewrite Hsh.
    cbn [NUM_STAGES seq foldl]. rewrite Hc. cbn [default].
    unfold block_shape. cbn [height width channels].
    destruct (shape_of (graph_input input_shape input_tensor)) as [[h|] [w|] ch];
      cbn; by rewrite ?downsample_2_five_times.
Qed.

Lemma backbone_output_shape_witness :
  ∃ m c,
    fst (RegNetBackBone_init [1; 1; 1; 1] [24; 56; 152; 368] 8 "Z" false
           "regnet" None (Shape (Some 225) None 3) fresh) = OK m
    ∧ ([24; 56; 152; 368] : list Z) !! 3%nat = Some c
    ∧ shape_of (outputs m) = Shape (Some ((225 + 31) / 32)) None c.
Proof.
  destruct (fst (RegNetBackBone_init [1; 1; 1; 1] [24; 56; 152; 368] 8 "Z"
                   false "regnet" None (Shape (Some 225) None 3) fresh))
    as [m|e] eqn:Hm.
  - destruct (backbone_output_shape [1; 1; 1; 1] [24; 56; 152; 368] 8 "Z"
                false "regnet" None (Shape (Some 225) None 3) fresh m Hm)
      as (c & Hc & Hsh).
    exists m, c. split_and!; [reflexivity | exact Hc | exact Hsh].
  - exfalso. revert Hm. vm_compute. discriminate.
Defined.

Lemma for_each_ext {I X} (l : list I) (f g : I -> X -> M X) x s :
  (∀ i y t, i ∈ l -> f i y t = g i y t) ->
  for_each l f x s = for_each l g x s.
Proof.
  revert x s. induction l as [|i l IH]; intros x s Hfg; [done|].
  cbn [for_each]. unfold bind. rewrite Hfg by (by left).
  destruct (g i x s) as [[y|e] s']; [|done].
  apply IH. intros. apply Hfg. by right.
Qed.

Lemma init_unfold depths widths gw block_type (ir : bool) mn input_tensor
    input_shape s :
  let img := graph_input input_shape input_tensor in
  let x0 := if ir then TCall (Rescaling rescaling_scale) img else img in
  RegNetBackBone_init depths widths gw block_type ir mn input_tensor
    input_shape s
  = bind (for_each (seq 0 NUM_STAGES)
            (stage_step depths widths gw block_type mn)
            (chain x0 (stem_layers mn), 32))
      (fun carry =>
         ret (Build_RegNetBackBone img (fst carry) mn depths widths gw
                block_type ir mn input_tensor))
      (extend s (input_layers input_shape input_tensor
                 ++ (if ir then [Rescaling rescaling_scale] else [])
                 ++ stem_layers mn)).
Proof.
  cbn zeta. unfold RegNetBackBone_init.
  rewrite (bind_OK _ _ _ _ _ (parse_model_inputs_run _ _ _)).
  destruct ir.
  - rewrite bind_call, (bind_OK _ _ _ _ _ (apply_stem_run _ _ _)).
    cbn zeta. by rewrite stem_channels, !extend_extend.
  - rewrite bind_ret, (bind_OK _ _ _ _ _ (apply_stem_run _ _ _)).
    cbn zeta. by rewrite stem_channels, !extend_extend.
Qed.

(** X10. Only the first four entries of [depths] and of [widths] are
    read.  Two constructions whose depths agree on their first four
    entries, and whose widths do, build the same graph, end in the same
    exception if they fail, and leave the same state; entries after the
    fourth are kept in the model's attributes and used nowhere. *)
Theorem backbone_reads_four_entries depths depths' widths widths' group_width
    block_type include_rescaling mn input_tensor input_shape s :
  take 4 depths = take 4 depths' ->
  take 4 widths = take 4 widths' ->
  let r := RegNetBackBone_init depths widths group_width block_type
             include_rescaling mn input_tensor input_shape s in
  let r' := RegNetBackBone_init depths' widths' group_width block_type
              include_rescaling mn input_tensor input_shape s in
  map_result outputs (fst r) = map_result outputs (fst r')
  ∧ snd r = snd r'.
Proof.
  intros Hd Hw. cbn zeta. rewrite !init_unfold. unfold bind.
  rewrite (for_each_ext _ _ (stage_step depths' widths' group_width
                               block_type mn)).
  - by destruct (for_each _ _ _ _) as [[carry|e] s'].
  - intros i y t Hi. apply elem_of_seq in Hi. unfold stage_step, getitem.
    assert (depths !! i = depths' !! i) as ->.
    { rewrite <- (lookup_take_lt depths 4), <- (lookup_take_lt depths' 4)
        by (unfold NUM_STAGES in Hi; lia). by rewrite Hd. }
    assert (widths !! i = widths' !! i) as ->.
    { rewrite <- (lookup_take_lt widths 4), <- (lookup_take_lt widths' 4)
        by (unfold NUM_STAGES in Hi; lia). by rewrite Hw. }
    done.
Qed.

Lemma backbone_reads_four_entries_witness :
  snd (RegNetBackBone_init [1; 1; 4; 7; 9; 9] [24; 56; 152; 368] 8 "X" true
         "regnet" None default_input_shape fresh)
  = snd (RegNetBackBone_init [1; 1; 4; 7] [24; 56; 152; 368; 5] 8 "X" true
           "regnet" None default_input_shape fresh).
Proof.
  apply (backbone_reads_four_entries [1; 1; 4; 7; 9; 9] [1; 1; 4; 7]
           [24; 56; 152; 368] [24; 56; 152; 368; 5] 8 "X" true "regnet" None
           default_input_shape fresh); reflexivity.
Defined.

(** ** The layers of a backbone, one by one *)

Lemma for_each_layers {I} (l : list I) (body : I -> tensor -> M tensor)
    (L : I -> list layer) :
  (∀ i y s, ∃ y', body i y s = (OK y', extend s (L i))) ->
  ∀ x s, ∃ x', for_each l body x s = (OK x', extend s (concat (L <$> l))).
Proof.
  intros Hb. induction l as [|i l IH]; intros x s.
  - exists x. cbn. by rewrite extend_nil.
  - destruct (Hb i x s) as (y & Hr).
    destruct (IH y (extend s (L i))) as (x' & Hr').
    exists x'. cbn [for_each fmap list_fmap concat].
    by rewrite (bind_OK _ _ _ _ _ Hr), Hr', extend_extend.
Qed.

Lemma block_run block_type x fi fo gw st n s :
  stage_error block_type gw fo = None ->
  filters_guard fi fo st = false ->
  ∃ t,
    (if String.eqb block_type "X"
     then apply_x_block x fi fo gw st (Some n) s
     else if String.eqb block_type "Y"
          then apply_y_block x fi fo gw st f_0_25 (Some n) s
          else apply_z_block x fi fo gw st f_0_25 f_0_25 (Some n) s)
    = (OK t, extend s (block_layers block_type fo gw st n)).
Proof.
  unfold stage_error, block_layers, default_bottleneck. intros He Hg.
  destruct (Z.eqb_spec gw 0) as [->|Hgw].
  { by destruct (negb _). }
  destruct (String.eqb block_type "X").
  { destruct (apply_x_block_accepts x fi fo gw st (Some n) s Hg Hgw)
      as (n' & s0 & [= <- <-] & ->). by eexists. }
  destruct (String.eqb block_type "Y").
  { destruct (apply_y_block_accepts x fi fo gw st (Some n) s f_0_25 Hg Hgw)
      as (n' & s0 & [= <- <-] & ->). by eexists. }
  destruct (String.eqb block_type "Z"); [|done]. cbn in He.
  destruct (inv_btlneck fo f_0_25) as [bw|e] eqn:Hb; [|done].
  destruct (apply_z_block_accepts x fi fo gw st (Some n) s f_0_25 f_0_25 bw
              Hg Hgw Hb) as (n' & s0 & [= <- <-] & ->).
  by eexists.
Qed.

Lemma apply_stage_layers x block_type depth gw fi fo n s :
  stage_error block_type gw fo = None ->
  ∃ t,
    apply_stage x block_type depth gw fi fo (Some n) s
    = (OK t, extend s (stage_layers block_type depth gw fo n)).
Proof.
  intros He.
  assert (Hg2 : filters_guard fi fo 2 = false) by apply filters_guard_stride_2.
  assert (Hg1 : filters_guard fo fo 1 = false) by (apply filters_guard_false; lia).
  pose proof (block_run block_type x fi fo gw 2
                (n +:+ block_prefix block_type +:+ "0") s He Hg2) as H0.
  pose proof (fun i y s1 =>
                block_run block_type y fo fo gw 1
                  (n +:+ block_prefix block_type +:+ str i) s1 He Hg1) as H1.
  unfold apply_stage, stage_layers. cbn [name_or_uid]. rewrite bind_ret.
  unfold block_prefix in *. revert He H0 H1. unfold stage_error.
  destruct (String.eqb block_type "X");
    [|destruct (String.eqb block_type "Y");
      [|destruct (String.eqb block_type "Z")]]; cbn [orb negb];
    intros He H0 H1; try done.
  all: destruct H0 as (t0 & Hr0); rewrite (bind_OK _ _ _ _ _ Hr0).
  all: match goal with |- context [for_each ?l ?body ?x0 ?s0] =>
         destruct (for_each_layers l body _ H1 x0 s0) as (t & Hr)
       end.
  all: rewrite Hr, extend_extend; by eexists.
Qed.

Lemma stage_step_layers depths widths gw block_type mn i x cin s :
  stage_step_error depths widths gw block_type i = None ->
  ∃ t w,
    stage_step depths widths gw block_type mn i (x, cin) s
    = (OK (t, w),
       extend s (stage_layers block_type (default 0 (depths !! i)) gw
                   (default 0 (widths !! i)) (stage_name mn i))).
Proof.
  unfold stage_step_error, stage_step, getitem. cbn [fst snd].
  destruct (depths !! i) as [d|]; [|done].
  destruct (widths !! i) as [w|]; [|done].
  intros He. rewrite !bind_lift_OK. cbn [default].
  destruct (apply_stage_layers x block_type d gw cin w (stage_name mn i) s He)
    as (t & Hr).
  unfold stage_name in Hr. rewrite (bind_OK _ _ _ _ _ Hr). by eexists _, _.
Qed.

Lemma stages_loop_layers depths widths gw block_type mn idx x cin s :
  first_error (stage_step_error depths widths gw block_type <$> idx) = None ->
  ∃ t c,
    for_each idx (stage_step depths widths gw block_type mn) (x, cin) s
    = (OK (t, c), extend s (stages_layers depths widths gw block_type mn idx)).
Proof.
  revert x cin s. induction idx as [|i idx IH]; intros x cin s.
  - intros _. exists x, cin. unfold stages_layers. cbn. by rewrite extend_nil.
  - cbn [fmap list_fmap first_error].
    destruct (stage_step_error depths widths gw block_type i) eqn:Hi; [done|].
    intros He.
    destruct (stage_step_layers depths widths gw block_type mn i x cin s Hi)
      as (t & w & Hr).
    destruct (IH t w (extend s (stage_layers block_type
                                  (default 0 (depths !! i)) gw
                                  (default 0 (widths !! i))
                                  (stage_name mn i))) He) as (t' & c & Hr').
    exists t', c. cbn [for_each].
    rewrite (bind_OK _ _ _ _ _ Hr), Hr', extend_extend. done.
Qed.

Lemma init_layers depths widths gw block_type (ir : bool) mn input_tensor
    input_shape s :
  backbone_error depths widths gw block_type = None ->
  ∃ m,
    RegNetBackBone_init depths widths gw block_type ir mn input_tensor
      input_shape s
    = (OK m, extend s (backbone_layers depths widths gw block_type ir mn
                         input_tensor input_shape)).
Proof.
  intros He. rewrite init_unfold.
  match goal with |- context [bind (for_each ?idx _ (?x, ?c)) _ ?s1] =>
    destruct (stages_loop_layers depths widths gw block_type mn idx x c s1 He)
      as (t & c' & Hr)
  end.
  rewrite (bind_OK _ _ _ _ _ Hr). eexists. rewrite ret_run, extend_extend.
  unfold backbone_layers. by rewrite <- !app_assoc.
Qed.

Lemma length_concat_fmap_const {A B} (f : A -> list B) (l : list A) k :
  (∀ a, length (f a) = k) -> length (concat (f <$> l)) = (length l * k)%nat.
Proof.
  intros Hf. induction l as [|a l IH]; [done|].
  cbn. rewrite length_app, Hf. cbn in IH. rewrite IH. lia.
Qed.

Lemma length_stage_layers block_type depth gw fo n :
  length (stage_layers block_type depth gw fo n)
  = stage_layer_count block_type depth.
Proof.
  unfold stage_layers, stage_layer_count. rewrite length_app.
  rewrite (length_concat_fmap_const _ _
             (if String.eqb block_type "X" then 10
              else if String.eqb block_type "Y" then 11 else 10)%nat).
  - rewrite length_range_from_1. f_equal. unfold block_layers.
    by destruct (String.eqb block_type "X"), (String.eqb block_type "Y").
  - intros i. unfold block_layers.
    by destruct (String.eqb block_type "X"), (String.eqb block_type "Y").
Qed.

(** X11. The number of layers a successful construction applies: the
    input layer unless a tensor was supplied, the rescaling if asked for,
    3 for the stem, and for each stage 12 (X), 13 (Y) or 9 (Z) for its
    first block plus 10 (X), 11 (Y) or 10 (Z) for each further block;
    widths, group width and input shape do not change the count. *)
Theorem backbone_layer_count depths widths group_width block_type
    (include_rescaling : bool) mn input_tensor input_shape s :
  backbone_error depths widths group_width block_type = None ->
  length (applied (snd (RegNetBackBone_init depths widths group_width
                          block_type include_rescaling mn input_tensor
                          input_shape s)))
  = (length (applied s)
     + length (input_layers input_shape input_tensor)
     + (if include_rescaling then 1 else 0)
     + 3
     + sum_list ((fun i => stage_layer_count block_type
                             (default 0%Z (depths !! i)))
                   <$> seq 0 NUM_STAGES))%nat.
Proof.
  intros He.
  destruct (init_layers depths widths group_width block_type include_rescaling
              mn input_tensor input_shape s He) as (m & ->).
  cbn [snd]. rewrite applied_extend, length_app. unfold backbone_layers.
  rewrite !length_app. unfold stages_layers.
  cbn [NUM_STAGES seq fmap list_fmap concat sum_list sum_list_with].
  rewrite !length_app, !length_stage_layers.
  unfold id. change (length (stem_layers mn)) with 3%nat.
  destruct include_rescaling; cbn [length]; lia.
Qed.

Lemma backbone_layer_count_witness :
  length (applied (snd (RegNetBackBone_init [1; 1; 4; 7] [24; 56; 152; 368] 8
                          "X" true "regnet" None default_input_shape fresh)))
  = 143%nat.
Proof.
  exact (backbone_layer_count [1; 1; 4; 7] [24; 56; 152; 368] 8 "X" true
           "regnet" None default_input_shape fresh eq_refl).
Defined.

(** ** Layer names *)

Lemma append_assoc (a b c : string) : (a +:+ b) +:+ c = a +:+ (b +:+ c).
Proof.
  induction a as [|x a IH]; [done|].
  change (String x ((a +:+ b) +:+ c) = String x (a +:+ (b +:+ c))).
  by f_equal.
Qed.

Lemma append_nil_r (a : string) : a +:+ "" = a.
Proof.
  induction a as [|x a IH]; [done|].
  change (String x (a +:+ "") = String x a).
  by f_equal.
Qed.

Lemma append_nil_l (a : string) : "" +:+ a = a.
Proof. done. Qed.

Lemma append_cons x (a b : string) : String x a +:+ b = String x (a +:+ b).
Proof. done. Qed.

Lemma digits_run d1 d2 r1 r2 :
  all_digits d1 -> all_digits d2 -> no_digit_head r1 -> no_digit_head r2 ->
  d1 +:+ r1 = d2 +:+ r2 -> d1 = d2 ∧ r1 = r2.
Proof.
  revert d2. induction d1 as [|a d1 IH]; intros [|b d2] H1 H2 Hr1 Hr2;
    rewrite ?append_nil_l, ?append_cons.
  - done.
  - intros ->. cbn in Hr1. destruct H2 as [H2 _]. congruence.
  - intros <-. cbn in Hr2. destruct H1 as [H1 _]. congruence.
  - intros [= -> Heq]. destruct H1 as [_ H1], H2 as [_ H2].
    destruct (IH d2 H1 H2 Hr1 Hr2 Heq) as [-> ->]. done.
Qed.

Lemma pretty_N_char_digit x : is_digit (pretty_N_char x) = true.
Proof. unfold pretty_N_char. by repeat case_match. Qed.

Lemma pretty_N_go_digits x s : all_digits s -> all_digits (pretty_N_go x s).
Proof.
  revert s. induction (N.lt_wf_0 x) as [x _ IH]; intros s Hs.
  assert (x = 0 ∨ 0 < x)%N as [->|Hx] by lia.
  - by rewrite pretty_N_go_0.
  - rewrite pretty_N_go_step by done. apply IH.
    + by apply N.div_lt.
    + split; [apply pretty_N_char_digit | done].
Qed.

Lemma str_digits z : 0 <= z -> all_digits (str z).
Proof.
  intros Hz. unfold str, pretty, pretty_Z. destruct z as [|p|p]; [by cbn| |lia].
  unfold pretty, pretty_positive, pretty, pretty_N.
  rewrite decide_False by done. by apply pretty_N_go_digits.
Qed.

(** Decoding a name of the form [<i>bp<j>suffix]. *)
Lemma stage_block_key_inj bp i i' j j' suf suf' :
  no_digit_head bp -> bp ≠ "" ->
  0 <= i -> 0 <= i' -> 0 <= j -> 0 <= j' ->
  no_digit_head suf -> no_digit_head suf' ->
  str i +:+ (bp +:+ (str j +:+ suf)) = str i' +:+ (bp +:+ (str j' +:+ suf')) ->
  i = i' ∧ j = j' ∧ suf = suf'.
Proof.
  intros Hbp Hne Hi Hi' Hj Hj' Hs Hs' Heq.
  assert (Hhead : ∀ r, no_digit_head (bp +:+ r)).
  { intros r. destruct bp; [done|]. exact Hbp. }
  apply digits_run in Heq as [Hii Heq]; try (by apply str_digits); try done.
  apply (inj pretty) in Hii as ->.
  apply (inj (String.app bp)) in Heq.
  apply digits_run in Heq as [Hjj Heq]; try (by apply str_digits); try done.
  by apply (inj pretty) in Hjj as ->.
Qed.

Lemma layer_names_app l1 l2 :
  layer_names (l1 ++ l2) = layer_names l1 ++ layer_names l2.
Proof. apply omap_app. Qed.

Lemma layer_names_concat (ls : list (list layer)) :
  layer_names (concat ls) = concat (layer_names <$> ls).
Proof.
  induction ls as [|l ls IH]; [done|].
  cbn. by rewrite layer_names_app, IH.
Qed.

Lemma block_names block_type fo gw st B :
  layer_names (block_layers block_type fo gw st B)
  = String.append B <$> block_suffixes block_type st.
Proof.
  unfold block_suffixes, block_layers, residual_layers, x_main_layers,
    y_main_layers, x_skip_layers, z_block_layers, z_main_layers.
  destruct (String.eqb block_type "X"), (String.eqb block_type "Y"),
    (st =? 1); cbn; by rewrite ?append_assoc, ?append_nil_l, ?append_nil_r.
Qed.

Lemma block_suffixes_NoDup block_type st : NoDup (block_suffixes block_type st).
Proof.
  unfold block_suffixes, block_layers, residual_layers, x_main_layers,
    y_main_layers, x_skip_layers, z_block_layers, z_main_layers.
  destruct (String.eqb block_type "X"), (String.eqb block_type "Y"),
    (st =? 1); refine (@bool_decide_unpack _ (NoDup_dec _) _); by vm_compute.
Qed.

Lemma block_suffixes_head block_type st suf :
  suf ∈ block_suffixes block_type st -> no_digit_head suf.
Proof.
  unfold block_suffixes, block_layers, residual_layers, x_main_layers,
    y_main_layers, x_skip_layers, z_block_layers, z_main_layers.
  destruct (String.eqb block_type "X"), (String.eqb block_type "Y"),
    (st =? 1); cbn; intros H;
    repeat (apply elem_of_cons in H as [->|H]; [by vm_compute|]);
    by apply elem_of_nil in H.
Qed.

Lemma elem_of_concat_fmap {A B} (f : A -> list B) (l : list A) (y : B) :
  y ∈ concat (f <$> l) <-> ∃ a, a ∈ l ∧ y ∈ f a.
Proof.
  induction l as [|a l IH]; cbn.
  - split; [by intros ?%elem_of_nil | by intros (a & ?%elem_of_nil & _)].
  - rewrite elem_of_app, IH. split.
    + intros [Hy|(b & Hb & Hy)].
      * exists a. split; [apply list_elem_of_here | done].
      * exists b. split; [by apply list_elem_of_further | done].
    + intros (b & [->|Hb]%elem_of_cons & Hy); [by left | right; eauto].
Qed.

Lemma NoDup_concat_fmap {A B} (f : A -> list B) (l : list A) :
  NoDup l ->
  (∀ a, a ∈ l -> NoDup (f a)) ->
  (∀ a b y, a ∈ l -> b ∈ l -> y ∈ f a -> y ∈ f b -> a = b) ->
  NoDup (concat (f <$> l)).
Proof.
  induction 1 as [|a l Ha Hl IH]; intros Hf Hd; cbn; [constructor|].
  apply NoDup_app. split_and!.
  - apply Hf, list_elem_of_here.
  - intros y Hy (b & Hb & Hy')%elem_of_concat_fmap.
    apply Ha.
    rewrite (Hd a b y); [done|apply list_elem_of_here|
                         by apply list_elem_of_further|done|done].
  - apply IH.
    + intros b Hb. by apply Hf, list_elem_of_further.
    + intros b c y Hb Hc. apply Hd; by apply list_elem_of_further.
Qed.

Lemma block_prefix_head block_type r :
  no_digit_head (block_prefix block_type +:+ r).
Proof.
  unfold block_prefix.
  destruct (String.eqb block_type "X"), (String.eqb block_type "Y");
    by vm_compute.
Qed.

(** Two layer names of blocks of one stage agree only for the same block
    and the same layer of it. *)
Lemma block_name_inj N bp j j' suf suf' :
  0 <= j -> 0 <= j' -> no_digit_head suf -> no_digit_head suf' ->
  (N +:+ bp +:+ str j) +:+ suf = (N +:+ bp +:+ str j') +:+ suf' ->
  j = j' ∧ suf = suf'.
Proof.
  intros Hj Hj' Hs Hs'. rewrite !append_assoc. intros Heq.
  apply (inj (String.app N)), (inj (String.app bp)) in Heq.
  apply digits_run in Heq as [Hjj Heq]; try (by apply str_digits); try done.
  by apply (inj pretty) in Hjj as ->.
Qed.

Lemma stage_names block_type depth gw fo N :
  layer_names (stage_layers block_type depth gw fo N)
  = (String.append (N +:+ block_prefix block_type +:+ str 0)
       <$> block_suffixes block_type 2)
    ++ concat ((fun j => String.append (N +:+ block_prefix block_type +:+ str j)
                           <$> block_suffixes block_type 1)
                 <$> range_from_1 depth).
Proof.
  unfold stage_layers.
  rewrite layer_names_app, layer_names_concat, block_names, <- list_fmap_compose.
  f_equal. f_equal. apply list_fmap_ext. intros _ j _. cbn. apply block_names.
Qed.

(** Every layer name of a stage is the stage's name, the block prefix,
    a block index and a suffix that does not start with a digit. *)
Lemma stage_names_decode block_type depth gw fo N nm :
  nm ∈ layer_names (stage_layers block_type depth gw fo N) ->
  ∃ j suf, 0 <= j ∧ no_digit_head suf
           ∧ nm = N +:+ block_prefix block_type +:+ str j +:+ suf.
Proof.
  rewrite stage_names, elem_of_app, elem_of_concat_fmap.
  intros [(suf & -> & Hs)%list_elem_of_fmap
         |(j & Hj & (suf & -> & Hs)%list_elem_of_fmap)].
  - exists 0, suf. split_and!; [lia|by eapply block_suffixes_head|].
    by rewrite !append_assoc.
  - exists j, suf. apply elem_of_seqZ in Hj.
    split_and!; [lia|by eapply block_suffixes_head|].
    by rewrite !append_assoc.
Qed.

Lemma stage_names_NoDup block_type depth gw fo N :
  NoDup (layer_names (stage_layers block_type depth gw fo N)).
Proof.
  rewrite stage_names. apply NoDup_app. split_and!.
  - apply (NoDup_fmap_2 _), block_suffixes_NoDup.
  - intros nm (suf & -> & Hs)%list_elem_of_fmap
      (j & Hj%elem_of_seqZ & (suf' & Heq & Hs')%list_elem_of_fmap)%elem_of_concat_fmap.
    apply block_name_inj in Heq as [Hj0 _];
      [lia|lia|lia|by eapply block_suffixes_head..].
  - apply NoDup_concat_fmap.
    + apply NoDup_seqZ.
    + intros j _. apply (NoDup_fmap_2 _), block_suffixes_NoDup.
    + intros j j' nm Hj%elem_of_seqZ Hj'%elem_of_seqZ
        (suf & -> & Hs)%list_elem_of_fmap (suf' & Heq & Hs')%list_elem_of_fmap.
      apply block_name_inj in Heq as [Hj0 _];
        [done|lia|lia|by eapply block_suffixes_head..].
Qed.

Lemma stem_names mn :
  layer_names (stem_layers mn)
  = String.append mn <$> ["_stem_conv"; "_stem_conv_bn"; "_stem_conv_relu"].
Proof. cbn. by rewrite !append_assoc. Qed.

Lemma stem_not_stage suf r :
  suf ∈ ["_stem_conv"; "_stem_conv_bn"; "_stem_conv_relu"] ->
  suf ≠ "_Stage_" +:+ r.
Proof.
  intros H.
  repeat (apply elem_of_cons in H as [->|H];
          [rewrite !append_cons; discriminate|]).
  by apply elem_of_nil in H.
Qed.

Lemma stages_names_decode depths widths gw block_type mn idx nm :
  nm ∈ layer_names (stages_layers depths widths gw block_type mn idx) ->
  ∃ i j suf, i ∈ idx ∧ 0 <= j ∧ no_digit_head suf
    ∧ nm = mn +:+ "_Stage_" +:+ str (Z.of_nat i) +:+ block_prefix block_type
              +:+ str j +:+ suf.
Proof.
  unfold stages_layers. rewrite layer_names_concat, <- list_fmap_compose.
  intros (i & Hi & Hnm)%elem_of_concat_fmap. cbn in Hnm.
  apply stage_names_decode in Hnm as (j & suf & Hj & Hs & ->).
  exists i, j, suf. split_and!; [done..|].
  unfold stage_name. by rewrite !append_assoc.
Qed.

Lemma stages_names_NoDup depths widths gw block_type mn idx :
  NoDup idx ->
  NoDup (layer_names (stages_layers depths widths gw block_type mn idx)).
Proof.
  intros Hidx. unfold stages_layers.
  rewrite layer_names_concat, <- list_fmap_compose.
  apply NoDup_concat_fmap; [done|..].
  - intros i _. apply stage_names_NoDup.
  - intros i i' nm _ _ Hnm Hnm'. cbn in Hnm, Hnm'.
    apply stage_names_decode in Hnm as (j & suf & Hj & Hs & ->).
    apply stage_names_decode in Hnm' as (j' & suf' & Hj' & Hs' & Heq).
    unfold stage_name in Heq. rewrite !append_assoc in Heq.
    apply (inj (String.app mn)), (inj (String.app "_Stage_")) in Heq.
    apply stage_block_key_inj in Heq as (Hii & _);
      [lia| | |lia..|done|done];
      unfold block_prefix;
      by destruct (String.eqb block_type "X"), (String.eqb block_type "Y").
Qed.

Lemma backbone_names depths widths gw block_type (ir : bool) mn input_tensor
    input_shape :
  layer_names (backbone_layers depths widths gw block_type ir mn input_tensor
                 input_shape)
  = layer_names (stem_layers mn)
    ++ layer_names (stages_layers depths widths gw block_type mn
                      (seq 0 NUM_STAGES)).
Proof.
  unfold backbone_layers, input_layers.
  rewrite !layer_names_app. by destruct input_tensor, ir.
Qed.

(** X12. The names that a successful construction gives to its layers
    are pairwise distinct, and each of them starts with the model's
    name: whatever the depths, the widths and the block type, no two
    convolutions, normalisations, activations or squeeze-and-excite
    gates of the stem and of the four stages are given the same name. *)
Theorem backbone_layer_names_distinct depths widths group_width block_type
    (include_rescaling : bool) model_name input_tensor input_shape s :
  backbone_error depths widths group_width block_type = None ->
  ∃ new,
    applied (snd (RegNetBackBone_init depths widths group_width block_type
                    include_rescaling model_name input_tensor input_shape s))
    = applied s ++ new
    ∧ NoDup (layer_names new)
    ∧ ∀ nm, nm ∈ layer_names new -> ∃ rest, nm = model_name +:+ rest.
Proof.
  intros He.
  destruct (init_layers depths widths group_width block_type include_rescaling
              model_name input_tensor input_shape s He) as (m & ->).
  eexists. split; [reflexivity|]. rewrite backbone_names, stem_names. split.
  - apply NoDup_app. split_and!.
    + apply (NoDup_fmap_2 _).
      refine (@bool_decide_unpack _ (NoDup_dec _) _). by vm_compute.
    + intros nm (suf & -> & Hs)%list_elem_of_fmap
        (i & j & suf' & _ & _ & _ & Heq)%stages_names_decode.
      apply (inj (String.app model_name)) in Heq.
      by apply stem_not_stage in Heq.
    + apply stages_names_NoDup, NoDup_seq.
  - intros nm [(suf & -> & _)%list_elem_of_fmap
              |(i & j & suf & _ & _ & _ & ->)%stages_names_decode]%elem_of_app;
      eauto.
Qed.

Lemma backbone_layer_names_distinct_witness :
  ∃ new,
    applied (snd (RegNetBackBone_init [1; 1; 4; 7] [24; 56; 152; 368] 8 "Y"
                    true "regnety002" None default_input_shape fresh))
    = applied fresh ++ new
    ∧ NoDup (layer_names new)
    ∧ ∀ nm, nm ∈ layer_names new -> ∃ rest, nm = "regnety002" +:+ rest.
Proof.
  exact (backbone_layer_names_distinct [1; 1; 4; 7] [24; 56; 152; 368] 8 "Y"
           true "regnety002" None default_input_shape fresh eq_refl).
Defined.

(** ** Names drawn from the counters *)

Lemma pretty_N_go_nonempty x s :
  (0 < x)%N ∨ s ≠ "" -> pretty_N_go x s ≠ "".
Proof.
  revert s. induction (N.lt_wf_0 x) as [x _ IH]; intros s Hs.
  assert (x = 0 ∨ 0 < x)%N as [->|Hx] by lia.
  - rewrite pretty_N_go_0. destruct Hs; [lia|done].
  - rewrite pretty_N_go_step by done. apply IH; [by apply N.div_lt|by right].
Qed.

Lemma str_nonneg_head z :
  0 <= z -> ∃ a r, str z = String a r ∧ is_digit a = true.
Proof.
  intros Hz. pose proof (str_digits z Hz) as Hd.
  destruct (str z) as [|a r] eqn:Hs.
  - exfalso. revert Hs. unfold str, pretty, pretty_Z.
    destruct z as [|p|p]; [done| |lia].
    unfold pretty, pretty_positive, pretty, pretty_N.
    rewrite decide_False by done. apply pretty_N_go_nonempty. left. lia.
  - exists a, r. by destruct Hd.
Qed.

Lemma str_neg p : str (Z.neg p) = "-" +:+ str (Z.pos p).
Proof. reflexivity. Qed.

(** A numeral followed by something that does not start with a digit is
    read back in one way only. *)
Lemma str_run u u' r r' :
  no_digit_head r -> no_digit_head r' ->
  str u +:+ r = str u' +:+ r' -> u = u' ∧ r = r'.
Proof.
  intros Hr Hr' Heq.
  assert (Hpos : ∀ v v' q q', 0 <= v -> 0 <= v' ->
            no_digit_head q -> no_digit_head q' ->
            str v +:+ q = str v' +:+ q' -> v = v' ∧ q = q').
  { intros v v' q q' Hv Hv' Hq Hq' H.
    apply digits_run in H as [Hvv ->]; try (by apply str_digits); try done.
    by apply (inj pretty) in Hvv as ->. }
  assert (Hmix : ∀ v p q q', 0 <= v ->
            str v +:+ q = str (Z.neg p) +:+ q' -> False).
  { intros v p q q' Hv H.
    destruct (str_nonneg_head v Hv) as (a & t & Ha & Hd).
    rewrite Ha, str_neg, !append_cons, !append_nil_l in H.
    injection H as -> _.
    by vm_compute in Hd. }
  destruct u as [|p|p], u' as [|p'|p'];
    try (by apply Hpos);
    try (exfalso; refine (Hmix _ _ _ _ _ Heq); lia);
    try (exfalso; refine (Hmix _ _ _ _ _ (eq_sym Heq)); lia).
  rewrite !str_neg, !append_cons, !append_nil_l in Heq.
  injection Heq as Heq.
  apply Hpos in Heq as [[= ->] ->]; [done|lia|lia|done|done].
Qed.

Lemma get_uid_run prefix s :
  get_uid prefix s
  = (OK (default 0 (uid s !! prefix) + 1),
     State (<[prefix := default 0 (uid s !! prefix) + 1]> (uid s)) (applied s)).
Proof. reflexivity. Qed.

Lemma elem_of_block_suffixes_conv_3x3 block_type st :
  "_conv_3x3" ∈ block_suffixes block_type st.
Proof.
  unfold block_suffixes, block_layers, residual_layers, x_main_layers,
    y_main_layers, x_skip_layers, z_block_layers, z_main_layers.
  destruct (String.eqb block_type "X"), (String.eqb block_type "Y"),
    (st =? 1);
    refine (@bool_decide_unpack _ (list_elem_of_dec _ _) _); by vm_compute.
Qed.

(** X13. Two X blocks built without a name, one after the other, never
    give a layer the same name: the blocks are named after two successive
    values of the "xblock" counter, and the numeral at the head of a name
    is read back in one way only.  This holds for every state of the
    counters. *)
Theorem unnamed_x_blocks_distinct_names x y fi fo gw st fi' fo' gw' st' s :
  filters_guard fi fo st = false -> gw ≠ 0 ->
  filters_guard fi' fo' st' = false -> gw' ≠ 0 ->
  let c := default 0 (uid s !! "xblock") in
  let new := block_layers "X" fo gw st (str (c + 1))
             ++ block_layers "X" fo' gw' st' (str (c + 1 + 1)) in
  ∃ t1 s1 t2 s2,
    apply_x_block x fi fo gw st None s = (OK t1, s1)
    ∧ apply_x_block y fi' fo' gw' st' None s1 = (OK t2, s2)
    ∧ applied s2 = applied s ++ new
    ∧ NoDup (layer_names new).
Proof.
  intros Hg Hw Hg' Hw' c new.
  destruct (apply_x_block_accepts x fi fo gw st None s Hg Hw)
    as (n & s0 & Hn & Hr).
  cbn [name_or_uid] in Hn. unfold bind in Hn. rewrite get_uid_run in Hn.
  injection Hn as <- <-. fold c in Hr.
  match type of Hr with _ = (_, ?s1) =>
    destruct (apply_x_block_accepts y fi' fo' gw' st' None s1 Hg' Hw')
      as (n' & s0' & Hn' & Hr')
  end.
  cbn [name_or_uid] in Hn'. unfold bind in Hn'. rewrite get_uid_run in Hn'.
  injection Hn' as <- <-.
  unfold extend in Hr'. cbn [uid applied] in Hr'.
  rewrite lookup_insert_eq in Hr'. cbn [default] in Hr'.
  do 4 eexists. split; [exact Hr|]. split; [exact Hr'|].
  unfold extend. cbn [applied]. rewrite <- app_assoc.
  split; [reflexivity|].
  unfold new. rewrite layer_names_app, !block_names. apply NoDup_app. split_and!.
  - apply (NoDup_fmap_2 _), block_suffixes_NoDup.
  - intros nm (suf & -> & Hs)%list_elem_of_fmap
      (suf' & Heq & Hs')%list_elem_of_fmap.
    apply str_run in Heq as [Hc _]; [lia|by eapply block_suffixes_head..].
  - apply (NoDup_fmap_2 _), block_suffixes_NoDup.
Qed.

Lemma unnamed_x_blocks_distinct_names_witness :
  ∃ t1 s1 t2 s2,
    apply_x_block (TInput (Shape None None 32)) 32 64 8 2 None fresh
    = (OK t1, s1)
    ∧ apply_x_block (TInput (Shape None None 64)) 64 64 8 1 None s1
      = (OK t2, s2)
    ∧ applied s2
      = applied fresh
        ++ (block_layers "X" 64 8 2 (str 1) ++ block_layers "X" 64 8 1 (str 2))
    ∧ NoDup (layer_names (block_layers "X" 64 8 2 (str 1)
                          ++ block_layers "X" 64 8 1 (str 2))).
Proof.
  exact (unnamed_x_blocks_distinct_names (TInput (Shape None None 32))
           (TInput (Shape None None 64)) 32 64 8 2 64 64 8 1 fresh
           eq_refl ltac:(lia) eq_refl ltac:(lia)).
Defined.

(** X14. An X block and a Y block built without a name take their names
    from two different counters, "xblock" and "yblock", and the name is
    the bare numeral: when the two counters agree (as they do before
    either has been used), the two blocks give some of their layers the
    same name, here at the default squeeze-and-excite ratio. *)
Theorem unnamed_x_and_y_blocks_share_names x y fi fo gw st fi' fo' gw' st' s :
  default 0 (uid s !! "xblock") = default 0 (uid s !! "yblock") ->
  filters_guard fi fo st = false -> gw ≠ 0 ->
  filters_guard fi' fo' st' = false -> gw' ≠ 0 ->
  let c := default 0 (uid s !! "xblock") in
  let new := block_layers "X" fo gw st (str (c + 1))
             ++ block_layers "Y" fo' gw' st' (str (c + 1)) in
  ∃ t1 s1 t2 s2,
    apply_x_block x fi fo gw st None s = (OK t1, s1)
    ∧ apply_y_block y fi' fo' gw' st' f_0_25 None s1 = (OK t2, s2)
    ∧ applied s2 = applied s ++ new
    ∧ ¬ NoDup (layer_names new).
Proof.
  intros Hc Hg Hw Hg' Hw' c new.
  destruct (apply_x_block_accepts x fi fo gw st None s Hg Hw)
    as (n & s0 & Hn & Hr).
  cbn [name_or_uid] in Hn. unfold bind in Hn. rewrite get_uid_run in Hn.
  injection Hn as <- <-. fold c in Hr.
  match type of Hr with _ = (_, ?s1) =>
    destruct (apply_y_block_accepts y fi' fo' gw' st' None s1 f_0_25 Hg' Hw')
      as (n' & s0' & Hn' & Hr')
  end.
  cbn [name_or_uid] in Hn'. unfold bind in Hn'. rewrite get_uid_run in Hn'.
  injection Hn' as <- <-.
  unfold extend in Hr'. cbn [uid applied] in Hr'.
  rewrite lookup_insert_ne in Hr' by done. rewrite <- Hc in Hr'. fold c in Hr'.
  do 4 eexists. split; [exact Hr|]. split; [exact Hr'|].
  unfold extend. cbn [applied]. rewrite <- app_assoc.
  split; [reflexivity|].
  unfold new. rewrite layer_names_app, !block_names.
  intros (_ & Hd & _)%NoDup_app.
  apply (Hd (str (c + 1) +:+ "_conv_3x3"));
    apply list_elem_of_fmap; eexists; (split; [reflexivity|]);
    apply elem_of_block_suffixes_conv_3x3.
Qed.

Lemma unnamed_x_and_y_blocks_share_names_witness :
  ∃ t1 s1 t2 s2,
    apply_x_block (TInput (Shape None None 32)) 32 64 8 2 None fresh
    = (OK t1, s1)
    ∧ apply_y_block (TInput (Shape None None 64)) 64 64 8 1 f_0_25 None s1
      = (OK t2, s2)
    ∧ applied s2
      = applied fresh
        ++ (block_layers "X" 64 8 2 (str 1) ++ block_layers "Y" 64 8 1 (str 1))
    ∧ ¬ NoDup (layer_names (block_layers "X" 64 8 2 (str 1)
                            ++ block_layers "Y" 64 8 1 (str 1))).
Proof.
  exact (unnamed_x_and_y_blocks_share_names (TInput (Shape None None 32))
           (TInput (Shape None None 64)) 32 64 8 2 64 64 8 1 fresh
           eq_refl eq_refl ltac:(lia) eq_refl ltac:(lia)).
Defined.

Lemma apply_stem_unnamed x s :
  apply_stem x None s
  = apply_stem x (Some ("stem" +:+ str (default 0 (uid s !! "stem") + 1)))
      (State (<["stem" := default 0 (uid s !! "stem") + 1]> (uid s))
         (applied s)).
Proof. reflexivity. Qed.

(** X15. Two stems built without a name, one after the other, are named
    "stem<c+1>" and "stem<c+2>" after the "stem" counter, and no layer of
    the second is given the name of a layer of the first, whatever the
    state of the counters. *)
Theorem unnamed_stems_distinct_names x y s :
  let c := default 0 (uid s !! "stem") in
  let new := stem_layers ("stem" +:+ str (c + 1))
             ++ stem_layers ("stem" +:+ str (c + 1 + 1)) in
  ∃ t1 s1 t2 s2,
    apply_stem x None s = (OK t1, s1)
    ∧ apply_stem y None s1 = (OK t2, s2)
    ∧ applied s2 = applied s ++ new
    ∧ NoDup (layer_names new).
Proof.
  intros c new.
  eexists _, _, _, _. split.
  { rewrite apply_stem_unnamed, apply_stem_run. reflexivity. }
  split.
  { rewrite apply_stem_unnamed, apply_stem_run. reflexivity. }
  unfold extend. cbn [uid applied]. rewrite lookup_insert_eq. cbn [default].
  fold c. rewrite <- app_assoc. split; [reflexivity|].
  unfold new. rewrite layer_names_app, !stem_names.
  assert (Hnd : NoDup ["_stem_conv"; "_stem_conv_bn"; "_stem_conv_relu"]).
  { refine (@bool_decide_unpack _ (NoDup_dec _) _). by vm_compute. }
  assert (Hh : ∀ suf, suf ∈ ["_stem_conv"; "_stem_conv_bn"; "_stem_conv_relu"]
                      -> no_digit_head suf).
  { intros suf H.
    repeat (apply elem_of_cons in H as [->|H]; [by vm_compute|]).
    by apply elem_of_nil in H. }
  apply NoDup_app. split_and!.
  - by apply (NoDup_fmap_2 _).
  - intros nm (suf & -> & Hs)%list_elem_of_fmap
      (suf' & Heq & Hs')%list_elem_of_fmap.
    rewrite !append_assoc in Heq. apply (inj (String.app "stem")) in Heq.
    apply str_run in Heq as [Hc _]; [lia|by apply Hh..].
  - by apply (NoDup_fmap_2 _).
Qed.

(** * The library's checks *)

Lemma shape_of_chain_after x ls :
  shape_of (chain x ls) = shape_after (shape_of x) ls.
Proof. apply shape_of_chain. Qed.

Lemma shape_after_app sh l1 l2 :
  shape_after sh (l1 ++ l2) = shape_after (shape_after sh l1) l2.
Proof. apply foldl_app. Qed.

Lemma fit_all_app sh l1 l2 :
  fit_all sh (l1 ++ l2) = fit_all sh l1 && fit_all (shape_after sh l1) l2.
Proof.
  revert sh. induction l1 as [|l l1 IH]; intros sh; [done|].
  cbn [app fit_all]. rewrite IH. unfold shape_after. cbn [foldl].
  by rewrite andb_assoc.
Qed.

Lemma accepted_chain x ls :
  accepted (chain x ls) = accepted x && fit_all (shape_of x) ls.
Proof.
  unfold chain. revert x. induction ls as [|l ls IH]; intros x.
  - cbn. by rewrite andb_true_r.
  - cbn [foldl fit_all]. rewrite IH. cbn [accepted shape_of].
    by rewrite andb_assoc.
Qed.

Lemma dim_ok_downsample st d :
  1 <= st -> dim_ok d = true -> dim_ok (downsample st <$> d) = true.
Proof.
  intros Hst. destruct d as [n|]; [|done]. cbn. unfold downsample.
  rewrite !Z.leb_le. intros Hn.
  apply Z.div_le_lower_bound; lia.
Qed.

Lemma shape_ok_intro sh :
  dim_ok (height sh) = true -> dim_ok (width sh) = true -> 1 <= channels sh ->
  shape_ok sh = true.
Proof.
  intros Hh Hw Hc. unfold shape_ok. rewrite Hh, Hw. cbn.
  by apply Z.leb_le.
Qed.

Lemma shape_ok_elim sh :
  shape_ok sh = true ->
  dim_ok (height sh) = true ∧ dim_ok (width sh) = true ∧ 1 <= channels sh.
Proof.
  unfold shape_ok. rewrite !andb_true_iff, Z.leb_le. tauto.
Qed.

Lemma shape_ok_block_shape st fo sh :
  1 <= st -> 1 <= fo -> shape_ok sh = true ->
  shape_ok (block_shape st fo sh) = true.
Proof.
  intros Hst Hfo (Hh & Hw & _)%shape_ok_elim.
  apply shape_ok_intro; cbn; auto using dim_ok_downsample.
Qed.

Lemma dim_ok_conv_output n k st p :
  1 <= st -> 1 <= n -> window_fits p k (Some n) = true ->
  1 <= conv_output_length n k st p.
Proof.
  intros Hst Hn. unfold window_fits, conv_output_length.
  destruct (String.eqb p "same"); cbn.
  - intros _. apply Z.div_le_lower_bound; lia.
  - rewrite Z.leb_le. intros Hk. apply Z.div_le_lower_bound; lia.
Qed.

(** A graph the library has gone along with has positive sizes. *)
Lemma accepted_shape_ok t : accepted t = true -> shape_ok (shape_of t) = true.
Proof.
  induction t as [sh|l x IH|a IHa b IHb]; cbn [accepted shape_of].
  - done.
  - rewrite andb_true_iff. intros [Hx Hl]. specialize (IH Hx).
    destruct l as [sh|sc|c|m e n|a n|f r n|]; cbn [fits layer_shape] in *;
      try done.
    unfold conv_fits in Hl. rewrite !andb_true_iff, !Z.leb_le in Hl.
    destruct Hl as (((((((((((_ & Hf) & Hk1) & Hk2) & Hst) & Hg) & _) & _)
                        & _) & _) & Hw1) & Hw2).
    apply shape_ok_elim in IH as (Hh & Hw & _).
    apply shape_ok_intro; cbn [height width channels]; [| |done].
    + destruct (height (shape_of x)) as [n|]; [|done]. cbn in *.
      apply Z.leb_le. apply Z.leb_le in Hh. by apply dim_ok_conv_output.
    + destruct (width (shape_of x)) as [n|]; [|done]. cbn in *.
      apply Z.leb_le. apply Z.leb_le in Hw. by apply dim_ok_conv_output.
  - rewrite !andb_true_iff. intros [[Ha _] _]. auto.
Qed.

Lemma window_fits_1 p d : dim_ok d = true -> window_fits p 1 d = true.
Proof.
  unfold window_fits. destruct d as [n|]; cbn; [|by rewrite orb_true_r].
  intros ->. by rewrite orb_true_r.
Qed.

Lemma conv_fits_intro f k1 k2 st g p n sh :
  shape_ok sh = true ->
  1 <= f -> 1 <= k1 -> 1 <= k2 -> 1 <= st -> 1 <= g ->
  f mod g = 0 -> channels sh mod g = 0 ->
  known_padding p = true ->
  window_fits p k1 (height sh) = true ->
  window_fits p k2 (width sh) = true ->
  conv_fits (Conv2DArgs f (k1, k2) st g false p "he_normal" n) sh = true.
Proof.
  intros Hsh Hf Hk1 Hk2 Hst Hg Hfg Hcg Hp Hw1 Hw2. unfold conv_fits.
  cbn [filters kernel_size strides groups padding kernel_initializer fst snd].
  rewrite Hsh, Hp, Hw1, Hw2, Hfg, Hcg.
  by rewrite !(proj2 (Z.leb_le _ _)) by done.
Qed.

Lemma shape_after_unit sh f k st g p act n :
  shape_after sh (conv_unit_layers f k st g p act n)
  = layer_shape (Conv2D (Conv2DArgs f k st g false p "he_normal" n)) sh.
Proof. by destruct act. Qed.

Lemma fit_all_unit sh f k st g p act n :
  fit_all sh (conv_unit_layers f k st g p act n)
  = conv_fits (Conv2DArgs f k st g false p "he_normal" n) sh
    && match act with Some a => known_activation a | None => true end.
Proof.
  destruct act; cbn [conv_unit_layers app fit_all fits layer_shape];
    by rewrite ?andb_true_r, ?andb_true_l.
Qed.

Lemma layer_shape_1x1 sh f st n :
  layer_shape (Conv2D (Conv2DArgs f (1, 1) st 1 false "valid" "he_normal" n)) sh
  = block_shape st f sh.
Proof.
  unfold block_shape, downsample. destruct sh as [[h|] [w|] c]; cbn;
    unfold conv_output_length; cbn; repeat f_equal; lia.
Qed.

Lemma layer_shape_3x3 sh f st g n :
  layer_shape (Conv2D (Conv2DArgs f (3, 3) st g false "same" "he_normal" n)) sh
  = block_shape st f sh.
Proof. by destruct sh as [[h|] [w|] c]. Qed.

(** A 1x1 unit without padding, at any stride. *)
Lemma fit_all_unit_1x1 sh f st act n :
  shape_ok sh = true -> 1 <= f -> 1 <= st ->
  match act with Some a => known_activation a | None => true end = true ->
  fit_all sh (conv_unit_layers f (1, 1) st 1 "valid" act n) = true.
Proof.
  intros Hsh Hf Hst Ha. rewrite fit_all_unit, Ha, andb_true_r.
  destruct (shape_ok_elim _ Hsh) as (Hh & Hw & Hc).
  apply conv_fits_intro; try done; try lia;
    try apply Z.mod_1_r; by apply window_fits_1.
Qed.

(** The grouped 3x3 unit with "same" padding. *)
Lemma fit_all_unit_3x3 sh f st g act n :
  shape_ok sh = true -> 1 <= f -> 1 <= st -> 1 <= g -> f mod g = 0 ->
  channels sh mod g = 0 ->
  match act with Some a => known_activation a | None => true end = true ->
  fit_all sh (conv_unit_layers f (3, 3) st g "same" act n) = true.
Proof.
  intros Hsh Hf Hst Hg Hfg Hcg Ha. rewrite fit_all_unit, Ha, andb_true_r.
  by apply conv_fits_intro.
Qed.

Lemma block_shape_block_shape_1 st fo sh :
  block_shape 1 fo (block_shape st fo sh) = block_shape st fo sh.
Proof. by apply block_shape_1. Qed.

Lemma fit_all_x_main sh fo gw st n :
  shape_ok sh = true -> 1 <= fo -> 1 <= st -> groups_ok fo gw ->
  fit_all sh (x_main_layers fo gw st n) = true.
Proof.
  intros Hsh Hfo Hst [Hg Hd]. unfold x_main_layers.
  rewrite !fit_all_app, !shape_after_unit, layer_shape_1x1, layer_shape_3x3.
  rewrite fit_all_unit_1x1, fit_all_unit_3x3, fit_all_unit_1x1; try done.
  - apply shape_ok_block_shape; [done..|]. by apply shape_ok_block_shape.
  - by apply shape_ok_block_shape.
Qed.

Lemma gate_fits_intro f r sh :
  shape_ok sh = true -> channels sh = f -> gate_ok f r = true ->
  gate_fits f r sh = true.
Proof.
  intros Hsh Hc Hg. unfold gate_fits. rewrite Hsh, Hg.
  by rewrite (proj2 (Z.eqb_eq _ _) Hc).
Qed.

Lemma fit_all_y_main sh fo gw st ser n :
  shape_ok sh = true -> 1 <= fo -> 1 <= st -> groups_ok fo gw ->
  gate_ok fo ser = true ->
  fit_all sh (y_main_layers fo gw st ser n) = true.
Proof.
  intros Hsh Hfo Hst [Hg Hd] Hgate. unfold y_main_layers.
  rewrite !fit_all_app, !shape_after_unit, layer_shape_1x1, layer_shape_3x3.
  cbn [fit_all fits layer_shape]. 
  rewrite fit_all_unit_1x1, fit_all_unit_3x3, fit_all_unit_1x1, gate_fits_intro;
    try done.
  all: repeat apply shape_ok_block_shape; done.
Qed.

Lemma fit_all_x_skip sh fo st n :
  shape_ok sh = true -> 1 <= fo -> 1 <= st ->
  fit_all sh (x_skip_layers fo st n) = true.
Proof.
  intros Hsh Hfo Hst. unfold x_skip_layers. destruct (st =? 1); [done|].
  by apply fit_all_unit_1x1.
Qed.

(** The shapes of the two paths of a residual block agree: the shortcut
    is the input itself at stride 1, where the input has to have
    [filters_out] channels, and the projection otherwise. *)
Lemma skip_shape_agrees inputs fo st n :
  (st = 1 -> channels (shape_of inputs) = fo) ->
  shape_of (chain inputs (x_skip_layers fo st n))
  = block_shape st fo (shape_of inputs).
Proof.
  intros Hc. destruct (decide (st = 1)) as [->|Hst].
  - unfold x_skip_layers. cbn [Z.eqb Pos.eqb chain foldl].
    symmetry. by apply block_shape_1, Hc.
  - by apply skip_shape.
Qed.

Lemma x_block_accepted inputs fo gw st n :
  accepted inputs = true -> 1 <= fo -> 1 <= st -> groups_ok fo gw ->
  (st = 1 -> channels (shape_of inputs) = fo) ->
  accepted (residual_out inputs (x_main_layers fo gw st n)
              (x_skip_layers fo st n) n) = true.
Proof.
  intros Hin Hfo Hst Hg Hc. pose proof (accepted_shape_ok _ Hin) as Hsh.
  unfold residual_out. cbn [accepted fits].
  rewrite !accepted_chain, Hin, fit_all_x_main, fit_all_x_skip by done.
  rewrite x_main_shape, skip_shape_agrees by done.
  by rewrite bool_decide_eq_true_2.
Qed.

Lemma y_block_accepted inputs fo gw st ser n :
  accepted inputs = true -> 1 <= fo -> 1 <= st -> groups_ok fo gw ->
  gate_ok fo ser = true ->
  (st = 1 -> channels (shape_of inputs) = fo) ->
  accepted (residual_out inputs (y_main_layers fo gw st ser n)
              (x_skip_layers fo st n) n) = true.
Proof.
  intros Hin Hfo Hst Hg Hgate Hc.
  pose proof (accepted_shape_ok _ Hin) as Hsh.
  unfold residual_out. cbn [accepted fits].
  rewrite !accepted_chain, Hin, fit_all_y_main, fit_all_x_skip by done.
  rewrite y_main_shape, skip_shape_agrees by done.
  by rewrite bool_decide_eq_true_2.
Qed.

Lemma groups_ok_nonzero fo gw : groups_ok fo gw -> gw ≠ 0.
Proof. intros [Hg _] ->. rewrite Z.div_0_r in Hg. lia. Qed.

(** Positive widths that the group width divides give a group count the
    library takes. *)
Lemma groups_ok_divides fo gw :
  1 <= fo -> 0 < gw -> fo mod gw = 0 -> groups_ok fo gw.
Proof.
  intros Hfo Hgw Hd. unfold groups_ok.
  pose proof (Z.div_mod fo gw ltac:(lia)) as Hdm. rewrite Hd in Hdm.
  set (q := fo / gw) in *.
  assert (Hq : 1 <= q) by nia.
  split; [done|].
  rewrite Hdm, Z.add_0_r. apply Z.mod_mul. lia.
Qed.

Lemma conv_fits_elim f k1 k2 st g p n sh :
  conv_fits (Conv2DArgs f (k1, k2) st g false p "he_normal" n) sh = true ->
  shape_ok sh = true ∧ 1 <= f ∧ 1 <= st ∧ 1 <= g ∧ f mod g = 0
  ∧ channels sh mod g = 0.
Proof.
  unfold conv_fits.
  cbn [filters kernel_size strides groups padding kernel_initializer fst snd].
  rewrite !andb_true_iff, !Z.leb_le, !Z.eqb_eq. tauto.
Qed.

Lemma fit_all_unit_elim sh f k1 k2 st g p act n :
  fit_all sh (conv_unit_layers f (k1, k2) st g p act n) = true ->
  shape_ok sh = true ∧ 1 <= f ∧ 1 <= st ∧ 1 <= g ∧ f mod g = 0
  ∧ channels sh mod g = 0.
Proof.
  rewrite fit_all_unit, andb_true_iff. intros [H _].
  by apply conv_fits_elim in H.
Qed.

(** The library goes along with the main path of an X block exactly when
    the sizes are positive and the group count divides the filters. *)
Lemma fit_all_x_main_iff sh fo gw st n :
  fit_all sh (x_main_layers fo gw st n) = true
  <-> shape_ok sh = true ∧ 1 <= fo ∧ 1 <= st ∧ groups_ok fo gw.
Proof.
  split.
  - unfold x_main_layers.
    rewrite !fit_all_app, !shape_after_unit, layer_shape_1x1, !andb_true_iff.
    intros (H1 & H2 & _).
    apply fit_all_unit_elim in H1 as (Hsh & Hfo & _).
    apply fit_all_unit_elim in H2 as (_ & _ & Hst & Hg & Hd & _).
    by split_and!.
  - intros (Hsh & Hfo & Hst & Hg). by apply fit_all_x_main.
Qed.

Lemma gate_fits_elim f r sh : gate_fits f r sh = true -> gate_ok f r = true.
Proof. unfold gate_fits. rewrite !andb_true_iff. tauto. Qed.

Lemma fit_all_y_main_iff sh fo gw st ser n :
  fit_all sh (y_main_layers fo gw st ser n) = true
  <-> shape_ok sh = true ∧ 1 <= fo ∧ 1 <= st ∧ groups_ok fo gw
      ∧ gate_ok fo ser = true.
Proof.
  split.
  - unfold y_main_layers.
    rewrite !fit_all_app, !shape_after_unit, layer_shape_1x1, !andb_true_iff.
    intros (H1 & H2 & H3 & _).
    apply fit_all_unit_elim in H1 as (Hsh & Hfo & _).
    apply fit_all_unit_elim in H2 as (_ & _ & Hst & Hg & Hd & _).
    cbn [fit_all fits] in H3. rewrite andb_true_r in H3.
    apply gate_fits_elim in H3. by split_and!.
  - intros (Hsh & Hfo & Hst & Hg & Hgate). by apply fit_all_y_main.
Qed.

Lemma block_shape_1_inv fo sh : block_shape 1 fo sh = sh -> channels sh = fo.
Proof. destruct sh as [h w c]. unfold block_shape. by intros [= _ _ ->]. Qed.

Lemma skip_shape_agrees_inv inputs fo st n :
  block_shape st fo (shape_of inputs)
  = shape_of (chain inputs (x_skip_layers fo st n)) ->
  st = 1 -> channels (shape_of inputs) = fo.
Proof.
  intros H ->. unfold x_skip_layers in H. cbn [Z.eqb Pos.eqb chain foldl] in H.
  by apply block_shape_1_inv.
Qed.

(** The library goes along with an X block exactly when it has gone along
    with the input, the filters and the stride are positive, the group
    count is positive and divides the filters and, at stride 1, where the
    input itself is added, the input has [filters_out] channels. *)
Lemma x_block_accepted_iff inputs fo gw st n :
  accepted (residual_out inputs (x_main_layers fo gw st n)
              (x_skip_layers fo st n) n) = true
  <-> accepted inputs = true ∧ 1 <= fo ∧ 1 <= st ∧ groups_ok fo gw
      ∧ (st = 1 -> channels (shape_of inputs) = fo).
Proof.
  split.
  - unfold residual_out. cbn [accepted fits].
    rewrite !accepted_chain, !andb_true_iff, x_main_shape.
    intros ((((Hin & Hmain) & _) & Hsh) & _).
    apply fit_all_x_main_iff in Hmain as (_ & Hfo & Hst & Hg).
    apply bool_decide_eq_true in Hsh.
    split_and!; [done..|]. by eapply skip_shape_agrees_inv.
  - intros (Hin & Hfo & Hst & Hg & Hc). by apply x_block_accepted.
Qed.

Lemma y_block_accepted_iff inputs fo gw st ser n :
  accepted (residual_out inputs (y_main_layers fo gw st ser n)
              (x_skip_layers fo st n) n) = true
  <-> accepted inputs = true ∧ 1 <= fo ∧ 1 <= st ∧ groups_ok fo gw
      ∧ gate_ok fo ser = true
      ∧ (st = 1 -> channels (shape_of inputs) = fo).
Proof.
  split.
  - unfold residual_out. cbn [accepted fits].
    rewrite !accepted_chain, !andb_true_iff, y_main_shape.
    intros ((((Hin & Hmain) & _) & Hsh) & _).
    apply fit_all_y_main_iff in Hmain as (_ & Hfo & Hst & Hg & Hgate).
    apply bool_decide_eq_true in Hsh.
    split_and!; [done..|]. by eapply skip_shape_agrees_inv.
  - intros (Hin & Hfo & Hst & Hg & Hgate & Hc). by apply y_block_accepted.
Qed.

Lemma gate_ok_default_iff w : gate_ok w f_0_25 = true <-> 4 <= w.
Proof.
  unfold gate_ok, f_0_25.
  rewrite !andb_true_iff, !Z.ltb_lt, Z.leb_le. cbn. lia.
Qed.

Lemma apply_stage_xy_accepted_iff x block_type depth gw fi fo n s :
  block_type = "X" ∨ block_type = "Y" ->
  gw ≠ 0 ->
  ∃ t new,
    apply_stage x block_type depth gw fi fo (Some n) s = (OK t, extend s new)
    ∧ (accepted t = true <-> accepted x = true ∧ stage_ok block_type fo gw)
    ∧ shape_of t = block_shape 2 fo (shape_of x).
Proof.
  intros Hbt Hgw.
  unfold apply_stage. cbn [name_or_uid]. rewrite bind_ret.
  assert (Hg2 : filters_guard fi fo 2 = false) by (apply filters_guard_false; lia).
  assert (Hg1 : filters_guard fo fo 1 = false) by (apply filters_guard_false; lia).
  set (Inv := fun y =>
         (accepted y = true
          <-> accepted x = true ∧ stage_ok block_type fo gw)
         ∧ shape_of y = block_shape 2 fo (shape_of x)).
  destruct Hbt as [-> | ->]; cbn [String.eqb Ascii.eqb Bool.eqb].
  - destruct (apply_x_block_accepts x fi fo gw 2 (Some (n +:+ "_XBlock_0")) s
                Hg2 Hgw) as (n0 & s0 & [= <- <-] & Hrun).
    rewrite (bind_OK _ _ _ _ _ Hrun).
    match goal with |- context [for_each _ ?body ?x0 ?s0] =>
      destruct (for_each_blocks (range_from_1 depth) body Inv 1) with
        (x := x0) (s := s0) as (t & new & Hloop & Ht & Hs)
    end.
    + intros i y s1 [Hy Hsh].
      destruct (apply_x_block_accepts y fo fo gw 1
                  (Some (n +:+ "_XBlock_" +:+ str i)) s1 Hg1 Hgw)
        as (n1 & s2 & [= <- <-] & Hrun1).
      eexists _, _. split; [exact Hrun1|]. split; [|apply x_block_strides].
      split.
      * rewrite x_block_accepted_iff, Hy, Hsh. unfold stage_ok.
        cbn [block_shape channels]. intuition lia.
      * cbn [residual_out shape_of layer_shape].
        rewrite x_main_shape, Hsh. by apply block_shape_1.
    + split.
      * rewrite x_block_accepted_iff. unfold stage_ok. intuition (try lia).
        discriminate.
      * cbn [residual_out shape_of layer_shape]. apply x_main_shape.
    + rewrite Hloop, extend_extend. destruct Ht as [Ht1 Ht2].
      by eexists _, _.
  - destruct (apply_y_block_accepts x fi fo gw 2 (Some (n +:+ "_YBlock_0")) s
                f_0_25 Hg2 Hgw) as (n0 & s0 & [= <- <-] & Hrun).
    rewrite (bind_OK _ _ _ _ _ Hrun).
    match goal with |- context [for_each _ ?body ?x0 ?s0] =>
      destruct (for_each_blocks (range_from_1 depth) body Inv 1) with
        (x := x0) (s := s0) as (t & new & Hloop & Ht & Hs)
    end.
    + intros i y s1 [Hy Hsh].
      destruct (apply_y_block_accepts y fo fo gw 1
                  (Some (n +:+ "_YBlock_" +:+ str i)) s1 f_0_25 Hg1 Hgw)
        as (n1 & s2 & [= <- <-] & Hrun1).
      eexists _, _. split; [exact Hrun1|]. split; [|apply y_block_strides].
      split.
      * rewrite y_block_accepted_iff, Hy, Hsh, gate_ok_default_iff.
        unfold stage_ok. cbn [block_shape channels]. intuition lia.
      * cbn [residual_out shape_of layer_shape].
        rewrite y_main_shape, Hsh. by apply block_shape_1.
    + split.
      * rewrite y_block_accepted_iff, gate_ok_default_iff. unfold stage_ok.
        intuition lia.
      * cbn [residual_out shape_of layer_shape]. apply y_main_shape.
    + rewrite Hloop, extend_extend. destruct Ht as [Ht1 Ht2].
      by eexists _, _.
Qed.

Lemma stage_step_xy_accepted_iff depths widths gw block_type mn i x cin d w s :
  getitem depths i = OK d ->
  getitem widths i = OK w ->
  block_type = "X" ∨ block_type = "Y" ->
  gw ≠ 0 ->
  ∃ t new,
    stage_step depths widths gw block_type mn i (x, cin) s
    = (OK (t, w), extend s new)
    ∧ (accepted t = true <-> accepted x = true ∧ stage_ok block_type w gw).
Proof.
  intros Hd Hw Hbt Hgw. unfold stage_step. cbn [fst snd].
  rewrite Hd, bind_lift_OK, Hw, bind_lift_OK.
  destruct (apply_stage_xy_accepted_iff x block_type d gw cin w
              (mn +:+ "_Stage_" +:+ str (Z.of_nat i)) s Hbt Hgw)
    as (t & new & Hrun & Hacc & _).
  exists t, new. by rewrite (bind_OK _ _ _ _ _ Hrun).
Qed.

Lemma stem_accepted x n :
  accepted x = true -> accepted (chain x (stem_layers n)) = true.
Proof.
  intros Hx. pose proof (accepted_shape_ok _ Hx) as Hsh.
  rewrite accepted_chain, Hx. unfold stem_layers.
  apply fit_all_unit_3x3; try done; try lia; apply Z.mod_1_r.
Qed.

Lemma stem_accepted_iff x n :
  accepted (chain x (stem_layers n)) = true <-> accepted x = true.
Proof.
  split; [|apply stem_accepted].
  rewrite accepted_chain, andb_true_iff. tauto.
Qed.

(** The assembler on four widths: the library goes along with the whole
    backbone exactly when it has gone along with the input and every
    width suits the block type and the group width. *)
Lemma init_xy_accepted_iff d0 d1 d2 d3 w0 w1 w2 w3 gw block_type ir mn
    input_tensor input_shape s :
  block_type = "X" ∨ block_type = "Y" ->
  gw ≠ 0 ->
  ∃ m new,
    RegNetBackBone_init [d0; d1; d2; d3] [w0; w1; w2; w3] gw block_type ir mn
      input_tensor input_shape s
    = (OK m, extend s new)
    ∧ (accepted (outputs m) = true
       <-> accepted (graph_input input_shape input_tensor) = true
           ∧ Forall (fun w => stage_ok block_type w gw) [w0; w1; w2; w3]).
Proof.
  intros Hbt Hgw.
  unfold RegNetBackBone_init.
  rewrite (bind_OK _ _ _ _ _ (parse_model_inputs_run _ _ _)).
  set (img := graph_input input_shape input_tensor) in *.
  set (x0 := if ir then TCall (Rescaling rescaling_scale) img else img).
  set (resc := if ir then [Rescaling rescaling_scale] else []).
  assert (Hx0 : accepted x0 = true <-> accepted img = true).
  { subst x0. destruct ir; [|done]. cbn [accepted fits].
    by rewrite andb_true_r. }
  assert (Hresc : ∀ B (k : tensor -> M B) s1,
             bind (if ir then call (Rescaling rescaling_scale) img else ret img)
               k s1 = k x0 (extend s1 resc)).
  { intros B k s1. subst x0 resc. destruct ir; [done|].
    by rewrite bind_ret, extend_nil. }
  rewrite Hresc, (bind_OK _ _ _ _ _ (apply_stem_run _ _ _)).
  cbn zeta. rewrite stem_channels.
  cbn [for_each seq NUM_STAGES].
  set (y0 := chain x0 (stem_layers mn)).
  assert (Hy0 : accepted y0 = true <-> accepted img = true).
  { subst y0. by rewrite stem_accepted_iff. }
  rewrite !bind_assoc.
  match goal with |- context [bind (stage_step ?d ?w _ _ _ ?i (?x, ?c)) _ ?s1] =>
    destruct (stage_step_xy_accepted_iff d w gw block_type mn i x c _ _ s1
                eq_refl eq_refl Hbt Hgw) as (t1 & n1 & Hr1 & Ha1)
  end.
  rewrite (bind_OK _ _ _ _ _ Hr1). cbn beta. rewrite ?bind_assoc.
  match goal with |- context [bind (stage_step ?d ?w _ _ _ ?i (?x, ?c)) _ ?s1] =>
    destruct (stage_step_xy_accepted_iff d w gw block_type mn i x c _ _ s1
                eq_refl eq_refl Hbt Hgw) as (t2 & n2 & Hr2 & Ha2)
  end.
  rewrite (bind_OK _ _ _ _ _ Hr2). cbn beta. rewrite ?bind_assoc.
  match goal with |- context [bind (stage_step ?d ?w _ _ _ ?i (?x, ?c)) _ ?s1] =>
    destruct (stage_step_xy_accepted_iff d w gw block_type mn i x c _ _ s1
                eq_refl eq_refl Hbt Hgw) as (t3 & n3 & Hr3 & Ha3)
  end.
  rewrite (bind_OK _ _ _ _ _ Hr3). cbn beta. rewrite ?bind_assoc.
  match goal with |- context [bind (stage_step ?d ?w _ _ _ ?i (?x, ?c)) _ ?s1] =>
    destruct (stage_step_xy_accepted_iff d w gw block_type mn i x c _ _ s1
                eq_refl eq_refl Hbt Hgw) as (t4 & n4 & Hr4 & Ha4)
  end.
  rewrite (bind_OK _ _ _ _ _ Hr4). cbn beta.
  rewrite !bind_ret, ret_run, !extend_extend.
  eexists _, _. split; [reflexivity|]. cbn [outputs].
  rewrite Ha4, Ha3, Ha2, Ha1, Hy0, !Forall_cons, Forall_nil. tauto.
Qed.

(** ** The filter check of the X and Y blocks *)

(** C3, the claim refuted at a concrete input: at stride 2, from 32 to 64
    filters, a group width of 0 makes both blocks fail, with the
    [ZeroDivisionError] of [filters_out // group_width]. *)
Lemma xy_block_stride_2_group_width_0_fails :
  fst (apply_x_block (TInput (Shape None None 32)) 32 64 0 2 None fresh)
  = Raise ZeroDivisionError
  ∧ fst (apply_y_block (TInput (Shape None None 32)) 32 64 0 2 f_0_25 None
           fresh)
    = Raise ZeroDivisionError.
Proof. split; reflexivity. Qed.

(** C3, as the code has it.  For all [filters_in], [filters_out],
    [group_width] and [stride], the X block and the Y block raise their
    configuration error if and only if [filters_in != filters_out] and
    [stride == 1], and they raise it before any layer is applied.  When
    the check passes, a zero [group_width] stops the block, again before
    any layer, with the [ZeroDivisionError] of
    [filters_out // group_width].  At a stride other than 1 the check
    passes whatever the two filter counts are, and what decides whether
    the block is built is the library: it is built exactly on an input
    the library has gone along with, for positive [filters_out] and
    [stride] and a group count [filters_out // group_width] that is
    positive and divides [filters_out] (for the Y block, with a ratio
    that suits the gate).  [filters_in] plays no part in it. *)
Theorem xy_block_filter_check inputs filters_in filters_out group_width stride
    ser name s :
  let rx := apply_x_block inputs filters_in filters_out group_width stride
              name s in
  let ry := apply_y_block inputs filters_in filters_out group_width stride
              ser name s in
  let err := ValueError (filters_mismatch_msg filters_in filters_out stride) in
  (fst rx = Raise err <-> filters_in ≠ filters_out ∧ stride = 1)
  ∧ (fst ry = Raise err <-> filters_in ≠ filters_out ∧ stride = 1)
  ∧ (filters_in ≠ filters_out ∧ stride = 1 ->
       applied (snd rx) = applied s ∧ applied (snd ry) = applied s)
  ∧ (¬ (filters_in ≠ filters_out ∧ stride = 1) -> group_width = 0 ->
       fst rx = Raise ZeroDivisionError ∧ applied (snd rx) = applied s
       ∧ fst ry = Raise ZeroDivisionError ∧ applied (snd ry) = applied s)
  ∧ (stride ≠ 1 ->
       (built rx = true
        <-> accepted inputs = true ∧ 1 <= filters_out ∧ 1 <= stride
            ∧ groups_ok filters_out group_width)
       ∧ (built ry = true
          <-> accepted inputs = true ∧ 1 <= filters_out ∧ 1 <= stride
              ∧ groups_ok filters_out group_width
              ∧ gate_ok filters_out ser = true)).
Proof.
  cbn zeta. rewrite <- filters_guard_true. unfold built.
  destruct (filters_guard filters_in filters_out stride) eqn:Hg.
  - destruct (apply_x_block_rejects inputs filters_in filters_out group_width
                stride name s Hg) as (sx & -> & Hx).
    destruct (apply_y_block_rejects inputs filters_in filters_out group_width
                stride name s ser Hg) as (sy & -> & Hy).
    cbn [fst snd]. split_and!; try done.
    intros Hst. apply filters_guard_true in Hg. lia.
  - destruct (decide (group_width = 0)) as [H0|H0].
    + destruct (apply_x_block_zero_width inputs filters_in filters_out
                  group_width stride name s Hg H0) as (sx & -> & Hx).
      destruct (apply_y_block_zero_width inputs filters_in filters_out
                  group_width stride name s ser Hg H0) as (sy & -> & Hy).
      cbn [fst snd]. split_and!; try done.
      intros _. split; (split; [done|]).
      * intros (_ & _ & _ & Hgr). by destruct (groups_ok_nonzero _ _ Hgr).
      * intros (_ & _ & _ & Hgr & _).
        by destruct (groups_ok_nonzero _ _ Hgr).
    + destruct (apply_x_block_accepts inputs filters_in filters_out
                  group_width stride name s Hg H0) as (nx & sx & _ & ->).
      destruct (apply_y_block_accepts inputs filters_in filters_out
                  group_width stride name s ser Hg H0) as (ny & sy & _ & ->).
      cbn [fst snd]. split_and!; try done.
      intros Hst. rewrite x_block_accepted_iff, y_block_accepted_iff.
      tauto.
Qed.

Lemma xy_block_filter_check_witness :
  built (apply_x_block (TInput (Shape None None 32)) 32 64 8 2 None fresh)
  = true
  ∧ built (apply_y_block (TInput (Shape None None 32)) 32 64 8 2 f_0_25 None
             fresh)
    = true.
Proof.
  destruct (xy_block_filter_check (TInput (Shape None None 32)) 32 64 8 2
              f_0_25 None fresh) as (_ & _ & _ & _ & H).
  destruct H as [Hx Hy]; [lia|].
  split; [apply Hx | apply Hy]; split_and!;
    try reflexivity; try lia; (split; [by vm_compute | reflexivity]).
Defined.

(** ** Backbones built from the preset tables *)

Lemma backbone_error_xy d0 d1 d2 d3 w0 w1 w2 w3 gw block_type :
  block_type = "X" ∨ block_type = "Y" -> gw ≠ 0 ->
  backbone_error [d0; d1; d2; d3] [w0; w1; w2; w3] gw block_type = None.
Proof.
  intros Hbt Hgw. apply Z.eqb_neq in Hgw.
  unfold backbone_error, stage_step_error, stage_error.
  cbn [NUM_STAGES seq fmap list_fmap lookup list_lookup first_error].
  by destruct Hbt as [-> | ->]; cbn [String.eqb Ascii.eqb Bool.eqb orb negb];
    rewrite Hgw.
Qed.

Section PresetBackbones.

(** The two preset tables ([regnetx_backbone_presets.py] and
    [regnety_backbone_presets.py]) are not among the sources.  They are
    taken as given; their entries satisfy the spec's data model. *)
Variables backbone_presets_x backbone_presets_y : gmap string preset.

Hypothesis presets_x_valid :
  ∀ n p, backbone_presets_x !! n = Some p -> valid_preset "X" p.
Hypothesis presets_y_valid :
  ∀ n p, backbone_presets_y !! n = Some p -> valid_preset "Y" p.

(** C5. For every entry of either preset table, whatever the rescaling
    flag and the model name are, and on every input that the library has
    gone along with, the assembler builds the backbone: it applies the
    input layer, the rescaling if asked for, the stem and the four stages
    of the entry, stage after stage, the library goes along with every
    layer of it, and the channel count of the output is the entry's
    [widths[3]]. *)
Theorem preset_backbone_output_channels n p include_rescaling mn input_tensor
    input_shape s :
  backbone_presets_x !! n = Some p ∨ backbone_presets_y !! n = Some p ->
  accepted (graph_input input_shape input_tensor) = true ->
  ∃ m,
    RegNetBackBone_init (p_depths p) (p_widths p) (p_group_width p)
      (p_block_type p) include_rescaling mn input_tensor input_shape s
    = (OK m,
       extend s (backbone_layers (p_depths p) (p_widths p) (p_group_width p)
                   (p_block_type p) include_rescaling mn input_tensor
                   input_shape))
    ∧ accepted (outputs m) = true
    ∧ p_widths p !! 3%nat = Some (channels (shape_of (outputs m))).
Proof.
  intros Hin Himg.
  assert (Hv : ∃ bt, (bt = "X" ∨ bt = "Y") ∧ valid_preset bt p).
  { destruct Hin as [H|H]; [exists "X" | exists "Y"]; eauto. }
  destruct Hv as (bt & Hbt & (Hd & Hw & Hgw & Hty) & _ & Hws & Hy).
  destruct (four_entries _ Hd) as (d0 & d1 & d2 & d3 & Ed).
  destruct (four_entries _ Hw) as (w0 & w1 & w2 & w3 & Ew).
  rewrite Hty, Ed, Ew in *.
  assert (Hok : Forall (fun w => stage_ok bt w (p_group_width p))
                  [w0; w1; w2; w3]).
  { apply Forall_forall. intros w Hin'.
    rewrite Forall_forall in Hws. destruct (Hws w Hin') as [Hw1 Hwd].
    split_and!; [done|by apply groups_ok_divides|].
    intros HY. specialize (Hy HY). rewrite Forall_forall in Hy. by apply Hy. }
  destruct (init_layers [d0; d1; d2; d3] [w0; w1; w2; w3] (p_group_width p) bt
              include_rescaling mn input_tensor input_shape s) as (m & Hrun).
  { apply backbone_error_xy; [done|lia]. }
  destruct (init_xy_accepted_iff d0 d1 d2 d3 w0 w1 w2 w3 (p_group_width p) bt
              include_rescaling mn input_tensor input_shape s Hbt)
    as (m1 & new1 & Hrun1 & Hacc); [lia|].
  destruct (init_xy_run d0 d1 d2 d3 w0 w1 w2 w3 (p_group_width p) bt
              include_rescaling mn input_tensor input_shape s Hbt)
    as (m2 & new2 & Hrun2 & Hsh & _); [lia|].
  rewrite Hrun in Hrun1, Hrun2.
  injection Hrun1 as <- _. injection Hrun2 as <- _.
  exists m. split_and!; [done|by apply Hacc|]. by rewrite Hsh.
Qed.

End PresetBackbones.

(** One-entry tables with hyperparameters of the kind the preset tables
    hold, to exercise the theorem above. *)
Lemma sample_presets_x_valid n p :
  ({["regnetx002" := Preset [1; 1; 4; 7] [24; 56; 152; 368] 8 "X"]}
     : gmap string preset) !! n = Some p ->
  valid_preset "X" p.
Proof.
  intros [_ <-]%lookup_singleton_Some. unfold valid_preset, wf_preset.
  cbn [p_depths p_widths p_group_width p_block_type].
  split_and!; [reflexivity | reflexivity | lia | reflexivity | | |].
  - repeat (constructor; [lia|]). constructor.
  - repeat (constructor; [split; [lia|reflexivity]|]). constructor.
  - intros [=].
Defined.

Lemma sample_presets_y_valid n p :
  ({["regnety002" := Preset [1; 1; 4; 7] [24; 56; 152; 368] 8 "Y"]}
     : gmap string preset) !! n = Some p ->
  valid_preset "Y" p.
Proof.
  intros [_ <-]%lookup_singleton_Some. unfold valid_preset, wf_preset.
  cbn [p_depths p_widths p_group_width p_block_type].
  split_and!; [reflexivity | reflexivity | lia | reflexivity | | |].
  - repeat (constructor; [lia|]). constructor.
  - repeat (constructor; [split; [lia|reflexivity]|]). constructor.
  - intros _. repeat (constructor; [lia|]). constructor.
Defined.

Lemma preset_backbone_output_channels_witness :
  ∃ m,
    RegNetBackBone_init [1; 1; 4; 7] [24; 56; 152; 368] 8 "Y" true "regnet"
      None default_input_shape fresh
    = (OK m,
       extend fresh (backbone_layers [1; 1; 4; 7] [24; 56; 152; 368] 8 "Y"
                       true "regnet" None default_input_shape))
    ∧ accepted (outputs m) = true
    ∧ Some 368 = Some (channels (shape_of (outputs m))).
Proof.
  apply (preset_backbone_output_channels _ _ sample_presets_x_valid
           sample_presets_y_valid "regnety002"
           (Preset [1; 1; 4; 7] [24; 56; 152; 368] 8 "Y") true "regnet" None
           default_input_shape fresh).
  - right. reflexivity.
  - reflexivity.
Defined.

(** ** Determinism *)

Lemma generated_snoc c log l :
  generated c (log ++ [l])
  = (generated c log
     + if decide (layer_name l = None ∧ layer_class l = c) then 1 else 0)%nat.
Proof.
  unfold generated. rewrite filter_app, length_app. f_equal.
  rewrite filter_cons, filter_nil. by case_decide.
Qed.

(** The library's names for [new] are the same in two sessions exactly
    when the sessions have named equally many layers of every class that
    [new] leaves unnamed. *)
Lemma unit_names_eq log1 log2 new :
  unit_names log1 new = unit_names log2 new
  <-> ∀ l, l ∈ new -> layer_name l = None ->
           generated (layer_class l) log1 = generated (layer_class l) log2.
Proof.
  revert log1 log2. induction new as [|l new IH]; intros log1 log2.
  - split; [by intros _ l ?%elem_of_nil | done].
  - cbn [unit_names].
    assert (Htail : (∀ l', l' ∈ new -> layer_name l' = None ->
                       generated (layer_class l') (log1 ++ [l])
                       = generated (layer_class l') (log2 ++ [l]))
                    <-> (∀ l', l' ∈ new -> layer_name l' = None ->
                           generated (layer_class l') log1
                           = generated (layer_class l') log2)).
    { split; intros H l' Hl' Hn; specialize (H l' Hl' Hn);
        rewrite !generated_snoc in *; lia. }
    split.
    + intros [= Hhead Htl] l' [->|Hl']%elem_of_cons Hn.
      * unfold unit_name_in in Hhead. rewrite Hn in Hhead. by injection Hhead.
      * exact (proj1 Htail (proj1 (IH _ _) Htl) l' Hl' Hn).
    + intros H. f_equal.
      * unfold unit_name_in. destruct (layer_name l) eqn:Hn; [done|].
        f_equal. apply H; [apply list_elem_of_here | done].
      * apply (proj2 (IH _ _)), Htail. intros l' Hl'. apply H.
        by apply list_elem_of_further.
Qed.

(** C8, the claim refuted at a concrete input: a backbone built twice in
    one session, with the same arguments.  The second construction
    applies the same layers as the first, but the library names its input
    layer, its rescaling and its additions after counters that the first
    construction has moved on, so the units of the two graphs are not
    named alike. *)
Lemma second_construction_is_named_differently :
  let build := RegNetBackBone_init [1; 1; 1; 1] [24; 56; 152; 368] 8 "X" true
                 "regnet" None default_input_shape in
  let first := applied (snd (build fresh)) in
  applied (snd (build (snd (build fresh)))) = first ++ first
  ∧ head (unit_names [] first) = Some (Generated "input" 0)
  ∧ head (unit_names first first) = Some (Generated "input" 1)
  ∧ unit_names [] first ≠ unit_names first first.
Proof. vm_compute. split_and!; [reflexivity..|discriminate]. Qed.

(** C8, as the code has it.  Two constructions with the same arguments,
    started in any two sessions (any two states of the naming counters
    and of the layer log), yield the same model, hence the same graph and
    the same output shape, and apply the same sequence of layers, hence
    the same number of layers and the same names on every unit that the
    module names.  The names that the library generates for the layers
    the module leaves unnamed are the same in both exactly when the two
    sessions have named equally many layers of each of their classes
    before. *)
Theorem construction_is_deterministic depths widths gw block_type
    include_rescaling mn input_tensor input_shape s1 s2 :
  let run1 := RegNetBackBone_init depths widths gw block_type
                include_rescaling mn input_tensor input_shape s1 in
  let run2 := RegNetBackBone_init depths widths gw block_type
                include_rescaling mn input_tensor input_shape s2 in
  fst run1 = fst run2
  ∧ map_result (fun m => shape_of (outputs m)) (fst run1)
    = map_result (fun m => shape_of (outputs m)) (fst run2)
  ∧ ∃ layers,
      applied (snd run1) = applied s1 ++ layers
      ∧ applied (snd run2) = applied s2 ++ layers
      ∧ (unit_names (applied s1) layers = unit_names (applied s2) layers
         <-> ∀ l, l ∈ layers -> layer_name l = None ->
                  generated (layer_class l) (applied s1)
                  = generated (layer_class l) (applied s2)).
Proof.
  cbn zeta.
  destruct (init_run depths widths gw block_type mn input_tensor input_shape)
    as (r & new & Hrun).
  rewrite (Hrun include_rescaling s1), (Hrun include_rescaling s2).
  cbn [fst snd]. split_and!; [done..|].
  eexists. split_and!; [done..|]. apply unit_names_eq.
Qed.

(** * Further properties of the blocks, the stages and the assembler *)

(** X2. Every block that is built on an input of [filters_in] channels
    has an output of [filters_out] channels whose height and width are
    those of the input divided by the stride, rounded up; unknown sizes
    stay unknown.  This holds for the X, Y and Z blocks alike. *)
Theorem block_output_shape inputs filters_in filters_out group_width stride
    ser br name s :
  channels (shape_of inputs) = filters_in ->
  let out := block_shape stride filters_out (shape_of inputs) in
  (∀ t, fst (apply_x_block inputs filters_in filters_out group_width stride
               name s) = OK t -> shape_of t = out)
  ∧ (∀ t, fst (apply_y_block inputs filters_in filters_out group_width stride
                 ser name s) = OK t -> shape_of t = out)
  ∧ (∀ t, fst (apply_z_block inputs filters_in filters_out group_width stride
                 ser br name s) = OK t -> shape_of t = out).
Proof.
  intros _. cbn zeta.
  destruct (filters_guard filters_in filters_out stride) eqn:Hg.
  { destruct (apply_x_block_rejects inputs filters_in filters_out group_width
                stride name s Hg) as (sx & -> & _).
    destruct (apply_y_block_rejects inputs filters_in filters_out group_width
                stride name s ser Hg) as (sy & -> & _).
    destruct (apply_z_block_rejects inputs filters_in filters_out group_width
                stride name s ser br Hg) as (sz & -> & _).
    done. }
  destruct (decide (group_width = 0)) as [H0|H0].
  { destruct (apply_x_block_zero_width inputs filters_in filters_out
                group_width stride name s Hg H0) as (sx & -> & _).
    destruct (apply_y_block_zero_width inputs filters_in filters_out
                group_width stride name s ser Hg H0) as (sy & -> & _).
    destruct (apply_z_block_arith_error inputs filters_in filters_out
                group_width stride name s ser br ZeroDivisionError Hg)
      as (sz & -> & _); [by rewrite H0|].
    done. }
  destruct (apply_x_block_accepts inputs filters_in filters_out group_width
              stride name s Hg H0) as (nx & sx & _ & ->).
  destruct (apply_y_block_accepts inputs filters_in filters_out group_width
              stride name s ser Hg H0) as (ny & sy & _ & ->).
  cbn [fst]. split_and!.
  - intros t [= <-]. cbn [residual_out shape_of layer_shape].
    apply x_main_shape.
  - intros t [= <-]. cbn [residual_out shape_of layer_shape].
    apply y_main_shape.
  - destruct (inv_btlneck filters_out br) as [bw|e] eqn:Hb.
    + destruct (apply_z_block_accepts inputs filters_in filters_out
                  group_width stride name s ser br bw Hg H0 Hb)
        as (nz & sz & _ & ->).
      intros t [= <-]. unfold z_block_out.
      destruct (stride =? 1); cbn [shape_of]; apply z_main_shape.
    + destruct (apply_z_block_arith_error inputs filters_in filters_out
                  group_width stride name s ser br e Hg) as (sz & -> & _);
        [by rewrite (floordiv_ok _ _ H0)|].
      done.
Qed.

Lemma block_output_shape_witness :
  ∃ tx ty tz,
    fst (apply_x_block (TInput (Shape (Some 57) None 32)) 32 64 8 2 None fresh)
    = OK tx
    ∧ fst (apply_y_block (TInput (Shape (Some 57) None 32)) 32 64 8 2 f_0_25
             None fresh) = OK ty
    ∧ fst (apply_z_block (TInput (Shape (Some 57) None 32)) 32 64 8 2 f_0_25
             f_0_25 None fresh) = OK tz
    ∧ shape_of tx = Shape (Some 29) None 64
    ∧ shape_of ty = Shape (Some 29) None 64
    ∧ shape_of tz = Shape (Some 29) None 64.
Proof.
  destruct (block_output_shape (TInput (Shape (Some 57) None 32)) 32 64 8 2
              f_0_25 f_0_25 None fresh eq_refl) as (Hx & Hy & Hz).
  eexists _, _, _. split_and!; [reflexivity..| | |].
  - exact (Hx _ eq_refl).
  - exact (Hy _ eq_refl).
  - exact (Hz _ eq_refl).
Defined.

(** X4. The checks of a block run in a fixed order, and all of them
    before the block's first layer: the filter check comes first, also
    when the group width is 0 or the bottleneck ratio is unusable; then
    the division by the group width, with its [ZeroDivisionError]; then,
    in the Z block, the bottleneck width [int(filters_out /
    bottleneck_ratio)] with the error of its arithmetic.  A block stopped
    by one of them has applied no layer. *)
Theorem block_checks_come_first inputs filters_in filters_out group_width
    stride ser br name s :
  let rx := apply_x_block inputs filters_in filters_out group_width stride
              name s in
  let ry := apply_y_block inputs filters_in filters_out group_width stride
              ser name s in
  let rz := apply_z_block inputs filters_in filters_out group_width stride
              ser br name s in
  let unchanged :=
    applied (snd rx) = applied s ∧ applied (snd ry) = applied s
    ∧ applied (snd rz) = applied s in
  (filters_in ≠ filters_out ∧ stride = 1 ->
     fst rx = Raise (ValueError
                       (filters_mismatch_msg filters_in filters_out stride))
     ∧ fst ry = Raise (ValueError
                         (filters_mismatch_msg filters_in filters_out stride))
     ∧ fst rz = Raise (ValueError
                         (filters_mismatch_msg_z filters_in filters_out
                            stride))
     ∧ unchanged)
  ∧ (filters_in = filters_out ∨ stride ≠ 1 -> group_width = 0 ->
     fst rx = Raise ZeroDivisionError ∧ fst ry = Raise ZeroDivisionError
     ∧ fst rz = Raise ZeroDivisionError ∧ unchanged)
  ∧ (filters_in = filters_out ∨ stride ≠ 1 -> group_width ≠ 0 ->
     ∀ e, inv_btlneck filters_out br = Raise e ->
          fst rz = Raise e ∧ applied (snd rz) = applied s).
Proof.
  cbn zeta. rewrite <- filters_guard_true, <- filters_guard_false.
  destruct (filters_guard filters_in filters_out stride) eqn:Hg.
  { destruct (apply_x_block_rejects inputs filters_in filters_out group_width
                stride name s Hg) as (sx & -> & Hx).
    destruct (apply_y_block_rejects inputs filters_in filters_out group_width
                stride name s ser Hg) as (sy & -> & Hy).
    destruct (apply_z_block_rejects inputs filters_in filters_out group_width
                stride name s ser br Hg) as (sz & -> & Hz).
    by split_and!. }
  split_and!; [done| |].
  - intros _ H0.
    destruct (apply_x_block_zero_width inputs filters_in filters_out
                group_width stride name s Hg H0) as (sx & -> & Hx).
    destruct (apply_y_block_zero_width inputs filters_in filters_out
                group_width stride name s ser Hg H0) as (sy & -> & Hy).
    destruct (apply_z_block_arith_error inputs filters_in filters_out
                group_width stride name s ser br ZeroDivisionError Hg)
      as (sz & -> & Hz); [by rewrite H0|].
    by split_and!.
  - intros _ H0 e He.
    destruct (apply_z_block_arith_error inputs filters_in filters_out
                group_width stride name s ser br e Hg) as (sz & -> & Hz);
      [by rewrite (floordiv_ok _ _ H0)|].
    done.
Qed.

Lemma block_checks_come_first_witness :
  fst (apply_z_block (TInput (Shape None None 32)) 32 64 0 1 f_0_25
         (S754_zero false) None fresh)
  = Raise (ValueError (filters_mismatch_msg_z 32 64 1))
  ∧ fst (apply_z_block (TInput (Shape None None 32)) 32 64 0 2 f_0_25
           (S754_zero false) None fresh)
    = Raise ZeroDivisionError
  ∧ applied (snd (apply_z_block (TInput (Shape None None 32)) 32 64 8 2
                    f_0_25 (S754_zero false) None fresh)) = applied fresh.
Proof.
  split_and!.
  - destruct (block_checks_come_first (TInput (Shape None None 32)) 32 64 0 1
                f_0_25 (S754_zero false) None fresh) as (H & _ & _).
    destruct H as (_ & _ & Hz & _); [lia | exact Hz].
  - destruct (block_checks_come_first (TInput (Shape None None 32)) 32 64 0 2
                f_0_25 (S754_zero false) None fresh) as (_ & H & _).
    destruct H as (_ & _ & Hz & _); [lia | reflexivity | exact Hz].
  - destruct (block_checks_come_first (TInput (Shape None None 32)) 32 64 8 2
                f_0_25 (S754_zero false) None fresh) as (_ & _ & H).
    destruct (H ltac:(lia) ltac:(lia) ZeroDivisionError eq_refl) as [_ Hz].
    exact Hz.
Defined.

(** X5. The checks of a stage.  A stage raises an error of its own in
    three cases, decided by its block type, its group width and, for Z
    blocks, its [filters_out]: an unrecognised block type gives
    [NotImplementedError]; otherwise a zero group width gives
    [ZeroDivisionError]; otherwise a Z stage whose bottleneck width
    [int(filters_out / 0.25)] cannot be computed gives that error.  Each
    is raised before any layer is applied.  In every other case the
    stage's own checks pass, whatever the depth, [filters_in] and the
    input are (the filter check of the blocks never stops a stage), and
    the graph the stage asks for halves the feature map once, rounding
    up, and has [filters_out] channels.  For X and Y blocks the library
    goes along with that graph exactly when it has gone along with the
    input, [filters_out] is positive and [filters_out // group_width] is
    positive and divides it (and, for the gate of the Y blocks,
    [filters_out] is at least 4); the depth plays no part. *)
Theorem stage_checks_and_result x block_type depth group_width filters_in
    filters_out name s :
  let r := apply_stage x block_type depth group_width filters_in filters_out
             name s in
  match stage_error block_type group_width filters_out with
  | Some e => fst r = Raise e ∧ applied (snd r) = applied s
  | None =>
      ∃ t, fst r = OK t
           ∧ shape_of t = block_shape 2 filters_out (shape_of x)
           ∧ (block_type = "X" ∨ block_type = "Y" ->
              (accepted t = true
               <-> accepted x = true
                   ∧ stage_ok block_type filters_out group_width))
  end.
Proof.
  cbn zeta.
  pose proof (apply_stage_cases x block_type depth group_width filters_in
                filters_out name s) as H.
  destruct (stage_error block_type group_width filters_out) as [e|] eqn:He.
  - by destruct H as (s' & -> & Hs).
  - destruct H as (t & s' & new & Hrun & _ & Hsh & _). rewrite Hrun.
    exists t. split_and!; [done..|].
    intros Hbt.
    assert (Hgw : group_width ≠ 0).
    { intros ->. unfold stage_error in He.
      by destruct Hbt as [-> | ->]. }
    destruct (apply_stage_named x block_type depth group_width filters_in
                filters_out name s) as (n & s0 & _ & _ & Heq).
    destruct (apply_stage_xy_accepted_iff x block_type depth group_width
                filters_in filters_out n s0 Hbt Hgw)
      as (t' & new' & Hrun' & Hacc & _).
    rewrite Heq, Hrun' in Hrun. by injection Hrun as <- _.
Qed.

Lemma stage_checks_and_result_witness :
  ∃ t, fst (apply_stage (TInput (Shape (Some 57) None 32)) "Y" 3 8 32 64 None
              fresh) = OK t
       ∧ shape_of t = Shape (Some 29) None 64
       ∧ accepted t = true.
Proof.
  destruct (stage_checks_and_result (TInput (Shape (Some 57) None 32)) "Y" 3
              8 32 64 None fresh) as (t & Ht & Hsh & Hacc).
  exists t. split_and!; [exact Ht | exact Hsh |].
  apply Hacc; [by right|]. split; [reflexivity|].
  split_and!; [lia | split; [by vm_compute | reflexivity] | lia].
Defined.

(** ** The assembler *)

Lemma backbone_error_None depths widths gw block_type :
  backbone_error depths widths gw block_type = None ->
  (4 <= length depths)%nat ∧ (4 <= length widths)%nat
  ∧ (block_type = "X" ∨ block_type = "Y" ∨ block_type = "Z")
  ∧ gw ≠ 0
  ∧ (block_type = "Z" ->
     ∀ i w, (i < 4)%nat -> widths !! i = Some w ->
            is_OK (inv_btlneck w f_0_25) = true).
Proof.
  unfold backbone_error. cbn [NUM_STAGES seq fmap list_fmap first_error].
  destruct (stage_step_error depths widths gw block_type 0) eqn:E0; [done|].
  destruct (stage_step_error depths widths gw block_type 1) eqn:E1; [done|].
  destruct (stage_step_error depths widths gw block_type 2) eqn:E2; [done|].
  destruct (stage_step_error depths widths gw block_type 3) eqn:E3; [done|].
  intros _. unfold stage_step_error in *.
  destruct (depths !! 3%nat) as [d3|] eqn:Hd3; [|done].
  destruct (widths !! 3%nat) as [w3|] eqn:Hw3; [|done].
  apply lookup_lt_Some in Hd3 as Hld. apply lookup_lt_Some in Hw3 as Hlw.
  assert (Hst : ∀ w, stage_error block_type gw w = None ->
            (block_type = "X" ∨ block_type = "Y" ∨ block_type = "Z")
            ∧ gw ≠ 0
            ∧ (block_type = "Z" -> is_OK (inv_btlneck w f_0_25) = true)).
  { intros w. unfold stage_error.
    destruct (String.eqb_spec block_type "X") as [->|HX];
      [|destruct (String.eqb_spec block_type "Y") as [->|HY];
        [|destruct (String.eqb_spec block_type "Z") as [->|HZ]]];
      cbn [orb negb]; try done;
      destruct (Z.eqb_spec gw 0); try done;
      cbn [String.eqb Ascii.eqb Bool.eqb].
    - intros _. split_and!; [auto | done | done].
    - intros _. split_and!; [auto | done | done].
    - destruct (inv_btlneck w f_0_25); [|done].
      intros _. split_and!; [auto | done | done]. }
  destruct (Hst _ E3) as (Hbt & Hgw & _).
  split_and!; [lia | lia | done | done |].
  intros HZ i w Hi Hw.
  assert (i = 0 ∨ i = 1 ∨ i = 2 ∨ i = 3)%nat as [-> | [-> | [-> | ->]]] by lia.
  - destruct (depths !! 0%nat); [|done]. rewrite Hw in E0.
    by apply (Hst _ E0).
  - destruct (depths !! 1%nat); [|done]. rewrite Hw in E1.
    by apply (Hst _ E1).
  - destruct (depths !! 2%nat); [|done]. rewrite Hw in E2.
    by apply (Hst _ E2).
  - rewrite Hw3 in Hw. injection Hw as <-. by apply (Hst _ E3).
Qed.

(** X8. What a construction needs.  Whenever the assembler returns a
    model, [depths] and [widths] have at least four entries each, the
    block type is one of "X", "Y" and "Z", the group width is not 0, and
    for Z blocks the bottleneck width [int(w / 0.25)] is defined for each
    of the four widths [w]: short lists stop the construction with
    [IndexError], the other three with the error of the first stage. *)
Theorem backbone_built_only_if depths widths group_width block_type
    (include_rescaling : bool) mn input_tensor input_shape s m :
  fst (RegNetBackBone_init depths widths group_width block_type
         include_rescaling mn input_tensor input_shape s) = OK m ->
  (4 <= length depths)%nat ∧ (4 <= length widths)%nat
  ∧ (block_type = "X" ∨ block_type = "Y" ∨ block_type = "Z")
  ∧ group_width ≠ 0
  ∧ (block_type = "Z" ->
     ∀ i w, (i < 4)%nat -> widths !! i = Some w ->
            is_OK (inv_btlneck w f_0_25) = true).
Proof.
  intros Hm. apply backbone_error_None.
  pose proof (init_cases depths widths group_width block_type
                include_rescaling mn input_tensor input_shape s) as H.
  cbn zeta in H.
  destruct (backbone_error depths widths group_width block_type) as [e|];
    [|done].
  destruct H as (rest & He & _). congruence.
Qed.

Lemma backbone_built_only_if_witness :
  (4 <= length [1; 1; 1; 1])%nat ∧ (4 <= length [24; 56; 152; 368])%nat
  ∧ ("Z" = "X" ∨ "Z" = "Y" ∨ "Z" = "Z")
  ∧ 8 ≠ 0
  ∧ ("Z" = "Z" ->
     ∀ i w, (i < 4)%nat -> [24; 56; 152; 368] !! i = Some w ->
            is_OK (inv_btlneck w f_0_25) = true).
Proof.
  destruct (fst (RegNetBackBone_init [1; 1; 1; 1] [24; 56; 152; 368] 8 "Z"
                   false "regnet" None default_input_shape fresh))
    as [m|e] eqn:Hm.
  - exact (backbone_built_only_if _ _ _ _ _ _ _ _ _ m Hm).
  - vm_compute in Hm. discriminate Hm.
Defined.

(** X1. When a backbone of X or Y blocks is built.  On four depths and
    four widths the assembler's construction goes through and the library
    goes along with every layer of it exactly when the library has gone
    along with the input, the group width is such that every width [w] is
    positive with a group count [w // group_width] that is positive and
    divides [w] and, for Y blocks, every width is at least 4.  The depths,
    the rescaling flag and the names play no part. *)
Theorem backbone_built_iff d0 d1 d2 d3 w0 w1 w2 w3 group_width block_type
    (include_rescaling : bool) mn input_tensor input_shape s :
  block_type = "X" ∨ block_type = "Y" ->
  model_built (RegNetBackBone_init [d0; d1; d2; d3] [w0; w1; w2; w3]
                 group_width block_type include_rescaling mn input_tensor
                 input_shape s) = true
  <-> accepted (graph_input input_shape input_tensor) = true
      ∧ Forall (fun w => stage_ok block_type w group_width) [w0; w1; w2; w3].
Proof.
  intros Hbt. unfold model_built.
  destruct (decide (group_width = 0)) as [->|Hgw].
  - pose proof (init_cases [d0; d1; d2; d3] [w0; w1; w2; w3] 0 block_type
                  include_rescaling mn input_tensor input_shape s) as H.
    cbn zeta in H.
    assert (He : backbone_error [d0; d1; d2; d3] [w0; w1; w2; w3] 0 block_type
                 = Some ZeroDivisionError).
    { unfold backbone_error, stage_step_error, stage_error.
      cbn [NUM_STAGES seq fmap list_fmap lookup list_lookup first_error].
      by destruct Hbt as [-> | ->]. }
    rewrite He in H. destruct H as (rest & -> & _).
    split; [done|]. intros [_ Hws]. apply Forall_cons in Hws as [(_ & Hg & _) _].
    by destruct (groups_ok_nonzero _ _ Hg).
  - destruct (init_xy_accepted_iff d0 d1 d2 d3 w0 w1 w2 w3 group_width
                block_type include_rescaling mn input_tensor input_shape s
                Hbt Hgw) as (m & new & -> & Hacc).
    exact Hacc.
Qed.

Lemma backbone_built_iff_witness :
  model_built (RegNetBackBone_init [1; 1; 4; 7] [24; 56; 152; 368] 8 "Y" true
                 "regnet" None default_input_shape fresh) = true
  ∧ model_built (RegNetBackBone_init [1; 1; 1; 1] [10; 10; 10; 10] 3 "X" true
                   "regnet" None default_input_shape fresh) = false.
Proof.
  split.
  - apply (backbone_built_iff 1 1 4 7 24 56 152 368 8 "Y" true "regnet" None
             default_input_shape fresh); [by right|].
    split; [reflexivity|].
    repeat (constructor;
            [split_and!; [lia | split; [by vm_compute | reflexivity] | lia]|]).
    constructor.
  - apply not_true_is_false. intros H.
    apply (backbone_built_iff 1 1 1 1 10 10 10 10 3 "X" true "regnet" None
             default_input_shape fresh) in H as [_ H]; [|by left].
    apply Forall_cons in H as [(_ & [_ Hd] & _) _]. by vm_compute in Hd.
Defined.
